(** * Sync engine of the offline-first task API

    A shallow embedding of [src/services/syncService.js], of
    [src/services/taskService.js], of the sync and status handlers of
    [src/routes/sync.js] and of the tables of [src/db/db.js], followed by
    the properties of the operation queue, the batch fingerprint, the
    conflict resolver, the apply step and the retry / dead-letter path, and
    then by those of the task service, the queries of the sync state, a
    whole sync run and the two handlers.

    Conventions of the embedding
    - JavaScript strings and SQLite TEXT values are [string]s (byte strings).
    - A JSON value is a [json] tree; number literals are integers (the only
      numeric payload field the request schema admits is [is_deleted], 0 or
      1); literals with a fraction or an exponent are outside the model.
    - [undefined] is [None] in an [option json].
    - The four tables are lists of rows in insertion (rowid) order.  A row
      keeps the value that was bound; the conversion SQLite applies for the
      affinity of a column is not modelled, so what is said of a written
      column is said for values of the column's type (strings and NULL for
      TEXT, integers for INTEGER).
    - [Date.parse] is modelled on the ISO forms only, and a property is
      drawn only from dates the model reads.
    - The middleware [validate(schema)] is modelled by its outcome for the
      body of the request.
    - [new Date().toISOString()] and [uuidv4()] read two oracles held by the
      world: the k-th reading of the clock and the k-th identifier. *)

From Stdlib Require Import ZArith List String Ascii Bool Lia.
From Stdlib Require Import Permutation Sorted Classical.
From Stdlib Require Import DecimalString DecimalZ.
From Stdlib Require DecimalPos DecimalFacts.
Import ListNotations.
Open Scope string_scope.
Open Scope Z_scope.

Set Implicit Arguments.

(* ================================================================== *)
(** ** Characters and strings *)

Module Str.

Definition chr (n : nat) : ascii := ascii_of_nat n.
Definition code (c : ascii) : nat := nat_of_ascii c.

Definition dquote : ascii := chr 34.
Definition backslash : ascii := chr 92.

Definition of_list (l : list ascii) : string := string_of_list_ascii l.
Definition to_list (s : string) : list ascii := list_ascii_of_string s.

Definition is_empty (s : string) : bool :=
  match s with EmptyString => true | _ => false end.

(** Byte-wise lexicographic order: SQLite's BINARY collation on TEXT, and
    the order of code units on the identifiers the queue holds. *)
Definition lt (a b : string) : Prop := String.compare a b = Lt.
Definition le (a b : string) : Prop := String.compare a b <> Gt.

Definition digit_val (c : ascii) : option Z :=
  let n := code c in
  if andb (48 <=? n)%nat (n <=? 57)%nat then Some (Z.of_nat (n - 48)) else None.

Definition hex_digit (n : Z) : ascii :=
  if n <? 10 then chr (Z.to_nat (48 + n)) else chr (Z.to_nat (87 + n)).

Definition hex_val (c : ascii) : option Z :=
  let n := code c in
  if andb (48 <=? n)%nat (n <=? 57)%nat then Some (Z.of_nat (n - 48))
  else if andb (97 <=? n)%nat (n <=? 102)%nat then Some (Z.of_nat (n - 87))
  else if andb (65 <=? n)%nat (n <=? 70)%nat then Some (Z.of_nat (n - 55))
  else None.

Definition of_Z (n : Z) : string := NilZero.string_of_int (Z.to_int n).

(** The form of the identifiers [uuidv4] makes: 36 characters, a dash at
    places 8, 13, 18 and 23, a lower-case hexadecimal digit elsewhere. *)
Fixpoint uuid_shape (i : nat) (l : list ascii) : bool :=
  match l with
  | [] => (i =? 36)%nat
  | c :: r =>
      let n := code c in
      andb (if orb (orb (i =? 8)%nat (i =? 13)%nat)
                   (orb (i =? 18)%nat (i =? 23)%nat)
            then (n =? 45)%nat
            else orb (andb (48 <=? n)%nat (n <=? 57)%nat)
                     (andb (97 <=? n)%nat (n <=? 102)%nat))
           (uuid_shape (S i) r)
  end.

Definition is_uuid (s : string) : bool := uuid_shape 0 (to_list s).

(** Writing aid for JSON texts: every apostrophe stands for a double quote. *)
Definition sq (s : string) : string :=
  of_list (map (fun c => if (code c =? 39)%nat then dquote else c) (to_list s)).

End Str.

(* ================================================================== *)
(** ** JSON values, [JSON.stringify] and [JSON.parse] *)

#[warnings="-register-all"]
Inductive json : Type :=
| JNull
| JBool (b : bool)
| JNum (n : Z)
| JStr (s : string)
| JArr (l : list json)
| JObj (fields : list (string * json)).

Module JSON.

(** QuoteJSONString: the escapes [JSON.stringify] applies to a string. *)
Definition escape_char (c : ascii) : list ascii :=
  let n := Str.code c in
  if (n =? 34)%nat then [Str.backslash; Str.dquote]
  else if (n =? 92)%nat then [Str.backslash; Str.backslash]
  else if (n =? 8)%nat then [Str.backslash; "b"%char]
  else if (n =? 12)%nat then [Str.backslash; "f"%char]
  else if (n =? 10)%nat then [Str.backslash; "n"%char]
  else if (n =? 13)%nat then [Str.backslash; "r"%char]
  else if (n =? 9)%nat then [Str.backslash; "t"%char]
  else if (n <? 32)%nat then
    [Str.backslash; "u"%char; "0"%char; "0"%char;
     Str.hex_digit (Z.of_nat (n / 16)); Str.hex_digit (Z.of_nat (n mod 16))]
  else [c].

Fixpoint escape (l : list ascii) : list ascii :=
  match l with
  | [] => []
  | c :: r => escape_char c ++ escape r
  end.

Definition quote_chars (s : string) : list ascii :=
  Str.dquote :: escape (Str.to_list s) ++ [Str.dquote].

Definition quote (s : string) : string := Str.of_list (quote_chars s).

(** [JSON.stringify] of a value without [undefined].  A number is printed
    in decimal digits, as the engine prints the integers it holds exactly
    (below 2^53 in magnitude). *)
Fixpoint stringify (v : json) : string :=
  match v with
  | JNull => "null"
  | JBool true => "true"
  | JBool false => "false"
  | JNum n => Str.of_Z n
  | JStr s => quote s
  | JArr l => "[" ++ String.concat "," (map stringify l) ++ "]"
  | JObj fs =>
      "{" ++ String.concat ","
               (map (fun kv => match kv with
                               | (k, x) => quote k ++ ":" ++ stringify x
                               end) fs) ++ "}"
  end.

(** The values whose print is the engine's, digit for digit: every number
    is an integer the engine holds exactly (below 2^53 in magnitude), and
    the keys of every object are distinct and do not start with a digit
    (the engine lists the keys that are array indices first, whatever the
    order they were added in). *)
Fixpoint distinct (l : list string) : bool :=
  match l with
  | [] => true
  | k :: r => andb (negb (existsb (String.eqb k) r)) (distinct r)
  end.

Definition plain_key (k : string) : bool :=
  match k with
  | String c _ =>
      match Str.digit_val c with Some _ => false | None => true end
  | EmptyString => true
  end.

Fixpoint plain_value (v : json) : bool :=
  match v with
  | JNum n => Z.abs n <? 9007199254740992
  | JArr l => forallb plain_value l
  | JObj fs =>
      andb (distinct (map fst fs))
           (forallb (fun kv => andb (plain_key (fst kv)) (plain_value (snd kv)))
                    fs)
  | _ => true
  end.

(** *** Parsing *)

Definition is_ws (c : ascii) : bool :=
  let n := Str.code c in
  orb (orb (n =? 32)%nat (n =? 9)%nat) (orb (n =? 10)%nat (n =? 13)%nat).

Fixpoint skip_ws (l : list ascii) : list ascii :=
  match l with
  | c :: r => if is_ws c then skip_ws r else l
  | [] => []
  end.

(** UTF-8 bytes of a code point of the basic plane. *)
Definition utf8 (cp : Z) : list ascii :=
  if cp <? 128 then [Str.chr (Z.to_nat cp)]
  else if cp <? 2048 then
    [Str.chr (Z.to_nat (192 + cp / 64)); Str.chr (Z.to_nat (128 + cp mod 64))]
  else
    [Str.chr (Z.to_nat (224 + cp / 4096));
     Str.chr (Z.to_nat (128 + (cp / 64) mod 64));
     Str.chr (Z.to_nat (128 + cp mod 64))].

Definition hex4 (a b c d : ascii) : option Z :=
  match Str.hex_val a, Str.hex_val b, Str.hex_val c, Str.hex_val d with
  | Some x, Some y, Some z, Some w => Some (((x * 16 + y) * 16 + z) * 16 + w)
  | _, _, _, _ => None
  end.

(** The characters of a string literal after its opening quote. *)
Fixpoint parse_string_body (l : list ascii) (acc : list ascii)
  : option (string * list ascii) :=
  match l with
  | [] => None
  | c :: r =>
      let n := Str.code c in
      if (n =? 34)%nat then Some (Str.of_list (rev acc), r)
      else if (n <? 32)%nat then None
      else if (n =? 92)%nat then
        match r with
        | e :: r' =>
            let m := Str.code e in
            if (m =? 34)%nat then parse_string_body r' (Str.dquote :: acc)
            else if (m =? 92)%nat then parse_string_body r' (Str.backslash :: acc)
            else if (m =? 47)%nat then parse_string_body r' ("/"%char :: acc)
            else if (m =? 98)%nat then parse_string_body r' (Str.chr 8 :: acc)
            else if (m =? 102)%nat then parse_string_body r' (Str.chr 12 :: acc)
            else if (m =? 110)%nat then parse_string_body r' (Str.chr 10 :: acc)
            else if (m =? 114)%nat then parse_string_body r' (Str.chr 13 :: acc)
            else if (m =? 116)%nat then parse_string_body r' (Str.chr 9 :: acc)
            else if (m =? 117)%nat then
              match r' with
              | h1 :: h2 :: h3 :: h4 :: r'' =>
                  match hex4 h1 h2 h3 h4 with
                  | Some cp => parse_string_body r'' (rev (utf8 cp) ++ acc)
                  | None => None
                  end
              | _ => None
              end
            else None
        | [] => None
        end
      else parse_string_body r (c :: acc)
  end.

Fixpoint parse_digits (l : list ascii) (acc : Z) : Z * list ascii :=
  match l with
  | c :: r =>
      match Str.digit_val c with
      | Some d => parse_digits r (acc * 10 + d)
      | None => (acc, l)
      end
  | [] => (acc, [])
  end.

(** An integer literal: an optional minus sign, then a single zero or a
    non-zero digit followed by digits; a fraction or an exponent after it is
    outside the model. *)
Definition parse_int (l : list ascii) : option (Z * list ascii) :=
  let '(neg, l1) :=
    match l with
    | c :: r => if (Str.code c =? 45)%nat then (true, r) else (false, l)
    | [] => (false, l)
    end in
  match l1 with
  | c :: r =>
      match Str.digit_val c with
      | Some d =>
          let '(n, rest) := if d =? 0 then (0, r) else parse_digits r d in
          match rest with
          | x :: _ =>
              let m := Str.code x in
              if orb (m =? 46)%nat (orb (m =? 101)%nat (m =? 69)%nat)
              then None
              else Some (if neg then - n else n, rest)
          | [] => Some (if neg then - n else n, rest)
          end
      | None => None
      end
  | [] => None
  end.

Fixpoint strip_prefix (p l : list ascii) : option (list ascii) :=
  match p, l with
  | [], _ => Some l
  | a :: p', b :: l' => if Ascii.eqb a b then strip_prefix p' l' else None
  | _ :: _, [] => None
  end.

Fixpoint parse_value (fuel : nat) (l : list ascii) {struct fuel}
  : option (json * list ascii) :=
  match fuel with
  | O => None
  | S fuel' =>
      match skip_ws l with
      | [] => None
      | c :: r =>
          let n := Str.code c in
          if (n =? 123)%nat then
            match skip_ws r with
            | c' :: r' =>
                if (Str.code c' =? 125)%nat then Some (JObj [], r')
                else parse_members fuel' (c' :: r') []
            | [] => None
            end
          else if (n =? 91)%nat then
            match skip_ws r with
            | c' :: r' =>
                if (Str.code c' =? 93)%nat then Some (JArr [], r')
                else parse_elements fuel' (c' :: r') []
            | [] => None
            end
          else if (n =? 34)%nat then
            match parse_string_body r [] with
            | Some (s, r') => Some (JStr s, r')
            | None => None
            end
          else if (n =? 116)%nat then
            option_map (fun r' => (JBool true, r'))
                       (strip_prefix (Str.to_list "rue") r)
          else if (n =? 102)%nat then
            option_map (fun r' => (JBool false, r'))
                       (strip_prefix (Str.to_list "alse") r)
          else if (n =? 110)%nat then
            option_map (fun r' => (JNull, r'))
                       (strip_prefix (Str.to_list "ull") r)
          else
            match parse_int (c :: r) with
            | Some (z, r') => Some (JNum z, r')
            | None => None
            end
      end
  end

with parse_members (fuel : nat) (l : list ascii) (acc : list (string * json))
  {struct fuel} : option (json * list ascii) :=
  match fuel with
  | O => None
  | S fuel' =>
      match skip_ws l with
      | q :: r =>
          if (Str.code q =? 34)%nat then
            match parse_string_body r [] with
            | Some (k, r1) =>
                match skip_ws r1 with
                | colon :: r2 =>
                    if (Str.code colon =? 58)%nat then
                      match parse_value fuel' r2 with
                      | Some (v, r3) =>
                          match skip_ws r3 with
                          | d :: r4 =>
                              if (Str.code d =? 44)%nat
                              then parse_members fuel' r4 ((k, v) :: acc)
                              else if (Str.code d =? 125)%nat
                              then Some (JObj (rev ((k, v) :: acc)), r4)
                              else None
                          | [] => None
                          end
                      | None => None
                      end
                    else None
                | [] => None
                end
            | None => None
            end
          else None
      | [] => None
      end
  end

with parse_elements (fuel : nat) (l : list ascii) (acc : list json)
  {struct fuel} : option (json * list ascii) :=
  match fuel with
  | O => None
  | S fuel' =>
      match parse_value fuel' l with
      | Some (v, r) =>
          match skip_ws r with
          | d :: r' =>
              if (Str.code d =? 44)%nat
              then parse_elements fuel' r' (v :: acc)
              else if (Str.code d =? 93)%nat
              then Some (JArr (rev (v :: acc)), r')
              else None
          | [] => None
          end
      | None => None
      end
  end.

(** [JSON.parse].  Every call of the parser consumes a character, so twice
    the length is enough fuel.  [None] stands for the SyntaxError it throws,
    and also for a text with a number that has a fraction or an exponent,
    which the engine reads and [json] cannot hold: [plain_numbers] below
    tells the texts without such a number, on which [None] is the
    SyntaxError. *)
Definition parse (s : string) : option json :=
  let l := Str.to_list s in
  match parse_value (2 * List.length l + 2) l with
  | Some (v, rest) =>
      match skip_ws rest with
      | [] => Some v
      | _ :: _ => None
      end
  | None => None
  end.

(** No digit of the text is followed by [.], [e] or [E]: the text has no
    number with a fraction or an exponent. *)
Fixpoint plain_numbers_chars (l : list ascii) : bool :=
  match l with
  | c :: r =>
      match Str.digit_val c, r with
      | Some _, d :: _ =>
          let m := Str.code d in
          if orb (m =? 46)%nat (orb (m =? 101)%nat (m =? 69)%nat) then false
          else plain_numbers_chars r
      | _, _ => plain_numbers_chars r
      end
  | [] => true
  end.

Definition plain_numbers (s : string) : bool :=
  plain_numbers_chars (Str.to_list s).

End JSON.

(* ================================================================== *)
(** ** JavaScript values: truthiness, [||], [??], [toString], binding *)

Module JS.

Definition truthy (v : option json) : bool :=
  match v with
  | None => false
  | Some JNull => false
  | Some (JBool b) => b
  | Some (JNum n) => negb (n =? 0)
  | Some (JStr s) => negb (Str.is_empty s)
  | Some (JArr _) => true
  | Some (JObj _) => true
  end.

(** [a || b] *)
Definition or_else (a : option json) (b : json) : json :=
  match a with
  | Some v => if truthy a then v else b
  | None => b
  end.

(** [a ?? b] *)
Definition nullish (a : option json) (b : json) : json :=
  match a with
  | None => b
  | Some JNull => b
  | Some v => v
  end.

(** [s || t] on strings, [s] possibly undefined. *)
Definition str_or (a : option string) (b : string) : string :=
  match a with
  | Some s => if Str.is_empty s then b else s
  | None => b
  end.

Fixpoint lookup (k : string) (fs : list (string * json)) : option json :=
  match fs with
  | [] => None
  | (k', v) :: r =>
      match lookup k r with
      | Some x => Some x
      | None => if String.eqb k k' then Some v else None
      end
  end.

(** Own property [k] of a parsed payload ([None]: undefined).  A later
    duplicate key overrides an earlier one; values that are not objects have
    none of the properties the engine reads.  Reading a property of [null]
    throws, which the callers handle before using [get]. *)
Definition get (data : json) (k : string) : option json :=
  match data with
  | JObj fs => lookup k fs
  | _ => None
  end.

Fixpoint toString (v : json) : string :=
  match v with
  | JNull => "null"
  | JBool true => "true"
  | JBool false => "false"
  | JNum n => Str.of_Z n
  | JStr s => s
  | JArr l =>
      String.concat ","
        (map (fun x => match x with
                       | JNull => EmptyString
                       | _ => toString x
                       end) l)
  | JObj _ => "[object Object]"
  end.

(** The value node-sqlite3 binds for a statement parameter
    ([Statement::BindParameter]): undefined and null become NULL, booleans 1
    or 0, strings and numbers themselves, and every other object, arrays
    included, the text [[object Object]].

    A row of the model keeps the bound value.  SQLite then applies the
    affinity of the column (a number bound to a TEXT column is stored as its
    text, a text that spells an integer bound to an INTEGER column as that
    integer); this conversion is not modelled, and the properties of the
    written rows below are stated for values of the type of their column. *)
Definition bind (v : option json) : json :=
  match v with
  | None => JNull
  | Some (JBool b) => JNum (if b then 1 else 0)
  | Some (JArr _) => JStr "[object Object]"
  | Some (JObj _) => JStr "[object Object]"
  | Some x => x
  end.

End JS.

(* ================================================================== *)
(** ** Dates

    [Date.parse] on the ISO format [YYYY-MM-DDTHH:mm:ss.sssZ] (what
    [toISOString] prints), with the milliseconds optional, and on the
    date-only form [YYYY-MM-DD], both with a day that exists.  The engine
    reads more (zone offsets, shorter fractions, [T24:00], days past the end
    of a month, and whatever its fallback heuristics accept); for all those
    strings [parse] answers [None] like for an invalid date.  Hence [Some]
    is the time the engine computes, whereas [None] does not tell whether
    the engine reads the string: a property of the code is drawn only from
    dates that [parse] reads. *)

Module JSDate.

Fixpoint take_digits (n : nat) (l : list ascii) (acc : Z)
  : option (Z * list ascii) :=
  match n with
  | O => Some (acc, l)
  | S n' =>
      match l with
      | c :: r =>
          match Str.digit_val c with
          | Some d => take_digits n' r (acc * 10 + d)
          | None => None
          end
      | [] => None
      end
  end.

Definition expect (c : ascii) (l : list ascii) : option (list ascii) :=
  match l with
  | x :: r => if Ascii.eqb x c then Some r else None
  | [] => None
  end.

Definition is_leap (y : Z) : bool :=
  andb (y mod 4 =? 0) (orb (negb (y mod 100 =? 0)) (y mod 400 =? 0)).

Definition days_in_month (y m : Z) : Z :=
  if m =? 2 then (if is_leap y then 29 else 28)
  else if orb (orb (m =? 4) (m =? 6)) (orb (m =? 9) (m =? 11)) then 30
  else 31.

(** Days from 1970-01-01 to the civil date [y-m-d]. *)
Definition days_from_civil (y m d : Z) : Z :=
  let y' := if m <=? 2 then y - 1 else y in
  let era := y' / 400 in
  let yoe := y' - era * 400 in
  let mp := if m >? 2 then m - 3 else m + 9 in
  let doy := (153 * mp + 2) / 5 + d - 1 in
  let doe := yoe * 365 + yoe / 4 - yoe / 100 + doy in
  era * 146097 + doe - 719468.

Definition make_time (y mo d h mi s ms : Z) : option Z :=
  if andb (andb (andb (1 <=? mo) (mo <=? 12))
                (andb (1 <=? d) (d <=? days_in_month y mo)))
          (andb (h <=? 23) (andb (mi <=? 59) (s <=? 59)))
  then Some ((((days_from_civil y mo d * 24 + h) * 60 + mi) * 60 + s) * 1000 + ms)
  else None.

Definition obind {A B} (o : option A) (f : A -> option B) : option B :=
  match o with Some a => f a | None => None end.

Definition parse_time (l : list ascii) (y mo d : Z) : option Z :=
  obind (expect "T"%char l) (fun l =>
  obind (take_digits 2 l 0) (fun '(h, l) =>
  obind (expect ":"%char l) (fun l =>
  obind (take_digits 2 l 0) (fun '(mi, l) =>
  obind (expect ":"%char l) (fun l =>
  obind (take_digits 2 l 0) (fun '(s, l) =>
  match l with
  | [z] => if Ascii.eqb z "Z"%char then make_time y mo d h mi s 0 else None
  | dot :: l' =>
      if Ascii.eqb dot "."%char then
        obind (take_digits 3 l' 0) (fun '(ms, l'') =>
        match l'' with
        | [z] => if Ascii.eqb z "Z"%char then make_time y mo d h mi s ms
                 else None
        | _ => None
        end)
      else None
  | [] => None
  end)))))).

Definition parse (s : string) : option Z :=
  obind (take_digits 4 (Str.to_list s) 0) (fun '(y, l) =>
  obind (expect "-"%char l) (fun l =>
  obind (take_digits 2 l 0) (fun '(mo, l) =>
  obind (expect "-"%char l) (fun l =>
  obind (take_digits 2 l 0) (fun '(d, l) =>
  match l with
  | [] => make_time y mo d 0 0 0 0
  | _ :: _ => parse_time l y mo d
  end))))).

(** [new Date(v).getTime()]; [None] is NaN, or a string outside the forms
    [parse] reads. *)
Definition getTime (v : option json) : option Z :=
  match v with
  | None => None
  | Some JNull => Some 0
  | Some (JBool b) => Some (if b then 1 else 0)
  | Some (JNum n) =>
      if Z.abs n <=? 8640000000000000 then Some n else None
  | Some (JStr s) => parse s
  | Some (JArr l) => parse (JS.toString (JArr l))
  | Some (JObj fs) => parse (JS.toString (JObj fs))
  end.

End JSDate.

(* ================================================================== *)
(** ** MD5 (RFC 1321), as [crypto.createHash('md5')] computes it *)

Module MD5.

Definition w32 : Z := 4294967296.

Definition add32 (a b : Z) : Z := (a + b) mod w32.
Definition not32 (a : Z) : Z := Z.lxor a 4294967295.
Definition rotl32 (x n : Z) : Z :=
  Z.lor (Z.shiftl x n mod w32) (Z.shiftr x (32 - n)).

Definition K : list Z :=
  [3614090360; 3905402710; 606105819; 3250441966; 4118548399; 1200080426;
   2821735955; 4249261313; 1770035416; 2336552879; 4294925233; 2304563134;
   1804603682; 4254626195; 2792965006; 1236535329; 4129170786; 3225465664;
   643717713; 3921069994; 3593408605; 38016083; 3634488961; 3889429448;
   568446438; 3275163606; 4107603335; 1163531501; 2850285829; 4243563512;
   1735328473; 2368359562; 4294588738; 2272392833; 1839030562; 4259657740;
   2763975236; 1272893353; 4139469664; 3200236656; 681279174; 3936430074;
   3572445317; 76029189; 3654602809; 3873151461; 530742520; 3299628645;
   4096336452; 1126891415; 2878612391; 4237533241; 1700485571; 2399980690;
   4293915773; 2240044497; 1873313359; 4264355552; 2734768916; 1309151649;
   4149444226; 3174756917; 718787259; 3951481745].

Definition S : list Z :=
  [7; 12; 17; 22; 7; 12; 17; 22; 7; 12; 17; 22; 7; 12; 17; 22;
   5; 9; 14; 20; 5; 9; 14; 20; 5; 9; 14; 20; 5; 9; 14; 20;
   4; 11; 16; 23; 4; 11; 16; 23; 4; 11; 16; 23; 4; 11; 16; 23;
   6; 10; 15; 21; 6; 10; 15; 21; 6; 10; 15; 21; 6; 10; 15; 21].

Record state := mkState { sa : Z; sb : Z; sc : Z; sd : Z }.

Definition init : state :=
  mkState 1732584193 4023233417 2562383102 271733878.

Definition round (m : list Z) (i : nat) (st : state) : state :=
  let '(mkState a b c d) := st in
  let iz := Z.of_nat i in
  let '(f, g) :=
    if iz <? 16 then (Z.lor (Z.land b c) (Z.land (not32 b) d), iz)
    else if iz <? 32 then
      (Z.lor (Z.land d b) (Z.land (not32 d) c), (5 * iz + 1) mod 16)
    else if iz <? 48 then (Z.lxor b (Z.lxor c d), (3 * iz + 5) mod 16)
    else (Z.lxor c (Z.lor b (not32 d)), (7 * iz) mod 16) in
  let f' := add32 (add32 (add32 f a) (nth i K 0)) (nth (Z.to_nat g) m 0) in
  mkState d (add32 b (rotl32 f' (nth i S 0))) b c.

Fixpoint le_words (bytes : list Z) : list Z :=
  match bytes with
  | b0 :: b1 :: b2 :: b3 :: r =>
      (b0 + 256 * (b1 + 256 * (b2 + 256 * b3))) :: le_words r
  | _ => []
  end.

Definition block (st : state) (bytes : list Z) : state :=
  let m := le_words bytes in
  let '(mkState a b c d) := fold_left (fun s i => round m i s) (seq 0 64) st in
  mkState (add32 (sa st) a) (add32 (sb st) b)
          (add32 (sc st) c) (add32 (sd st) d).

Fixpoint le_bytes (n : nat) (x : Z) : list Z :=
  match n with
  | O => []
  | Datatypes.S n' => (x mod 256) :: le_bytes n' (x / 256)
  end.

Definition pad (msg : list Z) : list Z :=
  let len := Z.of_nat (List.length msg) in
  let zeros := Z.to_nat ((55 - len) mod 64) in
  msg ++ [128] ++ repeat 0 zeros ++ le_bytes 8 (8 * len).

Fixpoint blocks (n : nat) (st : state) (bytes : list Z) : state :=
  match n with
  | O => st
  | Datatypes.S n' => blocks n' (block st (firstn 64 bytes)) (skipn 64 bytes)
  end.

Definition digest (msg : list Z) : state :=
  let p := pad msg in
  blocks (List.length p / 64) init p.

Definition hex_byte (b : Z) : list ascii :=
  [Str.hex_digit (b / 16); Str.hex_digit (b mod 16)].

Definition hex_word (w : Z) : list ascii :=
  flat_map hex_byte (le_bytes 4 w).

Definition hex_state (st : state) : string :=
  Str.of_list (hex_word (sa st) ++ hex_word (sb st)
               ++ hex_word (sc st) ++ hex_word (sd st)).

Definition bytes_of (s : string) : list Z :=
  map (fun c => Z.of_nat (Str.code c)) (Str.to_list s).

(** [crypto.createHash('md5').update(s).digest('hex')] *)
Definition hex (s : string) : string := hex_state (digest (bytes_of s)).

End MD5.

(* ================================================================== *)
(** ** Sorting with a comparison function

    Insertion sort: stable, like [Array.prototype.sort] and like the order
    an [ORDER BY] whose key ends in the primary key produces. *)

Section Sort.
Variable A : Type.
Variable cmp : A -> A -> comparison.

Definition leb_of (a b : A) : bool :=
  match cmp a b with Gt => false | _ => true end.

Fixpoint insert_sorted (x : A) (l : list A) : list A :=
  match l with
  | [] => [x]
  | y :: r => if leb_of x y then x :: l else y :: insert_sorted x r
  end.

Fixpoint sort_by (l : list A) : list A :=
  match l with
  | [] => []
  | x :: r => insert_sorted x (sort_by r)
  end.
End Sort.

(** Lexicographic combination of two comparisons. *)
Definition lex (c1 c2 : comparison) : comparison :=
  match c1 with Eq => c2 | _ => c1 end.

(* ================================================================== *)
(** ** The database ([src/db/db.js]) *)

Module Task.
Record t := mk {
  id : string;
  user_id : string;
  title : json;
  description : json;
  completed : json;
  created_at : json;
  updated_at : json;
  is_deleted : json;
  sync_status : string;
  server_id : option string;
  last_synced_at : option string
}.

(** The row after [SET sync_status = ?, last_synced_at = ?, server_id = ?]. *)
Definition with_status (status lastSyncedAt serverId : string) (r : t) : t :=
  mk (id r) (user_id r) (title r) (description r) (completed r)
     (created_at r) (updated_at r) (is_deleted r)
     status (Some serverId) (Some lastSyncedAt).

(** The row after [SET title = ?, description = ?, completed = ?,
    is_deleted = ?, updated_at = ?, sync_status = ?, last_synced_at = ?]. *)
Definition with_merge (title' description' completed' is_deleted' : json)
  (updated_at' status lastSyncedAt : string) (r : t) : t :=
  mk (id r) (user_id r) title' description' completed' (created_at r)
     (JStr updated_at') is_deleted' status (server_id r) (Some lastSyncedAt).
End Task.

Module QueueRow.
Record t := mk {
  id : string;
  user_id : string;
  task_id : string;
  operation : string;
  data : string;
  retry_count : Z;
  error_message : option string;
  created_at : string;
  operation_timestamp : string
}.

(** The row after [SET retry_count = ?, error_message = ?]. *)
Definition with_retry (count : Z) (message : string) (q : t) : t :=
  mk (id q) (user_id q) (task_id q) (operation q) (data q) count
     (Some message) (created_at q) (operation_timestamp q).
End QueueRow.

Module DeadLetter.
Record t := mk {
  id : string;
  user_id : string;
  task_id : string;
  operation : string;
  data : string;
  retry_count : Z;
  error_message : string;
  original_created_at : string;
  failed_at : string
}.
End DeadLetter.

Module SyncLog.
Record t := mk {
  id : string;
  user_id : string;
  change_count : Z;
  processed : Z;
  failed : Z;
  status : string;
  created_at : string
}.
End SyncLog.

(** The state of the process: the four tables, the configured batch size,
    and the two oracles with the number of readings taken so far. *)
Record world := mkWorld {
  tasks : list Task.t;
  sync_queue : list QueueRow.t;
  dead_letter_queue : list DeadLetter.t;
  sync_logs : list SyncLog.t;
  SYNC_BATCH_SIZE : positive;
  clock : nat -> string;
  uuids : nat -> string;
  clock_reads : nat;
  uuid_reads : nat
}.

Definition set_tasks (x : list Task.t) (w : world) : world :=
  mkWorld x (sync_queue w) (dead_letter_queue w) (sync_logs w)
          (SYNC_BATCH_SIZE w) (clock w) (uuids w) (clock_reads w) (uuid_reads w).

Definition set_sync_queue (x : list QueueRow.t) (w : world) : world :=
  mkWorld (tasks w) x (dead_letter_queue w) (sync_logs w)
          (SYNC_BATCH_SIZE w) (clock w) (uuids w) (clock_reads w) (uuid_reads w).

Definition set_dead_letter_queue (x : list DeadLetter.t) (w : world) : world :=
  mkWorld (tasks w) (sync_queue w) x (sync_logs w)
          (SYNC_BATCH_SIZE w) (clock w) (uuids w) (clock_reads w) (uuid_reads w).

Definition set_sync_logs (x : list SyncLog.t) (w : world) : world :=
  mkWorld (tasks w) (sync_queue w) (dead_letter_queue w) x
          (SYNC_BATCH_SIZE w) (clock w) (uuids w) (clock_reads w) (uuid_reads w).

(** *** Computations: state passing with exceptions

    A thrown exception keeps the writes made before it: the engine uses no
    transaction. *)

Inductive outcome (A : Type) : Type :=
| Ok (a : A)
| Throw (message : string).
Arguments Ok {A} a.
Arguments Throw {A} message.

Definition M (A : Type) : Type := world -> outcome A * world.

Definition ret {A} (a : A) : M A := fun w => (Ok a, w).

Definition bind {A B} (m : M A) (f : A -> M B) : M B :=
  fun w =>
    match m w with
    | (Ok a, w') => f a w'
    | (Throw e, w') => (Throw e, w')
    end.

Definition throw {A} (message : string) : M A := fun w => (Throw message, w).

(** [try { m } catch (err) { ... }]: the outcome of [m] as a value. *)
Definition try {A} (m : M A) : M (outcome A) :=
  fun w => let (r, w') := m w in (Ok r, w').

Definition modify (f : world -> world) : M unit := fun w => (Ok tt, f w).

Declare Scope monad_scope.
Delimit Scope monad_scope with monad.
Notation "x <- m ;; k" := (bind m (fun x => k))
  (at level 61, m at next level, right associativity) : monad_scope.
Notation "m ;;; k" := (bind m (fun _ => k))
  (at level 61, right associativity) : monad_scope.
Open Scope monad_scope.

Fixpoint for_each {A} (l : list A) (body : A -> M unit) : M unit :=
  match l with
  | [] => ret tt
  | a :: r => body a ;;; for_each r body
  end.

Fixpoint fold_M {A S} (body : S -> A -> M S) (l : list A) (s : S) : M S :=
  match l with
  | [] => ret s
  | a :: r => s' <- body s a ;; fold_M body r s'
  end.

(** [new Date().toISOString()] and [uuidv4()] *)
Definition now : M string :=
  fun w => (Ok (clock w (clock_reads w)),
            mkWorld (tasks w) (sync_queue w) (dead_letter_queue w) (sync_logs w)
                    (SYNC_BATCH_SIZE w) (clock w) (uuids w)
                    (S (clock_reads w)) (uuid_reads w)).

Definition uuidv4 : M string :=
  fun w => (Ok (uuids w (uuid_reads w)),
            mkWorld (tasks w) (sync_queue w) (dead_letter_queue w) (sync_logs w)
                    (SYNC_BATCH_SIZE w) (clock w) (uuids w)
                    (clock_reads w) (S (uuid_reads w))).

(** *** The SQL statements the services run *)

Module SQL.

(** [WHERE id = ? AND user_id = ?] on tasks *)
Definition task_matches (taskId userId : string) (t : Task.t) : bool :=
  andb (String.eqb (Task.id t) taskId) (String.eqb (Task.user_id t) userId).

(** [SELECT * FROM tasks WHERE id = ? AND user_id = ?] through [db.get]:
    the first row, if any. *)
Definition select_task (taskId userId : string) : M (option Task.t) :=
  fun w => (Ok (find (task_matches taskId userId) (tasks w)), w).

(** [INSERT INTO tasks (...) VALUES (...)]: [title] is NOT NULL and [id] is
    the primary key. *)
Definition insert_task (t : Task.t) : M unit :=
  fun w =>
    match Task.title t with
    | JNull =>
        (Throw "SQLITE_CONSTRAINT: NOT NULL constraint failed: tasks.title", w)
    | _ =>
        if existsb (fun r => String.eqb (Task.id r) (Task.id t)) (tasks w)
        then (Throw "SQLITE_CONSTRAINT: UNIQUE constraint failed: tasks.id", w)
        else (Ok tt, set_tasks (tasks w ++ [t]) w)
    end.

(** [UPDATE tasks SET title = ?, description = ?, completed = ?,
    is_deleted = ?, updated_at = ?, sync_status = ?, last_synced_at = ?
    WHERE id = ? AND user_id = ?].  The row keeps the bound values (see
    [JS.bind] for the affinity of the columns). *)
Definition update_task_merged
  (title description completed is_deleted : json)
  (updated_at sync_status last_synced_at : string)
  (taskId userId : string) : M unit :=
  modify (fun w =>
    set_tasks
      (map (fun t =>
              if task_matches taskId userId t
              then Task.with_merge title description completed is_deleted
                                   updated_at sync_status last_synced_at t
              else t) (tasks w)) w).

(** [UPDATE tasks SET sync_status = ?, last_synced_at = ?, server_id = ?
    WHERE id = ? AND user_id = ?] *)
Definition update_task_status
  (sync_status last_synced_at server_id taskId userId : string) : M unit :=
  modify (fun w =>
    set_tasks
      (map (fun t =>
              if task_matches taskId userId t
              then Task.with_status sync_status last_synced_at server_id t
              else t) (tasks w)) w).

(** [SELECT * FROM tasks WHERE user_id = ? AND updated_at > ?] *)
Definition select_tasks_updated_after (userId since : string)
  : M (list Task.t) :=
  fun w =>
    (Ok (filter (fun t =>
                   andb (String.eqb (Task.user_id t) userId)
                        (match Task.updated_at t with
                         | JStr u => String.ltb since u
                         | _ => false
                         end)) (tasks w)), w).

(** [INSERT INTO sync_queue (...) VALUES (...)]: [id] is the primary key. *)
Definition insert_queue (r : QueueRow.t) : M unit :=
  fun w =>
    if existsb (fun q => String.eqb (QueueRow.id q) (QueueRow.id r))
               (sync_queue w)
    then (Throw "SQLITE_CONSTRAINT: UNIQUE constraint failed: sync_queue.id", w)
    else (Ok tt, set_sync_queue (sync_queue w ++ [r]) w).

(** [ORDER BY task_id, operation_timestamp, created_at, id] *)
Definition queue_order (a b : QueueRow.t) : comparison :=
  lex (String.compare (QueueRow.task_id a) (QueueRow.task_id b))
 (lex (String.compare (QueueRow.operation_timestamp a)
                      (QueueRow.operation_timestamp b))
 (lex (String.compare (QueueRow.created_at a) (QueueRow.created_at b))
      (String.compare (QueueRow.id a) (QueueRow.id b)))).

Definition owned_by (userId : string) (q : QueueRow.t) : bool :=
  String.eqb (QueueRow.user_id q) userId.

(** [SELECT * FROM sync_queue WHERE user_id = ?
     ORDER BY task_id, operation_timestamp, created_at, id] *)
Definition select_queue_ordered (userId : string) : M (list QueueRow.t) :=
  fun w => (Ok (sort_by queue_order (filter (owned_by userId) (sync_queue w))), w).

(** [SELECT * FROM sync_queue WHERE user_id = ?] *)
Definition select_queue (userId : string) : M (list QueueRow.t) :=
  fun w => (Ok (filter (owned_by userId) (sync_queue w)), w).

(** [WHERE task_id = ? AND user_id = ?] on the queue *)
Definition queue_task_matches (taskId userId : string) (q : QueueRow.t) : bool :=
  andb (String.eqb (QueueRow.task_id q) taskId)
       (String.eqb (QueueRow.user_id q) userId).

(** [WHERE id = ? AND user_id = ?] on the queue *)
Definition queue_id_matches (queueId userId : string) (q : QueueRow.t) : bool :=
  andb (String.eqb (QueueRow.id q) queueId)
       (String.eqb (QueueRow.user_id q) userId).

(** [DELETE FROM sync_queue WHERE task_id = ? AND user_id = ?] *)
Definition delete_queue_by_task (taskId userId : string) : M unit :=
  modify (fun w =>
    set_sync_queue
      (filter (fun q => negb (queue_task_matches taskId userId q))
              (sync_queue w)) w).

(** [DELETE FROM sync_queue WHERE id = ? AND user_id = ?] *)
Definition delete_queue_by_id (queueId userId : string) : M unit :=
  modify (fun w =>
    set_sync_queue
      (filter (fun q => negb (queue_id_matches queueId userId q))
              (sync_queue w)) w).

(** [UPDATE sync_queue SET retry_count = ?, error_message = ?
    WHERE id = ? AND user_id = ?] *)
Definition update_queue_retry
  (retry_count : Z) (error_message queueId userId : string) : M unit :=
  modify (fun w =>
    set_sync_queue
      (map (fun q =>
              if queue_id_matches queueId userId q
              then QueueRow.with_retry retry_count error_message q
              else q) (sync_queue w)) w).

(** [INSERT INTO dead_letter_queue (...) VALUES (...)] *)
Definition insert_dead_letter (d : DeadLetter.t) : M unit :=
  fun w =>
    if existsb (fun x => String.eqb (DeadLetter.id x) (DeadLetter.id d))
               (dead_letter_queue w)
    then (Throw "SQLITE_CONSTRAINT: UNIQUE constraint failed: dead_letter_queue.id", w)
    else (Ok tt, set_dead_letter_queue (dead_letter_queue w ++ [d]) w).

(** [INSERT INTO sync_logs (...) VALUES (...)] *)
Definition insert_sync_log (l : SyncLog.t) : M unit :=
  fun w =>
    if existsb (fun x => String.eqb (SyncLog.id x) (SyncLog.id l)) (sync_logs w)
    then (Throw "SQLITE_CONSTRAINT: UNIQUE constraint failed: sync_logs.id", w)
    else (Ok tt, set_sync_logs (sync_logs w ++ [l]) w).

(** *** The read-only queries

    An [ORDER BY] is modelled by the stable sort [sort_by]; in which order
    SQLite returns rows that compare equal, and the rows of a query without
    [ORDER BY], is left open by SQL, and no property below depends on it. *)

(** The order of stored values: NULL, then numbers, then text.  Rows hold
    bound values only, which are of these three kinds. *)
Definition storage_class (v : json) : Z :=
  match v with
  | JNull => 0
  | JNum _ => 1
  | JStr _ => 2
  | JBool _ | JArr _ | JObj _ => 3
  end.

Definition value_order (a b : json) : comparison :=
  match a, b with
  | JNum x, JNum y => Z.compare x y
  | JStr x, JStr y => String.compare x y
  | _, _ => Z.compare (storage_class a) (storage_class b)
  end.

(** [ORDER BY c DESC] for a column [c] compared by [cmp]. *)
Definition desc {A B} (cmp : B -> B -> comparison) (c : A -> B) (a b : A)
  : comparison := cmp (c b) (c a).

(** [WHERE user_id = ? AND is_deleted = 0] on tasks *)
Definition live_of (userId : string) (t : Task.t) : bool :=
  andb (String.eqb (Task.user_id t) userId)
       (match Task.is_deleted t with JNum 0 => true | _ => false end).

(** [SELECT * FROM tasks WHERE user_id = ? AND is_deleted = 0
     ORDER BY updated_at DESC] *)
Definition select_live_tasks (userId : string) : M (list Task.t) :=
  fun w =>
    (Ok (sort_by (desc value_order Task.updated_at)
                 (filter (live_of userId) (tasks w))), w).

(** [WHERE user_id = ? AND sync_status != 'synced'] on tasks *)
Definition unsynced_of (userId : string) (t : Task.t) : bool :=
  andb (String.eqb (Task.user_id t) userId)
       (negb (String.eqb (Task.sync_status t) "synced")).

(** [SELECT * FROM tasks WHERE user_id = ? AND sync_status != 'synced'] *)
Definition select_unsynced_tasks (userId : string) : M (list Task.t) :=
  fun w => (Ok (filter (unsynced_of userId) (tasks w)), w).

(** [SELECT * FROM dead_letter_queue WHERE user_id = ?
     ORDER BY failed_at DESC] *)
Definition select_dead_letters (userId : string) : M (list DeadLetter.t) :=
  fun w =>
    (Ok (sort_by (desc String.compare DeadLetter.failed_at)
                 (filter (fun d => String.eqb (DeadLetter.user_id d) userId)
                         (dead_letter_queue w))), w).

(** [SELECT * FROM sync_logs WHERE user_id = ?
     ORDER BY created_at DESC LIMIT 5] *)
Definition select_recent_logs (userId : string) : M (list SyncLog.t) :=
  fun w =>
    (Ok (firstn 5
           (sort_by (desc String.compare SyncLog.created_at)
                    (filter (fun l => String.eqb (SyncLog.user_id l) userId)
                            (sync_logs w)))), w).

End SQL.

(* ================================================================== *)
(** ** Task service ([src/services/taskService.js]) *)

Module TaskService.

(** [getTaskByIdIncludingDeleted(id, userId)] *)
Definition getTaskByIdIncludingDeleted (id userId : string)
  : M (option Task.t) :=
  if Str.is_empty id then throw "Task ID is required"
  else if Str.is_empty userId then throw "User ID is required"
  else SQL.select_task id userId.

(** [WHERE id = ? AND user_id = ? AND is_deleted = 0] *)
Definition live_matches (id userId : string) (t : Task.t) : bool :=
  andb (SQL.task_matches id userId t)
       (match Task.is_deleted t with JNum 0 => true | _ => false end).

(** [getTaskById(id, userId)] *)
Definition getTaskById (id userId : string) : M (option Task.t) :=
  if Str.is_empty id then throw "Task ID is required"
  else if Str.is_empty userId then throw "User ID is required"
  else fun w => (Ok (find (live_matches id userId) (tasks w)), w).

(** [addToSyncQueue(taskId, operation, data, userId, operationTimestamp)] of
    the task service, which the create, update and delete operations call. *)
Definition addToSyncQueue
  (taskId operation : string) (data : option json) (userId : string)
  (operationTimestamp : option string) : M string :=
  if Str.is_empty taskId then throw "Task ID is required"
  else if Str.is_empty operation then throw "Operation is required"
  else if Str.is_empty userId then throw "User ID is required"
  else
    id <- uuidv4 ;;
    created_at <- now ;;
    let operation_timestamp := JS.str_or operationTimestamp created_at in
    SQL.insert_queue
      (QueueRow.mk id userId taskId operation
                   (JSON.stringify (JS.or_else data (JObj [])))
                   0 None created_at operation_timestamp) ;;;
    ret id.

(** [createTask({ title, description = '', completed = false }, userId)];
    the row returned is the one stored. *)
Definition createTask (title description completed : option json)
  (userId : string) : M Task.t :=
  if Str.is_empty userId then throw "User ID is required"
  else if negb (JS.truthy title) then throw "Title is required"
  else
    id <- uuidv4 ;;
    now_ <- now ;;
    let title_ := match title with Some v => v | None => JNull end in
    let description_ :=
      JS.or_else (match description with
                  | Some v => Some v
                  | None => Some (JStr EmptyString)
                  end) (JStr EmptyString) in
    let completed_ :=
      JS.truthy (match completed with
                 | Some v => Some v
                 | None => Some (JBool false)
                 end) in
    let task :=
      Task.mk id userId (JS.bind (Some title_)) (JS.bind (Some description_))
              (JNum (if completed_ then 1 else 0)) (JStr now_) (JStr now_)
              (JNum 0) "pending" None None in
    SQL.insert_task task ;;;
    addToSyncQueue id "create"
      (Some (JObj [("title", title_);
                   ("description", description_);
                   ("completed", JBool completed_);
                   ("created_at", JStr now_);
                   ("updated_at", JStr now_)]))
      userId (Some now_) ;;;
    ret task.

(** [updateTask(id, updates, userId)] *)
Definition updateTask (id : string) (updates : json) (userId : string)
  : M (option Task.t) :=
  if Str.is_empty id then throw "Task ID is required"
  else if Str.is_empty userId then throw "User ID is required"
  else
    match updates with
    | JObj _ | JArr _ =>
        existing <- getTaskById id userId ;;
        match existing with
        | None => ret None
        | Some existing =>
            now_ <- now ;;
            let newTitle :=
              match JS.get updates "title" with
              | Some v => v | None => Task.title existing end in
            let newDescription :=
              match JS.get updates "description" with
              | Some v => v | None => Task.description existing end in
            let newCompleted :=
              match JS.get updates "completed" with
              | Some v => JNum (if JS.truthy (Some v) then 1 else 0)
              | None => Task.completed existing end in
            (* the UPDATE changes the row just read: [title] is NOT NULL *)
            match JS.bind (Some newTitle) with
            | JNull =>
                throw "SQLITE_CONSTRAINT: NOT NULL constraint failed: tasks.title"
            | _ =>
                modify (fun w =>
                  set_tasks
                    (map (fun t =>
                            if live_matches id userId t
                            then Task.mk (Task.id t) (Task.user_id t)
                                   (JS.bind (Some newTitle))
                                   (JS.bind (Some newDescription)) newCompleted
                                   (Task.created_at t) (JStr now_)
                                   (Task.is_deleted t) "pending"
                                   (Task.server_id t) (Task.last_synced_at t)
                            else t) (tasks w)) w)
            end ;;;
            addToSyncQueue id "update"
              (Some (JObj [("title", newTitle);
                           ("description", newDescription);
                           ("completed", JBool (JS.truthy (Some newCompleted)));
                           ("updated_at", JStr now_)]))
              userId (Some now_) ;;;
            getTaskById id userId
        end
    | _ => throw "Updates are required"
    end.

(** [deleteTask(id, userId)]: a soft delete. *)
Definition deleteTask (id userId : string) : M bool :=
  if Str.is_empty id then throw "Task ID is required"
  else if Str.is_empty userId then throw "User ID is required"
  else
    existing <- getTaskById id userId ;;
    match existing with
    | None => ret false
    | Some _ =>
        now_ <- now ;;
        modify (fun w =>
          set_tasks
            (map (fun t =>
                    if SQL.task_matches id userId t
                    then Task.mk (Task.id t) (Task.user_id t) (Task.title t)
                           (Task.description t) (Task.completed t)
                           (Task.created_at t) (JStr now_) (JNum 1) "pending"
                           (Task.server_id t) (Task.last_synced_at t)
                    else t) (tasks w)) w) ;;;
        addToSyncQueue id "delete" (Some (JObj [("updated_at", JStr now_)]))
                       userId (Some now_) ;;;
        ret true
    end.

(** [getAllTasks(userId)] *)
Definition getAllTasks (userId : string) : M (list Task.t) :=
  if Str.is_empty userId then throw "User ID is required"
  else SQL.select_live_tasks userId.

(** [getTasksNeedingSync(userId)] *)
Definition getTasksNeedingSync (userId : string) : M (list Task.t) :=
  if Str.is_empty userId then throw "User ID is required"
  else SQL.select_unsynced_tasks userId.

End TaskService.

(* ================================================================== *)
(** ** Sync service ([src/services/syncService.js]) *)

Module SyncService.

Definition MAX_RETRIES : Z := 3.

(** [CONFLICT_PRIORITY = { 'delete': 3, 'update': 2, 'create': 1 }];
    [None] is the undefined of a missing key. *)
Definition CONFLICT_PRIORITY (operation : string) : option Z :=
  if String.eqb operation "delete" then Some 3
  else if String.eqb operation "update" then Some 2
  else if String.eqb operation "create" then Some 1
  else None.

Definition SYNC_STATES : list string :=
  ["pending"; "in-progress"; "synced"; "error"; "failed"].

(** *** Batch checksum *)

(** The object [{ id, task_id, operation, data }] built for each item. *)
Module Entry.
Record t := mk {
  id : string;
  task_id : string;
  operation : string;
  data : string
}.
Definition of_row (item : QueueRow.t) : t :=
  mk (QueueRow.id item) (QueueRow.task_id item) (QueueRow.operation item)
     (QueueRow.data item).
Definition to_json (e : t) : json :=
  JObj [("id", JStr (id e)); ("task_id", JStr (task_id e));
        ("operation", JStr (operation e)); ("data", JStr (data e))].
(** [a.id.localeCompare(b.id)], as the order of code units.  The engine
    collates by locale; on the identifiers [uuidv4] makes ([Str.is_uuid]) the
    two orders agree, and properties of the sorted batch are stated for
    those. *)
Definition localeCompare (a b : t) : comparison :=
  String.compare (id a) (id b).
End Entry.

Definition sortedItems (items : list QueueRow.t) : list Entry.t :=
  sort_by Entry.localeCompare (map Entry.of_row items).

Definition content (items : list QueueRow.t) : string :=
  JSON.stringify (JArr (map Entry.to_json (sortedItems items))).

Definition generateBatchChecksum (items : list QueueRow.t) : string :=
  MD5.hex (content items).

Definition verifyBatchChecksum
  (items : list QueueRow.t) (expectedChecksum : string) : bool :=
  String.eqb (generateBatchChecksum items) expectedChecksum.

(** *** Queue *)

Definition safeParseJSON (s : string) : json :=
  match JSON.parse s with
  | Some v => v
  | None => JObj []
  end.

Definition addToSyncQueue
  (taskId operation : string) (data : option json) (userId : string)
  (operationTimestamp : option string) : M unit :=
  queueId <- uuidv4 ;;
  created_at <- now ;;
  let operation_timestamp := JS.str_or operationTimestamp created_at in
  let serializedData := JSON.stringify (JS.or_else data (JObj [])) in
  SQL.insert_queue
    (QueueRow.mk queueId userId taskId operation serializedData 0 None
                 created_at operation_timestamp).

(** *** Conflict resolution *)

Inductive side : Type := Local | Server.

(** [resolveConflict(localTask, serverTask, localOperation)].  Of the two
    task objects only [updated_at] is read (and [id], for the log line); the
    result tells which of the two arguments is returned. *)
Definition resolveConflict
  (localTask_updated_at serverTask_updated_at : option json)
  (localOperation : string) : side :=
  let localUpdated := JSDate.getTime localTask_updated_at in
  let serverUpdated := JSDate.getTime serverTask_updated_at in
  match localUpdated, serverUpdated with
  | Some l, Some s =>
      if l =? s then
        let localPriority :=
          match CONFLICT_PRIORITY localOperation with
          | Some p => if p =? 0 then 1 else p
          | None => 1
          end in
        match CONFLICT_PRIORITY "update" with
        | Some serverPriority =>
            if localPriority >=? serverPriority then Local else Server
        | None => Server
        end
      else if l >=? s then Local else Server
  | _, _ => Server
  end.

(** *** Applying one item *)

Record mapping := mkMapping { m_local_id : string; m_server_id : string }.
Record conflict := mkConflict { c_local_id : string; c_server_task : Task.t }.

Inductive server_data : Type :=
| TaskData (taskData : Task.t)
| MergedTask (title description completed is_deleted : json)
             (updated_at sync_status last_synced_at : string).

Record item_result := mkResult {
  r_mapping : option mapping;
  r_conflict : option conflict;
  r_serverData : option server_data
}.

(** [(serverData || {}).server_id] *)
Definition serverData_server_id (d : option server_data) : option string :=
  match d with
  | Some (TaskData t) => Task.server_id t
  | _ => None
  end.

(** [data.k]: a TypeError when [data] is null. *)
Definition prop (data : json) (k : string) : M (option json) :=
  match data with
  | JNull => throw ("Cannot read properties of null (reading '" ++ k ++ "')")
  | _ => ret (JS.get data k)
  end.

Definition updateSyncStatus
  (taskId status userId : string) (serverData : option server_data) : M unit :=
  now_ <- now ;;
  let syncStatus := status in
  let serverId := JS.str_or (serverData_server_id serverData) taskId in
  let lastSyncedAt := now_ in
  SQL.update_task_status syncStatus lastSyncedAt serverId taskId userId ;;;
  if String.eqb status "synced"
  then SQL.delete_queue_by_task taskId userId
  else ret tt.

(** The branch [item.operation === 'create'] of [processItem]. *)
Definition processItem_create
  (item : QueueRow.t) (data : json) (userId now_ : string) : M item_result :=
  id <- uuidv4 ;;
  title <- prop data "title" ;;
  description <- prop data "description" ;;
  completed <- prop data "completed" ;;
  created_at <- prop data "created_at" ;;
  updated_at <- prop data "updated_at" ;;
  let taskData :=
    Task.mk id userId (JS.bind title)
            (JS.bind (Some (JS.or_else description (JStr EmptyString))))
            (JNum (if JS.truthy completed then 1 else 0))
            (JS.bind (Some (JS.or_else created_at (JStr now_))))
            (JS.bind (Some (JS.or_else updated_at (JStr now_))))
            (JNum 0) "synced" (Some id) (Some now_) in
  SQL.insert_task taskData ;;;
  ret (mkResult (Some (mkMapping (QueueRow.task_id item) id)) None
                (Some (TaskData taskData))).

(** [processItem(item, data, userId)].  The recursive call on
    [{ ...item, operation: 'create' }] is written out: it reads the clock
    again and runs the create branch. *)
Definition processItem (item : QueueRow.t) (data : json) (userId : string)
  : M item_result :=
  now_ <- now ;;
  let operation := QueueRow.operation item in
  if String.eqb operation "create" then
    processItem_create item data userId now_
  else if orb (String.eqb operation "update") (String.eqb operation "delete")
  then
    serverTask <- TaskService.getTaskByIdIncludingDeleted
                    (QueueRow.task_id item) userId ;;
    match serverTask with
    | None =>
        if String.eqb operation "delete" then ret (mkResult None None None)
        else
          now2 <- now ;;
          processItem_create item data userId now2
    | Some serverTask =>
        let localTask_updated_at :=
          match JS.get data "updated_at" with
          | Some v => Some v
          | None => Some (Task.updated_at serverTask)
          end in
        match resolveConflict localTask_updated_at
                              (Some (Task.updated_at serverTask)) operation with
        | Server =>
            ret (mkResult None
                   (Some (mkConflict (QueueRow.task_id item) serverTask)) None)
        | Local =>
            title <- prop data "title" ;;
            description <- prop data "description" ;;
            completed <- prop data "completed" ;;
            is_deleted <- prop data "is_deleted" ;;
            let m_title := JS.bind (Some (JS.nullish title (Task.title serverTask))) in
            let m_description :=
              match description with
              | Some v => JS.bind (Some v)
              | None => Task.description serverTask
              end in
            let m_completed :=
              match completed with
              | Some v => JNum (if JS.truthy (Some v) then 1 else 0)
              | None => Task.completed serverTask
              end in
            let m_is_deleted :=
              if String.eqb operation "delete" then JNum 1
              else JS.bind (Some (JS.nullish is_deleted
                                             (Task.is_deleted serverTask))) in
            SQL.update_task_merged m_title m_description m_completed
                                   m_is_deleted now_ "synced" now_
                                   (QueueRow.task_id item) userId ;;;
            ret (mkResult None None
                   (Some (MergedTask m_title m_description m_completed
                                     m_is_deleted now_ "synced" now_)))
        end
    end
  else throw ("Unknown operation: " ++ operation).

(** *** Retry and dead letter *)

Definition handleSyncError
  (item : QueueRow.t) (data : json) (error_message userId : string) : M unit :=
  (* (item.retry_count || 0) + 1: the column is an integer *)
  let retry_count := QueueRow.retry_count item + 1 in
  _ <- try (
    if retry_count >=? MAX_RETRIES then
      deadLetterId <- uuidv4 ;;
      failed_at <- now ;;
      SQL.insert_dead_letter
        (DeadLetter.mk deadLetterId userId (QueueRow.task_id item)
           (QueueRow.operation item)
           (match data with JStr s => s | _ => JSON.stringify data end)
           retry_count error_message (QueueRow.created_at item) failed_at) ;;;
      SQL.delete_queue_by_id (QueueRow.id item) userId ;;;
      updateSyncStatus (QueueRow.task_id item) "failed" userId None
    else
      SQL.update_queue_retry retry_count error_message
                             (QueueRow.id item) userId ;;;
      updateSyncStatus (QueueRow.task_id item) "error" userId None) ;;
  ret tt.

(** *** Batches *)

Record batch_result := mkBatch {
  b_mappings : list mapping;
  b_conflicts : list conflict;
  b_processed : Z;
  b_failed : Z
}.

Definition push {A} (l : list A) (o : option A) : list A :=
  match o with Some a => l ++ [a] | None => l end.

(** One turn of the loop of [processBatch].  In this model only
    [processItem] can throw inside the [try] block: the two statements of
    [updateSyncStatus] have no constraint to violate. *)
Definition processBatch_item (userId : string) (acc : batch_result)
  (raw : QueueRow.t) : M batch_result :=
  let data := safeParseJSON (QueueRow.data raw) in
  r <- try (processItem raw data userId) ;;
  match r with
  | Ok result =>
      updateSyncStatus (QueueRow.task_id raw) "synced" userId
                       (r_serverData result) ;;;
      ret (mkBatch (push (b_mappings acc) (r_mapping result))
                   (push (b_conflicts acc) (r_conflict result))
                   (b_processed acc + 1) (b_failed acc))
  | Throw err =>
      handleSyncError raw data err userId ;;;
      ret (mkBatch (b_mappings acc) (b_conflicts acc)
                   (b_processed acc) (b_failed acc + 1))
  end.

Definition processBatch (items : list QueueRow.t) (userId : string)
  : M batch_result :=
  fold_M (processBatch_item userId) items (mkBatch [] [] 0 0).

(** [for (i = 0; i < queueItems.length; i += size) slice(i, i + size)] *)
Fixpoint slices {A} (fuel size : nat) (l : list A) : list (list A) :=
  match fuel with
  | O => []
  | S fuel' =>
      match l with
      | [] => []
      | _ :: _ => firstn size l :: slices fuel' size (skipn size l)
      end
  end.

Definition make_batches (size : positive) (queueItems : list QueueRow.t)
  : list (list QueueRow.t * string) :=
  map (fun batch => (batch, generateBatchChecksum batch))
      (slices (List.length queueItems) (Pos.to_nat size) queueItems).

(** *** Sync *)

Module Change.
Record t := mk {
  operation : string;
  local_id : string;
  server_id : option string;
  data : option json
}.
End Change.

Record sync_result := mkSync {
  mappings : list mapping;
  conflicts : list conflict;
  serverChanges : list Task.t;
  status : string;
  processed : Z;
  failed : Z
}.

Definition valid_operation (operation : string) : bool :=
  existsb (String.eqb operation) ["create"; "update"; "delete"].

(** The first loop of [sync]: client changes go to the queue. *)
Definition enqueue_changes (changes : list Change.t) (userId : string)
  : M unit :=
  for_each changes (fun change =>
    if negb (valid_operation (Change.operation change))
    then throw ("Invalid operation: " ++ Change.operation change)
    else
      let taskId := JS.str_or (Change.server_id change)
                              (Change.local_id change) in
      addToSyncQueue taskId (Change.operation change) (Change.data change)
                     userId None).

(** One turn of the loop over the batches. *)
Definition sync_batch (userId : string) (acc : batch_result)
  (batchData : list QueueRow.t * string) : M batch_result :=
  let '(batch, checksum) := batchData in
  if negb (verifyBatchChecksum batch checksum) then
    ret (mkBatch (b_mappings acc) (b_conflicts acc) (b_processed acc)
                 (b_failed acc + Z.of_nat (List.length batch)))
  else
    for_each batch (fun item =>
      updateSyncStatus (QueueRow.task_id item) "in-progress" userId None) ;;;
    r <- processBatch batch userId ;;
    ret (mkBatch (b_mappings acc ++ b_mappings r)
                 (b_conflicts acc ++ b_conflicts r)
                 (b_processed acc + b_processed r)
                 (b_failed acc + b_failed r)).

Definition sync (changes : list Change.t) (last_synced_at userId : string)
  (syncId : option string) : M sync_result :=
  enqueue_changes changes userId ;;;
  queueItems <- SQL.select_queue_ordered userId ;;
  size <- (fun w => (Ok (SYNC_BATCH_SIZE w), w)) ;;
  let batches := make_batches size queueItems in
  r <- fold_M (sync_batch userId) batches (mkBatch [] [] 0 0) ;;
  logId <- match syncId with
           | Some s => if Str.is_empty s then uuidv4 else ret s
           | None => uuidv4
           end ;;
  let log_status := if b_failed r >? 0 then "error" else "completed" in
  log_created_at <- now ;;
  _ <- try (SQL.insert_sync_log
              (SyncLog.mk logId userId (Z.of_nat (List.length queueItems))
                          (b_processed r) (b_failed r) log_status
                          log_created_at)) ;;
  serverChanges <- SQL.select_tasks_updated_after userId last_synced_at ;;
  ret (mkSync (b_mappings r) (b_conflicts r) serverChanges log_status
              (b_processed r) (b_failed r)).

(** *** Queries of the sync state *)

(** [getDeadLetterQueue(userId)] *)
Definition getDeadLetterQueue (userId : string) : M (list DeadLetter.t) :=
  SQL.select_dead_letters userId.

(** [startSync(userId, changeCount)]: a fresh identifier, whatever the
    arguments. *)
Definition startSync (userId : string) (changeCount : Z) : M string := uuidv4.

(** The object [{ logs, pending }] of [getSyncStatus]. *)
Record status_report := mkReport {
  s_logs : list SyncLog.t;
  s_pending : Z
}.

(** [getSyncStatus(userId)] *)
Definition getSyncStatus (userId : string) : M status_report :=
  logs <- SQL.select_recent_logs userId ;;
  queueItems <- SQL.select_queue userId ;;
  ret (mkReport logs (Z.of_nat (List.length queueItems))).

End SyncService.

(* ================================================================== *)
(** ** Sync routes ([src/routes/sync.js])

    The handlers behind the [protect] middleware: [userId] is
    [req.user.id], and a reply is the status code with the JSON body. *)

Module SyncRoutes.

Inductive reply (A : Type) : Type :=
| Reply200 (body : A)
| Reply400 (errors : list string)
| Reply500 (error : string).
Arguments Reply200 {A} body.
Arguments Reply400 {A} errors.
Arguments Reply500 {A} error.

(** The middleware [validate(schema)] ([src/middleware/validate.js]).
    [errors] is what [schema.validate(req.body, { abortEarly: false })]
    answers for the body of the request: [None] when it finds no error,
    the messages of [error.details] otherwise.  With an error the reply is
    400 and the handler [next] is not run. *)
Definition validate {A} (errors : option (list string)) (next : M (reply A))
  : M (reply A) :=
  match errors with
  | Some messages => ret (Reply400 messages)
  | None => next
  end.

(** The body [{ ...result, syncId }] *)
Record sync_body := mkSyncBody {
  result : SyncService.sync_result;
  syncId : string
}.

(** [POST /api/sync].  [syncSchema] is the validation of the Joi schema of
    that name, a function of the body [{ changes, last_synced_at }]. *)
Definition post_sync
  (syncSchema : list SyncService.Change.t -> string -> option (list string))
  (changes : list SyncService.Change.t)
  (last_synced_at userId : string) : M (reply sync_body) :=
  validate (syncSchema changes last_synced_at) (
    r <- try (
      syncId <- SyncService.startSync userId (Z.of_nat (List.length changes)) ;;
      result <- SyncService.sync changes last_synced_at userId (Some syncId) ;;
      ret (mkSyncBody result syncId)) ;;
    match r with
    | Ok body => ret (Reply200 body)
    | Throw message => ret (Reply500 message)
    end).

Record status_body := mkStatusBody {
  pending_sync_count : Z;
  last_sync_timestamp : option string;
  is_online : bool;
  sync_queue_size : Z
}.

(** [GET /api/sync/status] *)
Definition get_status (userId : string) : M (reply status_body) :=
  r <- try (SyncService.getSyncStatus userId) ;;
  match r with
  | Ok syncStatus =>
      (* syncStatus.pending || 0 *)
      let queueCount := SyncService.s_pending syncStatus in
      let lastLog :=
        match SyncService.s_logs syncStatus with
        | l :: _ => Some l
        | [] => None
        end in
      ret (Reply200
             (mkStatusBody queueCount (option_map SyncLog.created_at lastLog)
                           true queueCount))
  | Throw message => ret (Reply500 message)
  end.

End SyncRoutes.

(* ================================================================== *)
(** * Definitions used in the statements *)

Import SyncService.

(** ** Orders *)

Class Comparator {A : Type} (cmp : A -> A -> comparison) : Prop := {
  cmp_sym : forall a b, cmp b a = CompOpp (cmp a b);
  cmp_lt_trans : forall a b c, cmp a b = Lt -> cmp b c = Lt -> cmp a c = Lt;
  cmp_eq_l : forall a b c, cmp a b = Eq -> cmp a c = cmp b c
}.

(** [a] is not after [b]. *)
Definition cmp_le {A : Type} (cmp : A -> A -> comparison) (a b : A) : Prop :=
  cmp a b <> Gt.

(** ** Enqueueing *)

(** The world after one reading of each oracle. *)
Definition after_reads (c u : nat) (w : world) : world :=
  mkWorld (tasks w) (sync_queue w) (dead_letter_queue w) (sync_logs w)
          (SYNC_BATCH_SIZE w) (clock w) (uuids w)
          (c + clock_reads w) (u + uuid_reads w).

(** The rows the first loop of sync appends for a list of changes, given the
    oracles and the number of readings already taken. *)
Fixpoint enqueued_rows (userId : string) (uuid clk : nat -> string)
  (u c : nat) (changes : list Change.t) : list QueueRow.t :=
  match changes with
  | [] => []
  | change :: rest =>
      QueueRow.mk (uuid u) userId
                  (JS.str_or (Change.server_id change) (Change.local_id change))
                  (Change.operation change)
                  (JSON.stringify (JS.or_else (Change.data change) (JObj [])))
                  0 None (clk c) (clk c)
      :: enqueued_rows userId uuid clk (S u) (S c) rest
  end.

(** The columns the drain orders by. *)
Definition sort_key (q : QueueRow.t) : string * string * string * string :=
  (QueueRow.task_id q, QueueRow.operation_timestamp q, QueueRow.created_at q,
   QueueRow.id q).

(** A change without its payload. *)
Definition without_data (change : Change.t) : string * string * option string :=
  (Change.operation change, Change.local_id change, Change.server_id change).

(** One row is appended to the queue.  Its enqueue time is the second
    reading of the clock, taken by [addToSyncQueue]; its operation timestamp
    is the first reading, the time the operation of the task service read
    for the change itself ([toISOString] never returns the empty string). *)
Definition enqueued_with_own_time (w w' : world) : Prop :=
  exists q,
    sync_queue w' = (sync_queue w ++ [q])%list
    /\ QueueRow.created_at q = clock w (S (clock_reads w))
    /\ (Str.is_empty (clock w (clock_reads w)) = false ->
        QueueRow.operation_timestamp q = clock w (clock_reads w)).

(** ** Applying one item *)

(** The row the create branch inserts. *)
Definition created_task (data : json) (userId now_ id : string) : Task.t :=
  Task.mk id userId (JS.bind (JS.get data "title"))
    (JS.bind (Some (JS.or_else (JS.get data "description") (JStr EmptyString))))
    (JNum (if JS.truthy (JS.get data "completed") then 1 else 0))
    (JS.bind (Some (JS.or_else (JS.get data "created_at") (JStr now_))))
    (JS.bind (Some (JS.or_else (JS.get data "updated_at") (JStr now_))))
    (JNum 0) "synced" (Some id) (Some now_).

(** [localTask.updated_at], where
    [localTask = { ...serverTask, ...data, id: item.task_id }]. *)
Definition localTask_updated_at (data : json) (serverTask : Task.t)
  : option json :=
  match JS.get data "updated_at" with
  | Some v => Some v
  | None => Some (Task.updated_at serverTask)
  end.

Definition is_update_or_delete (operation : string) : Prop :=
  operation = "update" \/ operation = "delete".

(** The values of [mergedTask]. *)
Definition merged_title (data : json) (s : Task.t) : json :=
  JS.bind (Some (JS.nullish (JS.get data "title") (Task.title s))).

Definition merged_description (data : json) (s : Task.t) : json :=
  match JS.get data "description" with
  | Some v => JS.bind (Some v)
  | None => Task.description s
  end.

Definition merged_completed (data : json) (s : Task.t) : json :=
  match JS.get data "completed" with
  | Some v => JNum (if JS.truthy (Some v) then 1 else 0)
  | None => Task.completed s
  end.

Definition merged_is_deleted (operation : string) (data : json) (s : Task.t)
  : json :=
  if String.eqb operation "delete" then JNum 1
  else JS.bind (Some (JS.nullish (JS.get data "is_deleted") (Task.is_deleted s))).

(** Two rows that agree on everything but the three sync bookkeeping
    columns. *)
Definition same_data (a b : Task.t) : Prop :=
  Task.id a = Task.id b /\ Task.user_id a = Task.user_id b
  /\ Task.title a = Task.title b /\ Task.description a = Task.description b
  /\ Task.completed a = Task.completed b
  /\ Task.created_at a = Task.created_at b
  /\ Task.updated_at a = Task.updated_at b
  /\ Task.is_deleted a = Task.is_deleted b.

(** The row [raw] with another payload text. *)
Definition with_payload (text : string) (raw : QueueRow.t) : QueueRow.t :=
  QueueRow.mk (QueueRow.id raw) (QueueRow.user_id raw) (QueueRow.task_id raw)
              (QueueRow.operation raw) text (QueueRow.retry_count raw)
              (QueueRow.error_message raw) (QueueRow.created_at raw)
              (QueueRow.operation_timestamp raw).

(** ** The canonical serialization *)

(** The characters of the serialization of one entry. *)
Definition entry_chars (e : Entry.t) : list ascii :=
  (Str.to_list "{" ++ JSON.quote_chars "id" ++ Str.to_list ":"
   ++ JSON.quote_chars (Entry.id e)
   ++ Str.to_list "," ++ JSON.quote_chars "task_id" ++ Str.to_list ":"
   ++ JSON.quote_chars (Entry.task_id e)
   ++ Str.to_list "," ++ JSON.quote_chars "operation" ++ Str.to_list ":"
   ++ JSON.quote_chars (Entry.operation e)
   ++ Str.to_list "," ++ JSON.quote_chars "data" ++ Str.to_list ":"
   ++ JSON.quote_chars (Entry.data e)
   ++ Str.to_list "}")%list.

Fixpoint tail_chars (es : list Entry.t) : list ascii :=
  match es with
  | [] => []
  | e :: r => (Str.to_list "," ++ entry_chars e ++ tail_chars r)%list
  end.

Definition join_chars (es : list Entry.t) : list ascii :=
  match es with
  | [] => []
  | e :: r => (entry_chars e ++ tail_chars r)%list
  end.

Definition stringify_entries (es : list Entry.t) : string :=
  JSON.stringify (JArr (map Entry.to_json es)).

(** The batch in which the operation [opId] carries the payload [text]. *)
Definition set_payload (opId text : string) (items : list QueueRow.t)
  : list QueueRow.t :=
  map (fun q => if String.eqb (QueueRow.id q) opId
                then with_payload text q else q) items.

Definition set_entry_data (opId text : string) (e : Entry.t) : Entry.t :=
  if String.eqb (Entry.id e) opId
  then Entry.mk (Entry.id e) (Entry.task_id e) (Entry.operation e) text
  else e.

(** ** The digest as a number *)

Definition bounded (st : MD5.state) : Prop :=
  0 <= MD5.sa st < MD5.w32 /\ 0 <= MD5.sb st < MD5.w32
  /\ 0 <= MD5.sc st < MD5.w32 /\ 0 <= MD5.sd st < MD5.w32.

(** The digest as a number below 2^128. *)
Definition digest_num (st : MD5.state) : Z :=
  MD5.sa st + MD5.w32 * (MD5.sb st + MD5.w32 * (MD5.sc st + MD5.w32 * MD5.sd st)).

(** Payload texts, one for each positive number. *)
Fixpoint bits (p : positive) : string :=
  match p with
  | xH => "1"
  | xO q => String "0"%char (bits q)
  | xI q => String "1"%char (String "1"%char (bits q))
  end.

Definition numbered_payload (i : Z) : string := bits (Z.to_pos (i + 1)).

(** A batch of one operation whose payload is the [i]-th text. *)
Definition numbered_batch (i : Z) : list QueueRow.t :=
  [QueueRow.mk "op-1" "user-1" "task-1" "update" (numbered_payload i) 0 None
               "2025-09-04T10:00:00.000Z" "2025-09-04T10:00:00.000Z"].

(** ** Computations that return *)

(** [returns m w Q]: run from [w], [m] returns normally with a value and a
    world that satisfy [Q]. *)
Definition returns {A} (m : M A) (w : world) (Q : A -> world -> Prop) : Prop :=
  exists a w', m w = (Ok a, w') /\ Q a w'.

(** The data of every record and the clock are as before. *)
Definition same_records (w w' : world) : Prop :=
  Forall2 same_data (tasks w) (tasks w') /\ clock w' = clock w.

(** ** An update followed by a delete of one record *)

(** [v] is a valid date, not later than the bound if there is one. *)
Definition stamp_ok (bound : option Z) (v : json) : Prop :=
  exists s, JSDate.getTime (Some v) = Some s
            /\ match bound with Some b => s <= b | None => True end.

(** The record exists, and neither its [updated_at] nor any reading of the
    clock is an invalid date or lies beyond the bound. *)
Definition record_ok (bound : option Z) (taskId userId : string) (w : world)
  : Prop :=
  (exists t, In t (tasks w) /\ SQL.task_matches taskId userId t = true)
  /\ (forall t, In t (tasks w) -> SQL.task_matches taskId userId t = true ->
                stamp_ok bound (Task.updated_at t))
  /\ (forall k, stamp_ok bound (JStr (clock w k))).

Definition record_deleted (taskId userId : string) (w : world) : Prop :=
  (exists t, In t (tasks w) /\ SQL.task_matches taskId userId t = true)
  /\ (forall t, In t (tasks w) -> SQL.task_matches taskId userId t = true ->
                Task.is_deleted t = JNum 1).

(** The time the delete's payload carries, if it carries one. *)
Definition delete_stamp (data : json) (bound : option Z) : Prop :=
  match JS.get data "updated_at" with
  | None => bound = None
  | Some v => exists td, JSDate.getTime (Some v) = Some td /\ bound = Some td
  end.

(** ** Rows written by the task service *)

(** The row [t] after the UPDATE statement of [deleteTask]. *)
Definition deleted_task (now_ : string) (t : Task.t) : Task.t :=
  Task.mk (Task.id t) (Task.user_id t) (Task.title t) (Task.description t)
          (Task.completed t) (Task.created_at t) (JStr now_) (JNum 1)
          "pending" (Task.server_id t) (Task.last_synced_at t).

(** The row [t] after the UPDATE statement of [updateTask], [existing]
    being the row read before it. *)
Definition updated_task (updates : json) (existing : Task.t) (now_ : string)
  (t : Task.t) : Task.t :=
  Task.mk (Task.id t) (Task.user_id t)
    (JS.bind (Some (match JS.get updates "title" with
                    | Some v => v | None => Task.title existing end)))
    (JS.bind (Some (match JS.get updates "description" with
                    | Some v => v | None => Task.description existing end)))
    (match JS.get updates "completed" with
     | Some v => JNum (if JS.truthy (Some v) then 1 else 0)
     | None => Task.completed existing end)
    (Task.created_at t) (JStr now_) (Task.is_deleted t) "pending"
    (Task.server_id t) (Task.last_synced_at t).

(** The payload [createTask] enqueues. *)
Definition create_payload (title description completed : option json)
  (now_ : string) : json :=
  JObj [("title", match title with Some v => v | None => JNull end);
        ("description",
         JS.or_else match description with
                    | Some v => Some v
                    | None => Some (JStr EmptyString)
                    end (JStr EmptyString));
        ("completed",
         JBool (JS.truthy match completed with
                          | Some v => Some v
                          | None => Some (JBool false)
                          end));
        ("created_at", JStr now_);
        ("updated_at", JStr now_)].

(** ** Relations between the state before and after a run *)

(** [keeps R m]: every run of [m], whether it returns or throws, relates the
    world before it to the world after it. *)
Definition keeps {A} (R : world -> world -> Prop) (m : M A) : Prop :=
  forall w r w', m w = (r, w') -> R w w'.

(** The rows of one user in the four tables. *)
Definition rows_of (u : string) (w : world)
  : list Task.t * list QueueRow.t * list DeadLetter.t * list SyncLog.t :=
  (filter (fun t => String.eqb (Task.user_id t) u) (tasks w),
   filter (SQL.owned_by u) (sync_queue w),
   filter (fun d => String.eqb (DeadLetter.user_id d) u) (dead_letter_queue w),
   filter (fun l => String.eqb (SyncLog.user_id l) u) (sync_logs w)).

(** The rows of user [u] are the same, in the same order, in [w] and [w']. *)
Definition same_rows_of (u : string) (w w' : world) : Prop :=
  rows_of u w' = rows_of u w.

(** The columns of a task that no statement rewrites. *)
Definition task_key (t : Task.t) : string * string * json :=
  (Task.id t, Task.user_id t, Task.created_at t).

(** [l'] is [l] with rows appended. *)
Definition extends {A} (l l' : list A) : Prop := exists new, l' = (l ++ new)%list.

(** No task row, dead-letter entry or sync log is removed, and no task row
    changes its id, owner or creation time. *)
Definition nothing_lost (w w' : world) : Prop :=
  extends (map task_key (tasks w)) (map task_key (tasks w'))
  /\ extends (dead_letter_queue w) (dead_letter_queue w')
  /\ extends (sync_logs w) (sync_logs w').

(** The tables the batches do not write. *)
Definition logs_unchanged (w w' : world) : Prop := sync_logs w' = sync_logs w.

(** The sync queue is as before. *)
Definition queue_unchanged (w w' : world) : Prop := sync_queue w' = sync_queue w.

(** Every row of the queue of [w] was in the queue of [w0], and none of
    the owner's rows targets a task of [ids]. *)
Definition drained_of (userId : string) (ids : list string) (w0 w : world)
  : Prop :=
  forall q, In q (sync_queue w) ->
    In q (sync_queue w0)
    /\ (QueueRow.user_id q = userId -> ~ In (QueueRow.task_id q) ids).

(** The four tables of [w'] are those of [w]. *)
Definition same_tables (w w' : world) : Prop :=
  tasks w' = tasks w /\ sync_queue w' = sync_queue w
  /\ dead_letter_queue w' = dead_letter_queue w /\ sync_logs w' = sync_logs w.

(** Every task row of [w'] is synced or is a row of [w]. *)
Definition synced_or_old (w w' : world) : Prop :=
  forall t, In t (tasks w') -> Task.sync_status t = "synced" \/ In t (tasks w).

(** Every task row of [w] is synced, or is a row of [w0] that is not the
    owner's record of any of [ids]. *)
Definition settled (userId : string) (ids : list string) (w0 w : world)
  : Prop :=
  forall t, In t (tasks w) ->
    Task.sync_status t = "synced"
    \/ (In t (tasks w0)
        /\ forall x, In x ids -> SQL.task_matches x userId t = false).

(** ** Texts that [JSON.parse] reads back *)

(** An upper bound of the depth of the calls [JSON.parse] makes on the text
    of a value. *)
Fixpoint json_size (v : json) : nat :=
  match v with
  | JArr l => S (fold_right (fun x n => S (json_size x + n)) O l)
  | JObj fs =>
      S (fold_right (fun kv n => match kv with
                                 | (_, x) => S (json_size x + n)
                                 end) O fs)
  | _ => 1%nat
  end.

(** What may follow a value in a JSON text: nothing, or a separator. *)
Definition delimited (rest : list ascii) : Prop :=
  match rest with
  | [] => True
  | c :: _ => c = ","%char \/ c = "]"%char \/ c = "}"%char
  end.

(** The characters of the text [JSON.stringify] writes for [v]. *)
Definition chars (v : json) : list ascii := Str.to_list (JSON.stringify v).

(** The bounds of the elements of an array and of the members of an
    object, as [json_size] adds them. *)
Definition sizes (l : list json) : nat :=
  fold_right (fun x n => S (json_size x + n)) O l.

Definition member_sizes (fs : list (string * json)) : nat :=
  fold_right (fun kv n => match kv with
                          | (_, x) => S (json_size x + n)
                          end) O fs.

(** The text of a value starts with a character that is neither white space
    nor a closing bracket. *)
Definition opens (l : list ascii) : Prop :=
  exists c r, l = c :: r /\ JSON.is_ws c = false
              /\ (Str.code c =? 93)%nat = false
              /\ (Str.code c =? 125)%nat = false.

(** [parse_value] reads back the text of [v], whatever follows it. *)
Definition reads_back (v : json) : Prop :=
  forall (fuel : nat) (rest : list ascii),
    (json_size v <= fuel)%nat -> delimited rest ->
    JSON.parse_value fuel (chars v ++ rest) = Some (v, rest).

(** The text of one member of an object. *)
Definition field_text (kv : string * json) : string :=
  match kv with
  | (k, x) => JSON.quote k ++ ":" ++ JSON.stringify x
  end.

(** ** Concrete scenarios *)

Module Scenario.

Definition user : string := "user-1".

(** A clock that advances by one millisecond at each of its first readings. *)
Definition tick (k : nat) : string :=
  nth k ["2025-09-05T08:00:00.000Z"; "2025-09-05T08:00:00.001Z";
         "2025-09-05T08:00:00.002Z"; "2025-09-05T08:00:00.003Z";
         "2025-09-05T08:00:00.004Z"; "2025-09-05T08:00:00.005Z";
         "2025-09-05T08:00:00.006Z"; "2025-09-05T08:00:00.007Z";
         "2025-09-05T08:00:00.008Z"; "2025-09-05T08:00:00.009Z";
         "2025-09-05T08:00:00.010Z"; "2025-09-05T08:00:00.011Z"]
        "2025-09-05T08:00:01.000Z".

(** A clock that stays within one millisecond. *)
Definition frozen (k : nat) : string := "2025-09-05T08:00:00.000Z".

Definition uuid (k : nat) : string := "uuid-" ++ Str.of_Z (Z.of_nat k).

Definition task (id updated_at status : string) : Task.t :=
  Task.mk id user (JStr "Original") (JStr "notes") (JNum 0)
          (JStr "2025-09-04T09:00:00.000Z") (JStr updated_at) (JNum 0)
          status None None.

(** A queued operation; the payload is written with apostrophes. *)
Definition op (id task_id operation payload created_at operation_timestamp : string)
  : QueueRow.t :=
  QueueRow.mk id user task_id operation (Str.sq payload) 0 None
              created_at operation_timestamp.

Definition world_of (clk : nat -> string) (ts : list Task.t)
  (q : list QueueRow.t) : world :=
  mkWorld ts q [] [] 50%positive clk uuid 0 0.

Definition q_update_A : QueueRow.t :=
  op "q1" "task-R" "update"
     "{'title':'A','updated_at':'2025-09-04T10:01:00.000Z'}"
     "2025-09-04T10:01:00.050Z" "2025-09-04T10:01:00.000Z".

Definition q_update_B : QueueRow.t :=
  op "q2" "task-R" "update"
     "{'title':'B','updated_at':'2025-09-04T10:02:00.000Z'}"
     "2025-09-04T10:02:00.050Z" "2025-09-04T10:02:00.000Z".

Definition q_delete : QueueRow.t :=
  op "q3" "task-R" "delete" "{'updated_at':'2025-09-04T10:02:00.000Z'}"
     "2025-09-04T10:02:00.050Z" "2025-09-04T10:02:00.000Z".

(** A create whose payload lacks the title: its INSERT violates NOT NULL. *)
Definition q_create_untitled : QueueRow.t :=
  op "q0" "task-R" "create" "{'description':'no title'}"
     "2025-09-04T10:00:30.050Z" "2025-09-04T10:00:30.000Z".

Definition two_updates : world :=
  world_of tick [task "task-R" "2025-09-04T10:00:00.000Z" "pending"]
           [q_update_A; q_update_B].

Definition failed_then_applied : world :=
  world_of tick [task "task-R" "2025-09-04T10:00:00.000Z" "pending"]
           [q_create_untitled; q_update_A].

(** A delete queued with an empty payload. *)
Definition q_delete_plain : QueueRow.t :=
  op "q4" "task-R" "delete" "{}"
     "2025-09-04T10:02:00.050Z" "2025-09-04T10:02:00.000Z".

Definition update_then_plain_delete : world :=
  world_of frozen [task "task-R" "2025-09-04T10:00:00.000Z" "pending"]
           [q_delete_plain; q_update_A].

(** The server copy was written after both queued operations. *)
Definition server_newer : world :=
  world_of tick [task "task-R" "2025-09-04T12:00:00.000Z" "synced"]
           [q_update_A; q_delete].

(** The record is older than both queued operations. *)
Definition server_older : world :=
  world_of tick [task "task-R" "2025-09-04T10:00:00.000Z" "pending"]
           [q_update_A; q_delete].

(** Scenario B: an update one second older than the server copy. *)
Definition q_update_stale : QueueRow.t :=
  op "q5" "task-R" "update"
     "{'title':'Stale','updated_at':'2025-09-04T09:59:59.000Z'}"
     "2025-09-04T10:05:00.050Z" "2025-09-04T10:05:00.000Z".

Definition stale_update : world :=
  world_of tick [task "task-R" "2025-09-04T10:00:00.000Z" "pending"]
           [q_update_stale].

(** An update whose payload is not JSON. *)
Definition q_update_malformed : QueueRow.t :=
  op "q6" "task-R" "update" "{'title': 'Broken"
     "2025-09-04T10:06:00.050Z" "2025-09-04T10:06:00.000Z".

Definition malformed_update : world :=
  world_of tick [task "task-R" "2025-09-04T10:00:00.000Z" "pending"]
           [q_update_malformed].

(** Operations on a record the server does not have. *)
Definition q_delete_missing : QueueRow.t :=
  op "q7" "task-X" "delete" "{'updated_at':'2025-09-04T10:07:00.000Z'}"
     "2025-09-04T10:07:00.050Z" "2025-09-04T10:07:00.000Z".

Definition q_update_missing : QueueRow.t :=
  op "q8" "task-X" "update" "{'title':'Recovered','completed':true}"
     "2025-09-04T10:08:00.050Z" "2025-09-04T10:08:00.000Z".

Definition no_record : world :=
  world_of tick [] [q_delete_missing; q_update_missing].

(** An operation that has already failed twice. *)
Definition q_failed_twice : QueueRow.t :=
  QueueRow.mk "q9" user "task-R" "create" (Str.sq "{'description':'x'}") 2
              (Some "SQLITE_CONSTRAINT: NOT NULL constraint failed: tasks.title")
              "2025-09-04T10:09:00.050Z" "2025-09-04T10:09:00.000Z".

Definition third_failure : world :=
  world_of tick [task "task-R" "2025-09-04T10:00:00.000Z" "error"]
           [q_failed_twice; q_update_B].

(** The offline part of the integration test of the repository, then the
    sync: a task is created and completed, a second one is created and
    deleted, and the queue is synced.  The result is the operations queued
    before the sync, the sync result and the pending count after it. *)
Definition offline_then_online
  : M (list string * SyncService.sync_result * Z) :=
  t1 <- TaskService.createTask (Some (JStr "Offline Task 1"))
          (Some (JStr "Created while offline")) None user ;;
  _ <- TaskService.updateTask (Task.id t1) (JObj [("completed", JBool true)])
          user ;;
  t2 <- TaskService.createTask (Some (JStr "Offline Task 2")) None None user ;;
  _ <- TaskService.deleteTask (Task.id t2) user ;;
  ops <- (fun w => (Ok (map QueueRow.operation (sync_queue w)), w)) ;;
  res <- SyncService.sync [] "2025-09-03T00:00:00Z" user None ;;
  st <- SyncService.getSyncStatus user ;;
  ret (ops, res, SyncService.s_pending st).

End Scenario.

(* ================================================================== *)
(** * Properties *)

Ltac unfold_M :=
  unfold bind, ret, throw, try, modify, now, uuidv4 in *.

Ltac msimpl :=
  cbn [bind ret throw try modify now uuidv4 fst snd
       set_tasks set_sync_queue set_dead_letter_queue set_sync_logs
       tasks sync_queue dead_letter_queue sync_logs SYNC_BATCH_SIZE
       clock uuids clock_reads uuid_reads after_reads Nat.add] in *.

(* ================================================================== *)
(** ** Checks of the library models *)

Example parse_object :
  JSON.parse (Str.sq "{ 'title' : 'Buy milk', 'completed': true, 'n': [1, -2, null] }")
  = Some (JObj [("title", JStr "Buy milk"); ("completed", JBool true);
                ("n", JArr [JNum 1; JNum (-2); JNull])]).
Proof. vm_compute. reflexivity. Qed.

Example date_parse_iso :
  JSDate.parse "2025-09-04T10:00:00Z" = Some 1756980000000
  /\ JSDate.parse "2024-02-29T12:30:15.123Z" = Some 1709209815123
  /\ JSDate.parse "1969-12-31T23:59:59.000Z" = Some (-1000)
  /\ JSDate.parse "2025-02-29T00:00:00Z" = None
  /\ JSDate.parse "yesterday" = None.
Proof. vm_compute. repeat split. Qed.

Example md5_vectors :
  MD5.hex EmptyString = "d41d8cd98f00b204e9800998ecf8427e"
  /\ MD5.hex "abc" = "900150983cd24fb0d6963f7d28e17f72"
  /\ MD5.hex "aaaaaaaaaaaaaaaaaaaaaaaaaaaaaaaaaaaaaaaaaaaaaaaaaaaaaaaaaaaaaaaaaaaaaaaaaaaaaaaaaaaaaaaaaaaaaaaaaaaa"
     = "36a92cc94a9e0fa21f625f8bfb007adf".
Proof. vm_compute. repeat split. Qed.

(* ================================================================== *)
(** ** Comparison functions that are total preorders *)

Lemma ascii_compare_lt_trans (a b c : ascii) :
  Ascii.compare a b = Lt -> Ascii.compare b c = Lt -> Ascii.compare a c = Lt.
Proof.
  unfold Ascii.compare. rewrite !N.compare_lt_iff. lia.
Qed.

Lemma string_compare_refl (s : string) : String.compare s s = Eq.
Proof.
  induction s as [|c s IH]; simpl; [reflexivity|].
  unfold Ascii.compare. now rewrite N.compare_refl.
Qed.

Lemma string_compare_eq (a b : string) : String.compare a b = Eq <-> a = b.
Proof.
  split; [apply String.compare_eq_iff | intros ->; apply string_compare_refl].
Qed.

Lemma string_compare_lt_trans (a b c : string) :
  String.compare a b = Lt -> String.compare b c = Lt -> String.compare a c = Lt.
Proof.
  revert b c. induction a as [|x a IH]; intros [|y b] [|z c]; simpl;
    try discriminate; try reflexivity.
  destruct (Ascii.compare x y) eqn:Hxy; try discriminate;
    destruct (Ascii.compare y z) eqn:Hyz; try discriminate; intros H1 H2.
  - apply Ascii.compare_eq_iff in Hxy, Hyz. subst.
    unfold Ascii.compare. rewrite N.compare_refl. eauto.
  - apply Ascii.compare_eq_iff in Hxy. subst. now rewrite Hyz.
  - apply Ascii.compare_eq_iff in Hyz. subst. now rewrite Hxy.
  - now rewrite (ascii_compare_lt_trans _ _ _ Hxy Hyz).
Qed.

#[export] Instance string_comparator : Comparator String.compare.
Proof.
  constructor.
  - intros a b. apply String.compare_antisym.
  - apply string_compare_lt_trans.
  - intros a b c H. apply string_compare_eq in H. now subst.
Qed.

(** Comparing through a projection. *)
#[export] Instance on_comparator {A B} (f : A -> B) (cmp : B -> B -> comparison)
  `{Comparator B cmp} : Comparator (fun a b => cmp (f a) (f b)).
Proof.
  constructor; intros.
  - apply cmp_sym.
  - eapply cmp_lt_trans; eauto.
  - now apply cmp_eq_l.
Qed.

(** Lexicographic combination. *)
#[export] Instance lex_comparator {A} (c1 c2 : A -> A -> comparison)
  `{Comparator A c1} `{Comparator A c2} :
  Comparator (fun a b => lex (c1 a b) (c2 a b)).
Proof.
  constructor.
  - intros a b. rewrite (cmp_sym (cmp := c1) a b), (cmp_sym (cmp := c2) a b).
    unfold lex. now destruct (c1 a b).
  - intros a b c. unfold lex.
    destruct (c1 a b) eqn:E1; destruct (c1 b c) eqn:E2; try discriminate.
    + rewrite (cmp_eq_l _ _ c E1), E2. apply cmp_lt_trans.
    + rewrite (cmp_eq_l _ _ c E1), E2. reflexivity.
    + intros _ H2.
      assert (Hca : c1 c b = Eq) by (rewrite (cmp_sym b c), E2; reflexivity).
      assert (E3 : c1 c a = c1 b a) by (apply cmp_eq_l; exact Hca).
      rewrite (cmp_sym a c), (cmp_sym a b), E1 in E3.
      destruct (c1 a c); simpl in E3; try discriminate. reflexivity.
    + intros _ _. now rewrite (cmp_lt_trans _ _ _ E1 E2).
  - intros a b c. unfold lex.
    destruct (c1 a b) eqn:E1; try discriminate. intros E2.
    now rewrite (cmp_eq_l _ _ c E1), (cmp_eq_l _ _ c E2).
Qed.

Section SortFacts.
Context {A : Type} (cmp : A -> A -> comparison) `{Comparator A cmp}.

Lemma cmp_le_trans a b c : cmp_le cmp a b -> cmp_le cmp b c -> cmp_le cmp a c.
Proof.
  unfold cmp_le. intros Hab Hbc.
  destruct (cmp a b) eqn:E1; [| |contradiction].
  - now rewrite (cmp_eq_l (cmp := cmp) _ _ c E1).
  - destruct (cmp b c) eqn:E2; [| |contradiction].
    + assert (Hcb : cmp c b = Eq) by (rewrite (cmp_sym (cmp := cmp) b c), E2; reflexivity).
      pose proof (cmp_eq_l (cmp := cmp) _ _ a Hcb) as E3.
      rewrite (cmp_sym (cmp := cmp) a c), (cmp_sym (cmp := cmp) a b), E1 in E3.
      destruct (cmp a c); simpl in E3; discriminate.
    + rewrite (cmp_lt_trans (cmp := cmp) _ _ _ E1 E2). discriminate.
Qed.

Lemma cmp_le_total a b : cmp_le cmp a b \/ cmp_le cmp b a.
Proof.
  unfold cmp_le. rewrite (cmp_sym (cmp := cmp) a b).
  destruct (cmp a b); simpl; intuition discriminate.
Qed.

Lemma leb_of_true a b : leb_of cmp a b = true <-> cmp_le cmp a b.
Proof.
  unfold leb_of, cmp_le. destruct (cmp a b); intuition discriminate.
Qed.

Lemma insert_sorted_perm x l : Permutation (insert_sorted cmp x l) (x :: l).
Proof.
  induction l as [|y l IH]; simpl; [reflexivity|].
  destruct (leb_of cmp x y); [reflexivity|].
  rewrite IH. apply perm_swap.
Qed.

Lemma sort_by_perm l : Permutation (sort_by cmp l) l.
Proof.
  induction l as [|x l IH]; simpl; [reflexivity|].
  rewrite insert_sorted_perm. now constructor.
Qed.

Lemma insert_sorted_sorted x l :
  StronglySorted (cmp_le cmp) l -> StronglySorted (cmp_le cmp) (insert_sorted cmp x l).
Proof.
  induction l as [|y l IH]; simpl; intros Hs.
  - repeat constructor.
  - apply StronglySorted_inv in Hs as [Hs Hall].
    destruct (leb_of cmp x y) eqn:E.
    + apply leb_of_true in E. constructor; [now constructor|].
      constructor; [exact E|].
      eapply Forall_impl; [|exact Hall]. intros z Hz.
      eapply cmp_le_trans; eauto.
    + assert (Hyx : cmp_le cmp y x).
      { destruct (cmp_le_total x y) as [Hxy|Hyx]; [|exact Hyx].
        apply leb_of_true in Hxy. congruence. }
      constructor; [now apply IH|].
      eapply Permutation_Forall;
        [symmetry; apply insert_sorted_perm|].
      now constructor.
Qed.

Lemma sort_by_sorted l : StronglySorted (cmp_le cmp) (sort_by cmp l).
Proof.
  induction l as [|x l IH]; simpl; [constructor|].
  now apply insert_sorted_sorted.
Qed.

(** Two sorted lists with the same members are equal when no two
    different members compare equal. *)
Lemma sorted_perm_unique l1 :
  forall l2,
    (forall a b, In a l1 -> In b l1 -> cmp a b = Eq -> a = b) ->
    StronglySorted (cmp_le cmp) l1 -> StronglySorted (cmp_le cmp) l2 ->
    Permutation l1 l2 -> l1 = l2.
Proof.
  induction l1 as [|a l1 IH]; intros l2 Hinj H1 H2 Hp.
  - apply Permutation_nil in Hp. now subst.
  - destruct l2 as [|b l2].
    { symmetry in Hp. apply Permutation_nil in Hp. discriminate. }
    apply StronglySorted_inv in H1 as [H1 Ha].
    apply StronglySorted_inv in H2 as [H2 Hb].
    assert (Hab : a = b).
    { assert (Hin_b : In b (a :: l1))
        by (eapply Permutation_in; [symmetry; exact Hp|now left]).
      assert (Hin_a : In a (b :: l2))
        by (eapply Permutation_in; [exact Hp|now left]).
      destruct Hin_b as [->|Hin_b]; [reflexivity|].
      destruct Hin_a as [->|Hin_a]; [reflexivity|].
      rewrite Forall_forall in Ha, Hb.
      pose proof (Ha _ Hin_b) as Hle1. pose proof (Hb _ Hin_a) as Hle2.
      apply Hinj; [now left|now right|].
      unfold cmp_le in *. rewrite (cmp_sym (cmp := cmp) a b) in Hle2.
      destruct (cmp a b); simpl in *; congruence. }
    subst b. f_equal. apply IH; auto.
    + intros x y Hx Hy. apply Hinj; now right.
    + eapply Permutation_cons_inv; exact Hp.
Qed.

Lemma sort_by_permutation_invariant l1 l2 :
  (forall a b, In a l1 -> In b l1 -> cmp a b = Eq -> a = b) ->
  Permutation l1 l2 -> sort_by cmp l1 = sort_by cmp l2.
Proof.
  intros Hinj Hp. apply sorted_perm_unique.
  - intros a b Ha Hb. apply Hinj; eapply Permutation_in;
      try eassumption; apply sort_by_perm.
  - apply sort_by_sorted.
  - apply sort_by_sorted.
  - rewrite !sort_by_perm. exact Hp.
Qed.
End SortFacts.

(* ================================================================== *)
(** ** Conflict resolver *)

(** C2 - The conflict resolver lets the strictly later of the two timestamps
    win (last write wins); on equal timestamps the priority of the local
    operation kind (delete 3, update 2, create 1) is compared with that of
    the update assumed on the server side, so a local delete beats it, a local
    update ties and is kept, and a local create loses.  The result is a
    function of the two time values and the operation kind alone. *)
Theorem resolveConflict_last_write_wins :
  forall (l s : option json) (op : string) (tl ts : Z),
    JSDate.getTime l = Some tl ->
    JSDate.getTime s = Some ts ->
    (ts < tl -> resolveConflict l s op = Local)
    /\ (tl < ts -> resolveConflict l s op = Server)
    /\ (tl = ts ->
        resolveConflict l s "delete" = Local
        /\ resolveConflict l s "update" = Local
        /\ resolveConflict l s "create" = Server)
    /\ (exists pd pu pc,
          CONFLICT_PRIORITY "delete" = Some pd
          /\ CONFLICT_PRIORITY "update" = Some pu
          /\ CONFLICT_PRIORITY "create" = Some pc
          /\ pc < pu < pd)
    /\ (forall l' s',
          JSDate.getTime l' = Some tl -> JSDate.getTime s' = Some ts ->
          resolveConflict l' s' op = resolveConflict l s op).
Proof.
  intros l s op tl ts Hl Hs. unfold resolveConflict. rewrite Hl, Hs.
  repeat split.
  - intros Hlt. destruct (Z.eqb_spec tl ts); [lia|].
    destruct (Z.geb_spec tl ts); [reflexivity|lia].
  - intros Hlt. destruct (Z.eqb_spec tl ts); [lia|].
    destruct (Z.geb_spec tl ts); [lia|reflexivity].
  - subst. now rewrite Z.eqb_refl.
  - subst. now rewrite Z.eqb_refl.
  - subst. now rewrite Z.eqb_refl.
  - exists 3, 2, 1. repeat split; lia.
  - intros l' s' Hl' Hs'. now rewrite Hl', Hs'.
Qed.

Lemma resolveConflict_last_write_wins_witness :
  resolveConflict (Some (JStr "2025-09-04T11:00:00Z"))
                  (Some (JStr "2025-09-04T10:00:00Z")) "update" = Local
  /\ resolveConflict (Some (JStr "2025-09-04T10:00:00Z"))
                     (Some (JStr "2025-09-04T10:00:00.000Z")) "create" = Server.
Proof.
  split.
  - destruct (resolveConflict_last_write_wins
                (Some (JStr "2025-09-04T11:00:00Z"))
                (Some (JStr "2025-09-04T10:00:00Z")) "update"
                (tl := 1756983600000) (ts := 1756980000000)
                eq_refl eq_refl) as (Hlater & _).
    apply Hlater. lia.
  - destruct (resolveConflict_last_write_wins
                (Some (JStr "2025-09-04T10:00:00Z"))
                (Some (JStr "2025-09-04T10:00:00.000Z")) "create"
                (tl := 1756980000000) (ts := 1756980000000)
                eq_refl eq_refl) as (_ & _ & Htie & _).
    apply Htie. reflexivity.
Defined.

(* ================================================================== *)
(** ** Operation queue *)

#[export] Instance queue_order_comparator : Comparator SQL.queue_order.
Proof.
  unfold SQL.queue_order.
  set (k1 := fun a b : QueueRow.t =>
               String.compare (QueueRow.task_id a) (QueueRow.task_id b)).
  set (k2 := fun a b : QueueRow.t =>
               String.compare (QueueRow.operation_timestamp a)
                              (QueueRow.operation_timestamp b)).
  set (k3 := fun a b : QueueRow.t =>
               String.compare (QueueRow.created_at a) (QueueRow.created_at b)).
  set (k4 := fun a b : QueueRow.t =>
               String.compare (QueueRow.id a) (QueueRow.id b)).
  assert (C1 : Comparator k1) by apply (on_comparator QueueRow.task_id).
  assert (C2 : Comparator k2)
    by apply (on_comparator QueueRow.operation_timestamp).
  assert (C3 : Comparator k3) by apply (on_comparator QueueRow.created_at).
  assert (C4 : Comparator k4) by apply (on_comparator QueueRow.id).
  exact (@lex_comparator _ k1 _ C1
           (@lex_comparator _ k2 _ C2 (@lex_comparator _ k3 k4 C3 C4))).
Qed.

(** What [queue_order a b <> Gt] says, key by key. *)
Lemma queue_order_le_spec (a b : QueueRow.t) :
  cmp_le SQL.queue_order a b <->
  Str.lt (QueueRow.task_id a) (QueueRow.task_id b)
  \/ (QueueRow.task_id a = QueueRow.task_id b
      /\ (Str.lt (QueueRow.operation_timestamp a) (QueueRow.operation_timestamp b)
          \/ (QueueRow.operation_timestamp a = QueueRow.operation_timestamp b
              /\ (Str.lt (QueueRow.created_at a) (QueueRow.created_at b)
                  \/ (QueueRow.created_at a = QueueRow.created_at b
                      /\ Str.le (QueueRow.id a) (QueueRow.id b)))))).
Proof.
  unfold cmp_le, SQL.queue_order, lex, Str.lt, Str.le.
  rewrite <- !string_compare_eq.
  destruct (String.compare (QueueRow.task_id a) (QueueRow.task_id b));
    destruct (String.compare (QueueRow.operation_timestamp a)
                             (QueueRow.operation_timestamp b));
    destruct (String.compare (QueueRow.created_at a) (QueueRow.created_at b));
    destruct (String.compare (QueueRow.id a) (QueueRow.id b));
    intuition congruence.
Qed.

Lemma StronglySorted_weaken {A} (R S : A -> A -> Prop) (l : list A) :
  (forall a b, R a b -> S a b) -> StronglySorted R l -> StronglySorted S l.
Proof.
  intros HRS. induction 1 as [|a l Hs IH Hall]; constructor.
  - exact IH.
  - eapply Forall_impl; [|exact Hall]. intros b. apply HRS.
Qed.

(** C6 - Draining the queue for an owner (the ordered SELECT at the start of
    sync) returns exactly that owner's pending operations, each as often as
    it is queued, and does not change the database.  The result is sorted by
    target record id, then operation timestamp, then enqueue time, then
    operation identifier, each compared as TEXT: of two operations of the
    result the earlier one has the smaller record id, or the same record id
    and the smaller operation timestamp, or these two equal and the smaller
    enqueue time, or these three equal and an identifier that is not
    larger. *)
Theorem drain_sorted_by_record_then_time :
  forall (userId : string) (w : world),
  exists drained,
    SQL.select_queue_ordered userId w = (Ok drained, w)
    /\ Permutation drained (filter (SQL.owned_by userId) (sync_queue w))
    /\ (forall q, In q drained <->
                  In q (sync_queue w) /\ QueueRow.user_id q = userId)
    /\ StronglySorted
         (fun a b =>
            Str.lt (QueueRow.task_id a) (QueueRow.task_id b)
            \/ (QueueRow.task_id a = QueueRow.task_id b
                /\ (Str.lt (QueueRow.operation_timestamp a)
                           (QueueRow.operation_timestamp b)
                    \/ (QueueRow.operation_timestamp a
                        = QueueRow.operation_timestamp b
                        /\ (Str.lt (QueueRow.created_at a)
                                   (QueueRow.created_at b)
                            \/ (QueueRow.created_at a = QueueRow.created_at b
                                /\ Str.le (QueueRow.id a) (QueueRow.id b)))))))
         drained.
Proof.
  intros userId w.
  exists (sort_by SQL.queue_order (filter (SQL.owned_by userId) (sync_queue w))).
  split; [reflexivity|]. split; [apply sort_by_perm; exact _|].
  split.
  - intros q. split.
    + intros Hin. eapply Permutation_in in Hin; [|apply sort_by_perm; exact _].
      apply filter_In in Hin as [Hin Ho]. split; [exact Hin|].
      now apply String.eqb_eq in Ho.
    + intros [Hin Ho]. eapply Permutation_in;
        [symmetry; apply sort_by_perm; exact _|].
      apply filter_In. split; [exact Hin|]. now apply String.eqb_eq.
  - apply (StronglySorted_weaken (R := cmp_le SQL.queue_order)).
    + intros a b. apply queue_order_le_spec.
    + apply sort_by_sorted. exact _.
Qed.

Lemma NoDup_map_inj_in {A B} (f : A -> B) (l : list A) :
  NoDup (map f l) ->
  forall a b, In a l -> In b l -> f a = f b -> a = b.
Proof.
  induction l as [|x l IH]; simpl; intros Hnd a b Ha Hb Hf; [contradiction|].
  inversion Hnd as [|? ? Hx Hnd']; subst.
  destruct Ha as [-> | Ha], Hb as [-> | Hb]; auto.
  - exfalso. apply Hx. rewrite Hf. now apply in_map.
  - exfalso. apply Hx. rewrite <- Hf. now apply in_map.
Qed.

Lemma queue_order_eq_id (a b : QueueRow.t) :
  SQL.queue_order a b = Eq -> QueueRow.id a = QueueRow.id b.
Proof.
  unfold SQL.queue_order, lex.
  destruct (String.compare (QueueRow.task_id a) (QueueRow.task_id b));
    try discriminate.
  destruct (String.compare (QueueRow.operation_timestamp a)
                           (QueueRow.operation_timestamp b));
    try discriminate.
  destruct (String.compare (QueueRow.created_at a) (QueueRow.created_at b));
    try discriminate.
  apply string_compare_eq.
Qed.

(** With the primary key in force the drained list is the only sorted
    arrangement of the owner's operations. *)
Lemma drain_is_the_sorted_arrangement (userId : string) (w : world)
  (l : list QueueRow.t) :
  NoDup (map QueueRow.id (sync_queue w)) ->
  Permutation l (filter (SQL.owned_by userId) (sync_queue w)) ->
  StronglySorted (cmp_le SQL.queue_order) l ->
  SQL.select_queue_ordered userId w = (Ok l, w).
Proof.
  intros Hnd Hp Hs. unfold SQL.select_queue_ordered. do 2 f_equal.
  symmetry. apply (sorted_perm_unique (cmp := SQL.queue_order)).
  - intros a b Ha Hb Hcmp. apply queue_order_eq_id in Hcmp.
    apply (NoDup_map_inj_in QueueRow.id (sync_queue w)).
    + exact Hnd.
    + eapply Permutation_in in Ha; [|exact Hp].
      now apply filter_In in Ha as [Ha _].
    + eapply Permutation_in in Hb; [|exact Hp].
      now apply filter_In in Hb as [Hb _].
    + exact Hcmp.
  - exact Hs.
  - apply sort_by_sorted; exact _.
  - rewrite Hp. symmetry. apply sort_by_perm; exact _.
Qed.

(* ================================================================== *)
(** ** Removing an applied operation from the queue *)

(** C5 - (the code departs from the claim) Applying one operation removes
    every queue entry of that owner for the same record, not only the applied
    one: with two updates of one record queued, applying the first empties the
    queue although the second was never applied; and an operation that failed
    once is dropped from the queue, without reaching the dead-letter store,
    as soon as a later operation on the same record succeeds. *)
Theorem synced_status_removes_sibling_operations :
  (In Scenario.q_update_B (sync_queue Scenario.two_updates)
   /\ QueueRow.id Scenario.q_update_B <> QueueRow.id Scenario.q_update_A
   /\ sync_queue (snd (processBatch_item Scenario.user (mkBatch [] [] 0 0)
                         Scenario.q_update_A Scenario.two_updates)) = [])
  /\ (let '(r, w') := sync [] "2025-09-03T00:00:00.000Z" Scenario.user None
                           Scenario.failed_then_applied in
      (exists res, r = Ok res /\ processed res = 1 /\ failed res = 1)
      /\ sync_queue w' = []
      /\ dead_letter_queue w' = []).
Proof.
  split.
  - split; [right; left; reflexivity|].
    split; [discriminate|]. vm_compute. reflexivity.
  - vm_compute. split; [|split; reflexivity].
    eexists. split; [reflexivity|]. split; reflexivity.
Qed.

(* ================================================================== *)
(** ** Enqueueing *)

Lemma addToSyncQueue_run taskId operation data userId ots w :
  addToSyncQueue taskId operation data userId ots w =
  let row :=
    QueueRow.mk (uuids w (uuid_reads w)) userId taskId operation
                (JSON.stringify (JS.or_else data (JObj []))) 0 None
                (clock w (clock_reads w))
                (JS.str_or ots (clock w (clock_reads w))) in
  if existsb (fun q => String.eqb (QueueRow.id q) (QueueRow.id row))
             (sync_queue w)
  then (Throw "SQLITE_CONSTRAINT: UNIQUE constraint failed: sync_queue.id",
        after_reads 1 1 w)
  else (Ok tt, set_sync_queue (sync_queue w ++ [row]) (after_reads 1 1 w)).
Proof. reflexivity. Qed.

Lemma enqueue_changes_cons change rest userId w :
  enqueue_changes (change :: rest) userId w =
  if negb (valid_operation (Change.operation change))
  then (Throw ("Invalid operation: " ++ Change.operation change), w)
  else
    match addToSyncQueue
            (JS.str_or (Change.server_id change) (Change.local_id change))
            (Change.operation change) (Change.data change) userId None w with
    | (Ok _, w1) => enqueue_changes rest userId w1
    | (Throw e, w1) => (Throw e, w1)
    end.
Proof.
  unfold enqueue_changes. simpl for_each. unfold bind at 1.
  destruct (negb (valid_operation (Change.operation change))); reflexivity.
Qed.

Lemma enqueue_changes_appends changes userId :
  forall w r w',
    enqueue_changes changes userId w = (r, w') ->
    exists n,
      sync_queue w'
      = (sync_queue w
         ++ firstn n (enqueued_rows userId (uuids w) (clock w)
                                    (uuid_reads w) (clock_reads w) changes))%list
      /\ (r = Ok tt -> n = List.length changes)
      /\ tasks w' = tasks w /\ clock w' = clock w /\ uuids w' = uuids w.
Proof.
  induction changes as [|change rest IH]; intros w r w' Hrun.
  - injection Hrun as <- <-. exists 0%nat. simpl. rewrite app_nil_r. auto.
  - rewrite enqueue_changes_cons in Hrun.
    destruct (negb (valid_operation (Change.operation change))).
    + injection Hrun as <- <-. exists 0%nat. simpl. rewrite app_nil_r.
      repeat split; auto. discriminate.
    + rewrite addToSyncQueue_run in Hrun. cbv zeta in Hrun.
      match type of Hrun with
      | context [existsb ?f ?l] => destruct (existsb f l)
      end.
      * injection Hrun as <- <-. exists 0%nat. simpl. rewrite app_nil_r.
        repeat split; auto. discriminate.
      * apply IH in Hrun. destruct Hrun as (n & Hq & Hn & Ht & Hc & Hu).
        exists (S n). simpl in *.
        rewrite Hq, <- app_assoc. simpl.
        repeat split; auto.
Qed.

Lemma enqueued_rows_timestamp userId uuid clk changes :
  forall u c,
    Forall (fun q => QueueRow.operation_timestamp q = QueueRow.created_at q)
           (enqueued_rows userId uuid clk u c changes).
Proof.
  induction changes as [|change rest IH]; intros u c; simpl;
    constructor; auto.
Qed.

Lemma enqueued_rows_payload_independent userId uuid clk changes :
  forall changes' u c,
    map without_data changes' = map without_data changes ->
    map sort_key (enqueued_rows userId uuid clk u c changes')
    = map sort_key (enqueued_rows userId uuid clk u c changes).
Proof.
  induction changes as [|change rest IH]; intros [|change' rest'] u c Heq;
    simpl in *; try discriminate; [reflexivity|].
  injection Heq as Ho Hl Hs Hrest. unfold sort_key at 1 3. simpl.
  rewrite Hl, Hs. f_equal. now apply IH.
Qed.

(** The local delete operation enqueues with the time it read itself. *)
Lemma deleteTask_timestamp id userId w w' :
  TaskService.deleteTask id userId w = (Ok true, w') ->
  exists q,
    sync_queue w' = (sync_queue w ++ [q])%list
    /\ QueueRow.operation q = "delete"
    /\ QueueRow.created_at q = clock w (S (clock_reads w))
    /\ (Str.is_empty (clock w (clock_reads w)) = false ->
        QueueRow.operation_timestamp q = clock w (clock_reads w)).
Proof.
  unfold TaskService.deleteTask.
  destruct (Str.is_empty id) eqn:Hid; [discriminate|].
  destruct (Str.is_empty userId) eqn:Hu; [discriminate|].
  unfold TaskService.getTaskById. rewrite Hid, Hu.
  unfold bind at 1.
  destruct (find (TaskService.live_matches id userId) (tasks w));
    [|discriminate].
  unfold TaskService.addToSyncQueue. rewrite Hid, Hu. simpl Str.is_empty.
  unfold_M. unfold SQL.insert_queue. simpl.
  match goal with |- context [existsb ?f ?l] => destruct (existsb f l) end;
    simpl; [discriminate|].
  intros Hrun. injection Hrun as <-.
  eexists. split; [reflexivity|]. simpl.
  split; [reflexivity|]. split; [reflexivity|]. now intros ->.
Qed.

(** So does the local update. *)
Lemma updateTask_timestamp id updates userId w t w' :
  TaskService.updateTask id updates userId w = (Ok (Some t), w') ->
  exists q,
    sync_queue w' = (sync_queue w ++ [q])%list
    /\ QueueRow.operation q = "update"
    /\ QueueRow.created_at q = clock w (S (clock_reads w))
    /\ (Str.is_empty (clock w (clock_reads w)) = false ->
        QueueRow.operation_timestamp q = clock w (clock_reads w)).
Proof.
  unfold TaskService.updateTask.
  destruct (Str.is_empty id) eqn:Hid; [discriminate|].
  destruct (Str.is_empty userId) eqn:Hu; [discriminate|].
  destruct updates; try discriminate;
    (unfold TaskService.getTaskById; rewrite Hid, Hu; unfold bind at 1;
     destruct (find (TaskService.live_matches id userId) (tasks w));
       [|discriminate];
     unfold bind at 1; unfold now at 1; cbv zeta; unfold bind at 1;
     destruct (JS.bind _); try discriminate;
       (unfold TaskService.addToSyncQueue; rewrite Hid, Hu;
        simpl Str.is_empty; unfold_M; unfold SQL.insert_queue; simpl;
        match goal with
        | |- context [existsb ?f ?l] => destruct (existsb f l)
        end; simpl; [discriminate|];
        intros Hrun; injection Hrun as _ <-;
        eexists; split; [reflexivity|]; simpl;
        split; [reflexivity|]; split; [reflexivity|]; now intros ->)).
Qed.

(** And the local create. *)
Lemma createTask_timestamp title description completed userId w t w' :
  TaskService.createTask title description completed userId w = (Ok t, w') ->
  exists q,
    sync_queue w' = (sync_queue w ++ [q])%list
    /\ QueueRow.operation q = "create"
    /\ QueueRow.created_at q = clock w (S (clock_reads w))
    /\ (Str.is_empty (clock w (clock_reads w)) = false ->
        QueueRow.operation_timestamp q = clock w (clock_reads w)).
Proof.
  unfold TaskService.createTask.
  destruct (Str.is_empty userId) eqn:Hu; [discriminate|].
  destruct (negb (JS.truthy title)); [discriminate|].
  unfold bind at 1. unfold uuidv4. unfold bind at 1. unfold now.
  unfold bind at 1. unfold SQL.insert_task. cbn [Task.title Task.id].
  destruct (JS.bind _); try discriminate;
    (cbn [tasks]; destruct (existsb _ (tasks w)); [discriminate|];
     unfold TaskService.addToSyncQueue; rewrite Hu;
     destruct (Str.is_empty (uuids w (uuid_reads w))); [discriminate|];
     simpl Str.is_empty; unfold_M; unfold SQL.insert_queue; simpl;
     match goal with |- context [existsb ?f ?l] => destruct (existsb f l) end;
     simpl; [discriminate|];
     intros Hrun; injection Hrun as _ <-;
     eexists; split; [reflexivity|]; simpl;
     split; [reflexivity|]; split; [reflexivity|]; now intros ->).
Qed.


(* ================================================================== *)
(** ** Retry and dead letter *)

Lemma task_matches_with_status taskId userId st ls sid t :
  SQL.task_matches taskId userId (Task.with_status st ls sid t)
  = SQL.task_matches taskId userId t.
Proof. reflexivity. Qed.

Lemma status_of_marked taskId userId st ls sid (ts : list Task.t) t :
  In t (map (fun x => if SQL.task_matches taskId userId x
                      then Task.with_status st ls sid x else x) ts) ->
  SQL.task_matches taskId userId t = true ->
  Task.sync_status t = st.
Proof.
  intros Hin Hm. apply in_map_iff in Hin as (x & Hx & _).
  destruct (SQL.task_matches taskId userId x) eqn:E; subst t.
  - reflexivity.
  - congruence.
Qed.

Lemma fresh_dead_letter_id u (l : list DeadLetter.t) :
  ~ In u (map DeadLetter.id l) ->
  existsb (fun x => String.eqb (DeadLetter.id x) u) l = false.
Proof.
  intros Hf. destruct (existsb _ l) eqn:E; [|reflexivity].
  apply existsb_exists in E as (x & Hx & He). apply String.eqb_eq in He.
  exfalso. apply Hf. rewrite <- He. now apply in_map.
Qed.

(** X25 - What handleSyncError does for an operation whose row is still in
    the queue: the retry count goes up by one with the error message recorded.
    If the new count reaches 3, one entry (the operation's target, kind and
    payload, printed again from its parsed value, with the count, the
    message, the original enqueue time and the time of the move) is appended
    to the dead-letter store, the
    operation leaves the queue while every other entry stays, and the target
    record's sync_status becomes failed.  Below 3 the row stays where it is
    in the queue, with the new count and the message and its other columns
    as they were, every other row is untouched, nothing is dead-lettered,
    and the record's sync_status becomes error. *)
Theorem handleSyncError_retry_then_dead_letter :
  forall (item : QueueRow.t) (data : json) (message userId : string)
         (w w' : world) (r : outcome unit),
    handleSyncError item data message userId w = (r, w') ->
    In item (sync_queue w) ->
    QueueRow.user_id item = userId ->
    ~ In (uuids w (uuid_reads w)) (map DeadLetter.id (dead_letter_queue w)) ->
    let count := QueueRow.retry_count item + 1 in
    r = Ok tt
    /\ (3 <= count ->
        (exists d,
           dead_letter_queue w' = (dead_letter_queue w ++ [d])%list
           /\ DeadLetter.id d = uuids w (uuid_reads w)
           /\ DeadLetter.user_id d = userId
           /\ DeadLetter.task_id d = QueueRow.task_id item
           /\ DeadLetter.operation d = QueueRow.operation item
           /\ (forall s, data = JStr s -> DeadLetter.data d = s)
           /\ ((forall s, data <> JStr s) -> JSON.plain_value data = true ->
               DeadLetter.data d = JSON.stringify data)
           /\ DeadLetter.retry_count d = QueueRow.retry_count item + 1
           /\ DeadLetter.error_message d = message
           /\ DeadLetter.original_created_at d = QueueRow.created_at item
           /\ DeadLetter.failed_at d = clock w (clock_reads w))
        /\ ~ In item (sync_queue w')
        /\ (forall q, In q (sync_queue w') <->
                      In q (sync_queue w)
                      /\ SQL.queue_id_matches (QueueRow.id item) userId q = false)
        /\ (forall t, In t (tasks w') ->
                      SQL.task_matches (QueueRow.task_id item) userId t = true ->
                      Task.sync_status t = "failed"))
    /\ (count < 3 ->
        dead_letter_queue w' = dead_letter_queue w
        /\ map QueueRow.id (sync_queue w') = map QueueRow.id (sync_queue w)
        /\ (forall q, In q (sync_queue w) ->
                      SQL.queue_id_matches (QueueRow.id item) userId q = false ->
                      In q (sync_queue w'))
        /\ (exists q',
              In q' (sync_queue w')
              /\ QueueRow.retry_count q' = QueueRow.retry_count item + 1
              /\ QueueRow.error_message q' = Some message
              /\ QueueRow.id q' = QueueRow.id item
              /\ QueueRow.user_id q' = userId
              /\ QueueRow.task_id q' = QueueRow.task_id item
              /\ QueueRow.operation q' = QueueRow.operation item
              /\ QueueRow.data q' = QueueRow.data item
              /\ QueueRow.created_at q' = QueueRow.created_at item
              /\ QueueRow.operation_timestamp q'
                 = QueueRow.operation_timestamp item)
        /\ (forall t, In t (tasks w') ->
                      SQL.task_matches (QueueRow.task_id item) userId t = true ->
                      Task.sync_status t = "error")).
Proof.
  intros item data message userId w w' r Hrun Hin Huser Hfresh count.
  unfold handleSyncError in Hrun. fold count in Hrun.
  assert (Hself : SQL.queue_id_matches (QueueRow.id item) userId item = true).
  { unfold SQL.queue_id_matches. rewrite Huser, !String.eqb_refl. reflexivity. }
  destruct (count >=? MAX_RETRIES) eqn:E.
  - apply Z.geb_le in E. unfold MAX_RETRIES in E.
    unfold updateSyncStatus, SQL.insert_dead_letter, SQL.delete_queue_by_id,
      SQL.update_task_status in Hrun.
    unfold_M. simpl in Hrun.
    rewrite (fresh_dead_letter_id _ _ Hfresh) in Hrun. simpl in Hrun.
    injection Hrun as <- <-. simpl.
    split; [reflexivity|]. split; [|intros; lia].
    intros _. split; [|split; [|split]].
    + eexists. split; [reflexivity|]. cbn.
      repeat split; try reflexivity.
      * now intros s ->.
      * intros Hns _. destruct data; try reflexivity.
        now destruct (Hns s).
    + intros Hi. apply filter_In in Hi as [_ Hi]. rewrite Hself in Hi.
      discriminate.
    + intros q. rewrite filter_In, negb_true_iff. reflexivity.
    + intros t. apply status_of_marked.
  - assert (Hlt : count < 3).
    { unfold MAX_RETRIES in E. destruct (Z.geb_spec count 3); [discriminate|lia]. }
    unfold updateSyncStatus, SQL.update_queue_retry, SQL.update_task_status
      in Hrun.
    unfold_M. simpl in Hrun. injection Hrun as <- <-. simpl.
    split; [reflexivity|]. split; [intros; lia|].
    intros _. split; [reflexivity|]. split; [|split; [|split]].
    + rewrite map_map. apply map_ext. intros q.
      now destruct (SQL.queue_id_matches (QueueRow.id item) userId q).
    + intros q Hq Hm. apply in_map_iff. exists q. now rewrite Hm.
    + exists (QueueRow.with_retry count message item). split.
      * apply in_map_iff. exists item. rewrite Hself. auto.
      * cbn. rewrite Huser. repeat split; reflexivity.
    + intros t. apply status_of_marked.
Qed.

(* ================================================================== *)
(** ** Applying one item: the runs of [processItem] *)

Lemma json_eq_null (v : json) : v = JNull \/ v <> JNull.
Proof. destruct v; (now left) || (right; discriminate). Qed.

Lemma bind_prop_ok {B} data k (f : option json -> M B) w :
  data <> JNull -> bind (prop data k) f w = f (JS.get data k) w.
Proof.
  intros Hd. unfold bind, prop. destruct data; try reflexivity. congruence.
Qed.

Lemma processItem_create_run item data userId now_ w :
  data <> JNull ->
  processItem_create item data userId now_ w =
  let id := uuids w (uuid_reads w) in
  let t := created_task data userId now_ id in
  match SQL.insert_task t (after_reads 0 1 w) with
  | (Ok _, w') =>
      (Ok (mkResult (Some (mkMapping (QueueRow.task_id item) id)) None
                    (Some (TaskData t))), w')
  | (Throw e, w') => (Throw e, w')
  end.
Proof.
  intros Hd. unfold processItem_create. unfold bind at 1. unfold uuidv4.
  rewrite !bind_prop_ok by assumption.
  unfold bind, ret. reflexivity.
Qed.

Lemma processItem_create_null item userId now_ w :
  processItem_create item JNull userId now_ w
  = (Throw "Cannot read properties of null (reading 'title')",
     after_reads 0 1 w).
Proof. reflexivity. Qed.

Lemma insert_task_fresh t w :
  Task.title t <> JNull ->
  ~ In (Task.id t) (map Task.id (tasks w)) ->
  SQL.insert_task t w = (Ok tt, set_tasks (tasks w ++ [t]) w).
Proof.
  intros Ht Hf. unfold SQL.insert_task.
  destruct (Task.title t) eqn:E; try congruence;
    (destruct (existsb _ (tasks w)) eqn:Ex; [|reflexivity];
     apply existsb_exists in Ex as (x & Hx & He); apply String.eqb_eq in He;
     exfalso; apply Hf; rewrite <- He; now apply in_map).
Qed.

Lemma processItem_existing item data userId w serverTask :
  is_update_or_delete (QueueRow.operation item) ->
  Str.is_empty (QueueRow.task_id item) = false ->
  Str.is_empty userId = false ->
  find (SQL.task_matches (QueueRow.task_id item) userId) (tasks w)
  = Some serverTask ->
  processItem item data userId w =
  let now_ := clock w (clock_reads w) in
  let operation := QueueRow.operation item in
  match resolveConflict (localTask_updated_at data serverTask)
                        (Some (Task.updated_at serverTask)) operation with
  | Server =>
      (Ok (mkResult None
             (Some (mkConflict (QueueRow.task_id item) serverTask)) None),
       after_reads 1 0 w)
  | Local =>
      match data with
      | JNull =>
          (Throw "Cannot read properties of null (reading 'title')",
           after_reads 1 0 w)
      | _ =>
          (Ok (mkResult None None
                 (Some (MergedTask (merged_title data serverTask)
                          (merged_description data serverTask)
                          (merged_completed data serverTask)
                          (merged_is_deleted operation data serverTask)
                          now_ "synced" now_))),
           set_tasks
             (map (fun t =>
                     if SQL.task_matches (QueueRow.task_id item) userId t
                     then Task.with_merge (merged_title data serverTask)
                            (merged_description data serverTask)
                            (merged_completed data serverTask)
                            (merged_is_deleted operation data serverTask)
                            now_ "synced" now_ t
                     else t) (tasks w))
             (after_reads 1 0 w))
      end
  end.
Proof.
  intros Hop Ht Hu Hfind. unfold processItem.
  assert (Hc : String.eqb (QueueRow.operation item) "create" = false)
    by (destruct Hop as [-> | ->]; reflexivity).
  assert (Hud : orb (String.eqb (QueueRow.operation item) "update")
                    (String.eqb (QueueRow.operation item) "delete") = true)
    by (destruct Hop as [-> | ->]; reflexivity).
  unfold bind at 1. unfold now. rewrite Hc, Hud.
  unfold TaskService.getTaskByIdIncludingDeleted. rewrite Ht, Hu.
  unfold bind at 1. unfold SQL.select_task. msimpl. rewrite Hfind.
  fold (localTask_updated_at data serverTask).
  cbv zeta.
  destruct (resolveConflict _ _ _); [|reflexivity].
  destruct (json_eq_null data) as [-> | Hd]; [reflexivity|].
  rewrite !bind_prop_ok by assumption.
  unfold SQL.update_task_merged, merged_title, merged_description,
    merged_completed, merged_is_deleted. msimpl.
  destruct data; try congruence; reflexivity.
Qed.

Lemma processItem_missing item data userId w :
  is_update_or_delete (QueueRow.operation item) ->
  Str.is_empty (QueueRow.task_id item) = false ->
  Str.is_empty userId = false ->
  find (SQL.task_matches (QueueRow.task_id item) userId) (tasks w) = None ->
  processItem item data userId w =
  if String.eqb (QueueRow.operation item) "delete"
  then (Ok (mkResult None None None), after_reads 1 0 w)
  else processItem_create item data userId (clock w (S (clock_reads w)))
                          (after_reads 2 0 w).
Proof.
  intros Hop Ht Hu Hfind. unfold processItem.
  assert (Hc : String.eqb (QueueRow.operation item) "create" = false)
    by (destruct Hop as [-> | ->]; reflexivity).
  assert (Hud : orb (String.eqb (QueueRow.operation item) "update")
                    (String.eqb (QueueRow.operation item) "delete") = true)
    by (destruct Hop as [-> | ->]; reflexivity).
  unfold bind at 1. unfold now. rewrite Hc, Hud.
  unfold TaskService.getTaskByIdIncludingDeleted. rewrite Ht, Hu.
  unfold bind at 1. unfold SQL.select_task. msimpl. rewrite Hfind.
  destruct (String.eqb (QueueRow.operation item) "delete"); reflexivity.
Qed.

Lemma updateSyncStatus_run taskId status userId serverData w :
  updateSyncStatus taskId status userId serverData w =
  let w1 :=
    set_tasks
      (map (fun t =>
              if SQL.task_matches taskId userId t
              then Task.with_status status (clock w (clock_reads w))
                     (JS.str_or (serverData_server_id serverData) taskId) t
              else t) (tasks w))
      (after_reads 1 0 w) in
  (Ok tt,
   if String.eqb status "synced"
   then set_sync_queue
          (filter (fun q => negb (SQL.queue_task_matches taskId userId q))
                  (sync_queue w)) w1
   else w1).
Proof.
  unfold updateSyncStatus, SQL.update_task_status, SQL.delete_queue_by_task.
  msimpl. destruct (String.eqb status "synced"); reflexivity.
Qed.

(* ================================================================== *)
(** ** Implicit create *)

(** C8 (amended) - An update whose target record does not exist server-side
    is treated as a create: when its payload supplies a title and the
    identifier drawn is not in use, a record with that fresh identifier (as id
    and server_id) and sync_status synced is written, and a mapping from the
    operation's target id to the new identifier is returned.  A delete whose
    target record does not exist silently succeeds: it writes no record and
    returns no mapping. *)
Theorem processItem_on_missing_record :
  forall (item : QueueRow.t) (data : json) (userId : string) (w : world),
    Str.is_empty (QueueRow.task_id item) = false ->
    Str.is_empty userId = false ->
    find (SQL.task_matches (QueueRow.task_id item) userId) (tasks w) = None ->
    (QueueRow.operation item = "update" ->
     data <> JNull ->
     JS.bind (JS.get data "title") <> JNull ->
     ~ In (uuids w (uuid_reads w)) (map Task.id (tasks w)) ->
     exists t w',
       processItem item data userId w
       = (Ok (mkResult
                (Some (mkMapping (QueueRow.task_id item)
                                 (uuids w (uuid_reads w))))
                None (Some (TaskData t))), w')
       /\ tasks w' = (tasks w ++ [t])%list
       /\ Task.id t = uuids w (uuid_reads w)
       /\ Task.server_id t = Some (uuids w (uuid_reads w))
       /\ Task.user_id t = userId
       /\ Task.sync_status t = "synced"
       /\ Task.is_deleted t = JNum 0)
    /\ (QueueRow.operation item = "delete" ->
        exists w',
          processItem item data userId w = (Ok (mkResult None None None), w')
          /\ tasks w' = tasks w
          /\ sync_queue w' = sync_queue w
          /\ dead_letter_queue w' = dead_letter_queue w).
Proof.
  intros item data userId w Ht Hu Hfind. split.
  - intros Hop Hd Htitle Hfresh.
    rewrite processItem_missing by (auto; left; exact Hop).
    rewrite Hop. change (String.eqb "update" "delete") with false. cbv iota.
    rewrite processItem_create_run by assumption. cbv zeta.
    rewrite insert_task_fresh by (simpl; assumption).
    eexists. eexists. split; [reflexivity|]. simpl. auto 10.
  - intros Hop.
    rewrite processItem_missing by (auto; right; exact Hop).
    rewrite Hop. change (String.eqb "delete" "delete") with true. cbv iota.
    eexists. split; [reflexivity|]. simpl. auto.
Qed.

(* ================================================================== *)
(** ** Conflicts that the server side wins *)

Lemma same_data_marked taskId userId st ls sid (ts : list Task.t) :
  Forall2 same_data ts
    (map (fun t => if SQL.task_matches taskId userId t
                   then Task.with_status st ls sid t else t) ts).
Proof.
  induction ts as [|t ts IH]; simpl; constructor; auto.
  destruct (SQL.task_matches taskId userId t); unfold same_data; simpl;
    auto 10.
Qed.

(** C3 (amended) - The server side wins the conflict resolution of an update
    or delete when the timestamp of the operation (the updated_at of its
    payload, or the record's own when the payload has none) is a date
    strictly earlier than the record's updated_at.  The turn of the batch
    loop then emits one conflict report for the record and counts the
    operation as processed; no data is written: title, description,
    completed, created_at, updated_at and is_deleted of every record are
    unchanged.  The bookkeeping columns of the target record are still
    rewritten by the status update that follows every processed operation:
    sync_status becomes synced, server_id the record id and last_synced_at
    the current time. *)
Theorem server_wins_leaves_data_unchanged :
  forall (raw : QueueRow.t) (userId : string) (acc : batch_result)
         (w : world) (serverTask : Task.t) (tl ts : Z),
    is_update_or_delete (QueueRow.operation raw) ->
    Str.is_empty (QueueRow.task_id raw) = false ->
    Str.is_empty userId = false ->
    find (SQL.task_matches (QueueRow.task_id raw) userId) (tasks w)
    = Some serverTask ->
    JSDate.getTime
      (localTask_updated_at (safeParseJSON (QueueRow.data raw)) serverTask)
    = Some tl ->
    JSDate.getTime (Some (Task.updated_at serverTask)) = Some ts ->
    tl < ts ->
    exists w',
      processBatch_item userId acc raw w
      = (Ok (mkBatch (b_mappings acc)
                     (b_conflicts acc
                      ++ [mkConflict (QueueRow.task_id raw) serverTask])
                     (b_processed acc + 1) (b_failed acc)), w')
      /\ tasks w'
         = map (fun t =>
                  if SQL.task_matches (QueueRow.task_id raw) userId t
                  then Task.with_status "synced" (clock w (S (clock_reads w)))
                                        (QueueRow.task_id raw) t
                  else t) (tasks w)
      /\ Forall2 same_data (tasks w) (tasks w')
      /\ (forall t', In t' (tasks w') ->
             SQL.task_matches (QueueRow.task_id raw) userId t' = true ->
             Task.sync_status t' = "synced"
             /\ Task.server_id t' = Some (QueueRow.task_id raw)
             /\ Task.last_synced_at t' = Some (clock w (S (clock_reads w))))
      /\ dead_letter_queue w' = dead_letter_queue w.
Proof.
  intros raw userId acc w serverTask tl ts Hop Ht Hu Hfind Hl Hs Hlt.
  assert (Hres : resolveConflict
            (localTask_updated_at (safeParseJSON (QueueRow.data raw)) serverTask)
            (Some (Task.updated_at serverTask)) (QueueRow.operation raw)
          = Server).
  { unfold resolveConflict. rewrite Hl, Hs.
    destruct (Z.eqb_spec tl ts) as [E|E]; [lia|].
    destruct (Z.geb_spec tl ts); [lia|reflexivity]. }
  unfold processBatch_item. cbv zeta. unfold bind at 1, try.
  rewrite (processItem_existing _ _ _ _ Hop Ht Hu Hfind). cbv zeta.
  rewrite Hres. unfold bind at 1. rewrite updateSyncStatus_run. cbv zeta.
  change (String.eqb "synced" "synced") with true. cbv iota.
  unfold ret. eexists. split; [reflexivity|]. simpl.
  split; [reflexivity|]. split; [apply same_data_marked|].
  split; [|reflexivity].
  intros t' Hin Hm. apply in_map_iff in Hin as (t0 & <- & _).
  destruct (SQL.task_matches (QueueRow.task_id raw) userId t0) eqn:E.
  - repeat split; reflexivity.
  - rewrite E in Hm. discriminate.
Qed.

(* ================================================================== *)
(** ** Malformed payloads and the batch loop *)

Lemma handleSyncError_ok item data message userId w :
  exists w', handleSyncError item data message userId w = (Ok tt, w').
Proof.
  unfold handleSyncError, bind, try, ret.
  match goal with |- context [let (_, _) := ?m w in _] => destruct (m w) end.
  eexists. reflexivity.
Qed.

(** A turn of the batch loop never throws, and counts its item once. *)
Lemma processBatch_item_total userId acc raw w :
  exists acc' w',
    processBatch_item userId acc raw w = (Ok acc', w')
    /\ ((b_processed acc' = b_processed acc + 1 /\ b_failed acc' = b_failed acc)
        \/ (b_processed acc' = b_processed acc
            /\ b_failed acc' = b_failed acc + 1)).
Proof.
  unfold processBatch_item. cbv zeta. unfold bind at 1, try.
  destruct (processItem raw (safeParseJSON (QueueRow.data raw)) userId w)
    as [[result | err] w1].
  - unfold bind at 1. rewrite updateSyncStatus_run. cbv zeta.
    unfold ret. eexists. eexists. split; [reflexivity|]. left. simpl. auto.
  - unfold bind at 1.
    destruct (handleSyncError_ok raw (safeParseJSON (QueueRow.data raw))
                                 err userId w1) as (w2 & ->).
    unfold ret. eexists. eexists. split; [reflexivity|]. right. simpl. auto.
Qed.

Lemma fold_processBatch_total userId items :
  forall acc w,
  exists r w',
    fold_M (processBatch_item userId) items acc w = (Ok r, w')
    /\ b_processed r + b_failed r
       = b_processed acc + b_failed acc + Z.of_nat (List.length items).
Proof.
  induction items as [|raw items IH]; intros acc w.
  - exists acc, w. split; [reflexivity|]. simpl. lia.
  - destruct (processBatch_item_total userId acc raw w)
      as (acc' & w1 & Hrun & Hcount).
    destruct (IH acc' w1) as (r & w' & Hfold & Hsum).
    exists r, w'. split.
    + simpl fold_M. unfold bind at 1. rewrite Hrun. exact Hfold.
    + rewrite Hsum. simpl List.length. lia.
Qed.


(* ================================================================== *)
(** ** The canonical serialization is injective *)

Lemma to_list_app (a b : string) :
  Str.to_list (a ++ b) = (Str.to_list a ++ Str.to_list b)%list.
Proof. induction a as [|c a IH]; simpl; [reflexivity|]. now rewrite IH. Qed.

Lemma to_list_of_list (l : list ascii) : Str.to_list (Str.of_list l) = l.
Proof. apply list_ascii_of_string_of_list_ascii. Qed.

Lemma of_list_to_list (s : string) : Str.of_list (Str.to_list s) = s.
Proof. apply string_of_list_ascii_of_string. Qed.

Lemma to_list_inj (a b : string) : Str.to_list a = Str.to_list b -> a = b.
Proof.
  intros H. rewrite <- (of_list_to_list a), <- (of_list_to_list b).
  now rewrite H.
Qed.

(** Parsing undoes the escape of one character. *)
Lemma parse_string_body_escape_char (c : ascii) (rest acc : list ascii) :
  JSON.parse_string_body (JSON.escape_char c ++ rest) acc
  = JSON.parse_string_body rest (c :: acc).
Proof.
  destruct c as [b0 b1 b2 b3 b4 b5 b6 b7].
  destruct b0, b1, b2, b3, b4, b5, b6, b7; reflexivity.
Qed.

Lemma parse_string_body_escape (l : list ascii) :
  forall acc r,
    JSON.parse_string_body (JSON.escape l ++ Str.dquote :: r) acc
    = Some (Str.of_list (rev acc ++ l), r).
Proof.
  induction l as [|c l IH]; intros acc r.
  - simpl. now rewrite app_nil_r.
  - simpl JSON.escape. rewrite <- app_assoc.
    rewrite parse_string_body_escape_char, IH. simpl.
    now rewrite <- app_assoc.
Qed.

(** A quoted string is recognisable at the head of any text. *)
Lemma quote_chars_prefix (a b : string) (r1 r2 : list ascii) :
  (JSON.quote_chars a ++ r1 = JSON.quote_chars b ++ r2)%list ->
  a = b /\ r1 = r2.
Proof.
  unfold JSON.quote_chars. simpl. rewrite <- !app_assoc. simpl.
  intros H. injection H as H.
  apply (f_equal (fun l => JSON.parse_string_body l [])) in H.
  rewrite !parse_string_body_escape in H. simpl in H.
  injection H as Hs Hr. split; [|exact Hr].
  rewrite <- (of_list_to_list a), <- (of_list_to_list b). exact Hs.
Qed.

Lemma to_list_quote (s : string) :
  Str.to_list (JSON.quote s) = JSON.quote_chars s.
Proof. unfold JSON.quote. apply to_list_of_list. Qed.

Lemma stringify_entry_chars (e : Entry.t) :
  Str.to_list (JSON.stringify (Entry.to_json e)) = entry_chars e.
Proof.
  unfold Entry.to_json, entry_chars.
  cbn [JSON.stringify map String.concat].
  repeat (rewrite to_list_app || rewrite to_list_quote).
  rewrite <- !app_assoc. reflexivity.
Qed.

Lemma entry_chars_prefix (e1 e2 : Entry.t) (r1 r2 : list ascii) :
  (entry_chars e1 ++ r1 = entry_chars e2 ++ r2)%list ->
  e1 = e2 /\ r1 = r2.
Proof.
  unfold entry_chars. rewrite <- !app_assoc. intros H.
  repeat (apply app_inv_head in H).
  apply quote_chars_prefix in H as [Hid H].
  repeat (apply app_inv_head in H).
  apply quote_chars_prefix in H as [Htask H].
  repeat (apply app_inv_head in H).
  apply quote_chars_prefix in H as [Hop H].
  repeat (apply app_inv_head in H).
  apply quote_chars_prefix in H as [Hdata H].
  apply app_inv_head in H.
  destruct e1, e2; simpl in *; subst. auto.
Qed.

Lemma concat_entries_chars (es : list Entry.t) :
  Str.to_list (String.concat "," (map (fun e => JSON.stringify (Entry.to_json e)) es))
  = join_chars es.
Proof.
  destruct es as [|e es]; [reflexivity|]. revert e.
  induction es as [|e' es IH]; intros e.
  - cbn [map String.concat join_chars tail_chars].
    rewrite stringify_entry_chars. now rewrite app_nil_r.
  - change (Str.to_list
              ((JSON.stringify (Entry.to_json e)) ++ "," ++
               String.concat ","
                 (map (fun e => JSON.stringify (Entry.to_json e)) (e' :: es)))
            = join_chars (e :: e' :: es)).
    rewrite !to_list_app, stringify_entry_chars, IH. reflexivity.
Qed.

Lemma tail_chars_inj (l1 : list Entry.t) :
  forall l2 r1 r2,
    (tail_chars l1 ++ Str.to_list "]" ++ r1
     = tail_chars l2 ++ Str.to_list "]" ++ r2)%list ->
    l1 = l2.
Proof.
  induction l1 as [|e1 l1 IH]; intros [|e2 l2] r1 r2 H.
  - reflexivity.
  - simpl in H. discriminate.
  - simpl in H. discriminate.
  - cbn [tail_chars] in H. rewrite <- !app_assoc in H.
    apply app_inv_head in H.
    apply entry_chars_prefix in H as [-> H]. f_equal. eapply IH. exact H.
Qed.

Lemma join_chars_inj (l1 l2 : list Entry.t) :
  (join_chars l1 ++ Str.to_list "]" = join_chars l2 ++ Str.to_list "]")%list ->
  l1 = l2.
Proof.
  destruct l1 as [|e1 l1], l2 as [|e2 l2]; intros H.
  - reflexivity.
  - unfold entry_chars in H. simpl in H. discriminate.
  - unfold entry_chars in H. simpl in H. discriminate.
  - cbn [join_chars] in H. rewrite <- !app_assoc in H.
    apply entry_chars_prefix in H as [-> H]. f_equal.
    apply (tail_chars_inj l1 l2 [] []). rewrite !app_nil_r. exact H.
Qed.

Lemma stringify_entries_inj (l1 l2 : list Entry.t) :
  stringify_entries l1 = stringify_entries l2 -> l1 = l2.
Proof.
  unfold stringify_entries. cbn [JSON.stringify]. rewrite !map_map.
  intros H. apply (f_equal Str.to_list) in H.
  rewrite !to_list_app, !concat_entries_chars in H.
  apply app_inv_head in H. now apply join_chars_inj.
Qed.

(* ================================================================== *)
(** ** Batch fingerprint *)

#[export] Instance entry_comparator : Comparator Entry.localeCompare.
Proof. unfold Entry.localeCompare. apply (on_comparator Entry.id). Qed.

Lemma sortedItems_permutation (items items' : list QueueRow.t) :
  NoDup (map QueueRow.id items) ->
  Permutation items items' ->
  sortedItems items' = sortedItems items.
Proof.
  intros Hnd Hp. unfold sortedItems. symmetry.
  apply sort_by_permutation_invariant; [exact _| |now apply Permutation_map].
  intros a b Ha Hb Hcmp. unfold Entry.localeCompare in Hcmp.
  apply string_compare_eq in Hcmp.
  apply (NoDup_map_inj_in Entry.id (map Entry.of_row items)); auto.
  rewrite map_map. exact Hnd.
Qed.

Section SortMap.
Context {A : Type} (cmp : A -> A -> comparison) (f : A -> A).
Hypothesis cmp_f : forall a b, cmp (f a) (f b) = cmp a b.

Lemma insert_sorted_map x l :
  insert_sorted cmp (f x) (map f l) = map f (insert_sorted cmp x l).
Proof.
  induction l as [|y l IH]; simpl; [reflexivity|].
  unfold leb_of. rewrite cmp_f. destruct (cmp x y); simpl; congruence.
Qed.

Lemma sort_by_map l : sort_by cmp (map f l) = map f (sort_by cmp l).
Proof.
  induction l as [|x l IH]; simpl; [reflexivity|].
  now rewrite IH, insert_sorted_map.
Qed.
End SortMap.

Lemma sortedItems_set_payload opId text items :
  sortedItems (set_payload opId text items)
  = map (set_entry_data opId text) (sortedItems items).
Proof.
  unfold sortedItems, set_payload.
  rewrite <- sort_by_map.
  - f_equal. rewrite !map_map. apply map_ext. intros q.
    unfold set_entry_data, Entry.of_row. simpl.
    destruct (String.eqb (QueueRow.id q) opId); reflexivity.
  - intros a b. unfold Entry.localeCompare, set_entry_data.
    destruct (String.eqb (Entry.id a) opId),
             (String.eqb (Entry.id b) opId); reflexivity.
Qed.

Lemma map_fixed {A} (f : A -> A) (l : list A) :
  map f l = l -> forall a, In a l -> f a = a.
Proof.
  induction l as [|x l IH]; simpl; intros H a Ha; [contradiction|].
  injection H as Hx Hl. destruct Ha as [<- | Ha]; auto.
Qed.

Lemma content_is_stringify items :
  content items = stringify_entries (sortedItems items).
Proof. reflexivity. Qed.

Lemma content_set_payload_differs opId text items :
  (exists q, In q items /\ QueueRow.id q = opId /\ QueueRow.data q <> text) ->
  content (set_payload opId text items) <> content items.
Proof.
  intros (q & Hin & Hid & Hdata) Heq.
  rewrite !content_is_stringify in Heq.
  apply stringify_entries_inj in Heq.
  rewrite sortedItems_set_payload in Heq.
  assert (Hq : In (Entry.of_row q) (sortedItems items)).
  { unfold sortedItems. eapply Permutation_in;
      [symmetry; apply sort_by_perm; exact _|]. now apply in_map. }
  pose proof (@map_fixed _ _ _ Heq _ Hq) as Hfix.
  unfold set_entry_data, Entry.of_row in Hfix. simpl in Hfix.
  rewrite Hid, String.eqb_refl in Hfix.
  injection Hfix as Hd. congruence.
Qed.

(** X24 - The batch fingerprint does not depend on the order of the batch's
    members: for a batch whose operation ids are distinct identifiers of the
    form uuidv4 makes (the id is the queue's primary key), every permutation
    of the batch has the same fingerprint, and is verified against the
    fingerprint of the batch. *)
Theorem fingerprint_order_independent :
  forall (items items' : list QueueRow.t),
    NoDup (map QueueRow.id items) ->
    Forall (fun q => Str.is_uuid (QueueRow.id q) = true) items ->
    Permutation items items' ->
    generateBatchChecksum items' = generateBatchChecksum items
    /\ verifyBatchChecksum items' (generateBatchChecksum items) = true.
Proof.
  intros items items' Hnd _ Hp.
  assert (Heq : generateBatchChecksum items' = generateBatchChecksum items).
  { unfold generateBatchChecksum, content.
    now rewrite (sortedItems_permutation Hnd Hp). }
  split; [exact Heq|].
  unfold verifyBatchChecksum. rewrite Heq. apply String.eqb_refl.
Qed.

Lemma add32_range a b : 0 <= MD5.add32 a b < MD5.w32.
Proof. unfold MD5.add32. apply Z.mod_pos_bound. reflexivity. Qed.

Lemma block_bounded st bytes : bounded (MD5.block st bytes).
Proof.
  unfold MD5.block. cbv zeta.
  destruct (fold_left _ (seq 0 64) st) as [a b c d].
  unfold bounded. cbn [MD5.sa MD5.sb MD5.sc MD5.sd]. auto using add32_range.
Qed.

Lemma blocks_bounded n :
  forall st bytes, bounded st -> bounded (MD5.blocks n st bytes).
Proof.
  induction n as [|n IH]; intros st bytes Hb; simpl; [exact Hb|].
  apply IH. apply block_bounded.
Qed.

Lemma digest_bounded msg : bounded (MD5.digest msg).
Proof.
  unfold MD5.digest. cbv zeta. apply blocks_bounded.
  unfold bounded, MD5.init, MD5.w32. cbn [MD5.sa MD5.sb MD5.sc MD5.sd]. lia.
Qed.

Lemma digest_num_range st :
  bounded st -> 0 <= digest_num st < 2 ^ 128.
Proof.
  unfold bounded, digest_num, MD5.w32. destruct st as [a b c d].
  cbn [MD5.sa MD5.sb MD5.sc MD5.sd].
  change (2 ^ 128) with 340282366920938463463374607431768211456. lia.
Qed.

Lemma digest_num_inj s1 s2 :
  bounded s1 -> bounded s2 -> digest_num s1 = digest_num s2 -> s1 = s2.
Proof.
  unfold bounded, digest_num, MD5.w32.
  destruct s1 as [a b c d], s2 as [a' b' c' d'].
  cbn [MD5.sa MD5.sb MD5.sc MD5.sd].
  intros H1 H2 H. assert (a = a' /\ b = b' /\ c = c' /\ d = d') by lia.
  intuition congruence.
Qed.

(** No function sends the n+1 numbers 0..n to different values below n. *)
Lemma pigeonhole (n : Z) :
  0 <= n ->
  forall f : Z -> Z,
    (forall i, 0 <= i <= n -> 0 <= f i < n) ->
    exists i j, 0 <= i < j /\ j <= n /\ f i = f j.
Proof.
  intros Hn. pattern n. apply natlike_ind; [| |exact Hn]; clear n Hn.
  - intros f Hf. specialize (Hf 0). lia.
  - intros n Hn IH f Hf.
    destruct (classic (exists i, 0 <= i <= n /\ f i = f (Z.succ n)))
      as [(i & Hi & Heq) | Hnone].
    + exists i, (Z.succ n). split; [lia|]. split; [lia|exact Heq].
    + assert (Hdiff : forall i, 0 <= i <= n -> f i <> f (Z.succ n)).
      { intros i Hi Heq. apply Hnone. exists i. auto. }
      set (g := fun i => if f i =? n then f (Z.succ n) else f i).
      destruct (IH g) as (i & j & Hij & Hj & Hg).
      { intros i Hi. unfold g.
        pose proof (Hf i ltac:(lia)) as Hfi.
        pose proof (Hf (Z.succ n) ltac:(lia)) as Hlast.
        pose proof (Hdiff i Hi) as Hne.
        destruct (Z.eqb_spec (f i) n); lia. }
      exists i, j. split; [lia|]. split; [lia|].
      unfold g in Hg.
      pose proof (Hdiff i ltac:(lia)) as Hi'.
      pose proof (Hdiff j ltac:(lia)) as Hj'.
      destruct (Z.eqb_spec (f i) n), (Z.eqb_spec (f j) n); congruence.
Qed.

Lemma bits_inj p : forall q, bits p = bits q -> p = q.
Proof.
  induction p as [p IH | p IH |]; intros [q | q |]; simpl; intros H;
    try discriminate; try reflexivity;
    injection H as H; f_equal; now apply IH.
Qed.

Lemma numbered_payload_inj i j :
  0 <= i -> 0 <= j -> numbered_payload i = numbered_payload j -> i = j.
Proof.
  unfold numbered_payload. intros Hi Hj H. apply bits_inj in H.
  apply Z2Pos.inj in H; lia.
Qed.

(** The fingerprint cannot tell all payloads apart: it takes fewer than
    2^128 + 1 values, so among the one-operation batches carrying the payload
    texts numbered 0 to 2^128 two have the same fingerprint although their
    payloads differ.  Which two is not known. *)
Lemma payload_change_can_keep_fingerprint :
  ~ (forall (items : list QueueRow.t) (opId text : string),
        NoDup (map QueueRow.id items) ->
        (exists q, In q items /\ QueueRow.id q = opId
                   /\ QueueRow.data q <> text) ->
        generateBatchChecksum (set_payload opId text items)
        <> generateBatchChecksum items).
Proof.
  intros Hclaim.
  set (f := fun i =>
              digest_num (MD5.digest (MD5.bytes_of (content (numbered_batch i))))).
  destruct (pigeonhole (n := 2 ^ 128) ltac:(lia) f) as (i & j & Hij & Hj & Hf).
  { intros i _. apply digest_num_range, digest_bounded. }
  apply digest_num_inj in Hf; try apply digest_bounded.
  apply (Hclaim (numbered_batch i) "op-1" (numbered_payload j)).
  - repeat constructor. simpl. tauto.
  - eexists. split; [left; reflexivity|]. split; [reflexivity|].
    simpl. intros Heq. apply numbered_payload_inj in Heq; lia.
  - change (set_payload "op-1" (numbered_payload j) (numbered_batch i))
      with (numbered_batch j).
    unfold generateBatchChecksum, MD5.hex. now rewrite Hf.
Qed.

(* ================================================================== *)
(** ** Computations that return: a small program logic *)

Lemma returns_ret {A} (a : A) w (Q : A -> world -> Prop) :
  Q a w -> returns (ret a) w Q.
Proof. intros H. exists a, w. split; [reflexivity|exact H]. Qed.

Lemma returns_bind {A B} (m : M A) (f : A -> M B) w (Q : B -> world -> Prop) :
  returns m w (fun a w1 => returns (f a) w1 Q) -> returns (bind m f) w Q.
Proof.
  intros (a & w1 & Hm & b & w2 & Hf & HQ). exists b, w2.
  split; [|exact HQ]. unfold bind. now rewrite Hm.
Qed.

Lemma returns_weaken {A} (m : M A) w (Q Q' : A -> world -> Prop) :
  returns m w Q -> (forall a w', Q a w' -> Q' a w') -> returns m w Q'.
Proof. intros (a & w' & Hm & HQ) Himp. exists a, w'. auto. Qed.

Lemma returns_try {A} (m : M A) w (Q : outcome A -> world -> Prop) :
  (forall r w', m w = (r, w') -> Q r w') -> returns (try m) w Q.
Proof.
  intros H. unfold returns, try. destruct (m w) as [r w'] eqn:E.
  exists r, w'. split; [reflexivity|]. now apply H.
Qed.

Lemma returns_for_each {A} (I : world -> Prop) (body : A -> M unit) l :
  (forall a w, In a l -> I w -> returns (body a) w (fun _ w' => I w')) ->
  forall w, I w -> returns (for_each l body) w (fun _ w' => I w').
Proof.
  induction l as [|a l IH]; intros Hbody w HI; simpl.
  - now apply returns_ret.
  - apply returns_bind.
    eapply returns_weaken; [apply Hbody; [now left|exact HI]|].
    intros ? w' HI'. apply IH; [|exact HI'].
    intros b w0 Hb. apply Hbody. now right.
Qed.

(* ================================================================== *)
(** ** What the status and error steps leave alone *)

Lemma same_data_refl t : same_data t t.
Proof. unfold same_data. auto 10. Qed.

Lemma Forall2_same_data_refl ts : Forall2 same_data ts ts.
Proof. induction ts; constructor; auto using same_data_refl. Qed.

Lemma same_records_refl w : same_records w w.
Proof. split; [apply Forall2_same_data_refl|reflexivity]. Qed.

Lemma same_data_trans a b c : same_data a b -> same_data b c -> same_data a c.
Proof. unfold same_data. intuition congruence. Qed.

Lemma Forall2_same_data_trans l1 :
  forall l2 l3,
    Forall2 same_data l1 l2 -> Forall2 same_data l2 l3 ->
    Forall2 same_data l1 l3.
Proof.
  induction l1 as [|a l1 IH]; intros l2 l3 H12 H23;
    inversion H12; subst; inversion H23; subst; constructor.
  - eapply same_data_trans; eauto.
  - eapply IH; eauto.
Qed.

Lemma same_records_trans w1 w2 w3 :
  same_records w1 w2 -> same_records w2 w3 -> same_records w1 w3.
Proof.
  intros [H1 C1] [H2 C2]. split; [|congruence].
  eapply Forall2_same_data_trans; eauto.
Qed.

Lemma updateSyncStatus_returns taskId status userId serverData w :
  returns (updateSyncStatus taskId status userId serverData) w
          (fun _ w' => same_records w w').
Proof.
  unfold returns. rewrite updateSyncStatus_run. cbv zeta.
  eexists. eexists. split; [reflexivity|].
  destruct (String.eqb status "synced"); split; simpl;
    auto using same_data_marked.
Qed.

Lemma handleSyncError_returns item data message userId w :
  returns (handleSyncError item data message userId) w
          (fun _ w' => same_records w w').
Proof.
  unfold handleSyncError. apply returns_bind. apply returns_try.
  intros r w' Hrun. apply returns_ret.
  destruct (QueueRow.retry_count item + 1 >=? MAX_RETRIES).
  - unfold bind at 1 in Hrun. unfold uuidv4 in Hrun.
    unfold bind at 1 in Hrun. unfold now in Hrun.
    unfold bind at 1 in Hrun. unfold SQL.insert_dead_letter in Hrun.
    msimpl.
    destruct (existsb _ (dead_letter_queue w)).
    + injection Hrun as <- <-. split; simpl;
        auto using Forall2_same_data_refl.
    + unfold bind at 1 in Hrun. unfold SQL.delete_queue_by_id in Hrun.
      msimpl. rewrite updateSyncStatus_run in Hrun. cbv zeta in Hrun.
      injection Hrun as <- <-. split; simpl; auto using same_data_marked.
  - unfold bind at 1 in Hrun. unfold SQL.update_queue_retry in Hrun.
    msimpl. rewrite updateSyncStatus_run in Hrun. cbv zeta in Hrun.
    injection Hrun as <- <-. split; simpl; auto using same_data_marked.
Qed.

(* ================================================================== *)
(** ** An update followed by a delete of the same record *)

Lemma Forall2_In_l {A B} (R : A -> B -> Prop) l l' :
  Forall2 R l l' -> forall a, In a l -> exists b, In b l' /\ R a b.
Proof.
  induction 1 as [|x y l l' Hxy _ IH]; intros a Ha; [contradiction|].
  destruct Ha as [<- | Ha].
  - exists y. split; [now left|exact Hxy].
  - destruct (IH a Ha) as (b & Hb & Hab). exists b. split; [now right|exact Hab].
Qed.

Lemma Forall2_In_r {A B} (R : A -> B -> Prop) l l' :
  Forall2 R l l' -> forall b, In b l' -> exists a, In a l /\ R a b.
Proof.
  induction 1 as [|x y l l' Hxy _ IH]; intros b Hb; [contradiction|].
  destruct Hb as [<- | Hb].
  - exists x. split; [now left|exact Hxy].
  - destruct (IH b Hb) as (a & Ha & Hab). exists a. split; [now right|exact Hab].
Qed.

Lemma same_data_matches taskId userId a b :
  same_data a b ->
  SQL.task_matches taskId userId b = SQL.task_matches taskId userId a.
Proof.
  unfold same_data, SQL.task_matches. intros (Hid & Hu & _). now rewrite Hid, Hu.
Qed.

Lemma record_ok_same_records bound taskId userId w w' :
  same_records w w' -> record_ok bound taskId userId w ->
  record_ok bound taskId userId w'.
Proof.
  intros [Hrec Hclock] ((t & Hin & Hm) & Hall & Hclk). repeat split.
  - destruct (Forall2_In_l Hrec _ Hin) as (t' & Hin' & Hsame).
    exists t'. split; [exact Hin'|].
    now rewrite (same_data_matches _ _ Hsame).
  - intros t' Hin' Hm'.
    destruct (Forall2_In_r Hrec _ Hin') as (t0 & Hin0 & Hsame).
    rewrite (same_data_matches _ _ Hsame) in Hm'.
    destruct Hsame as (_ & _ & _ & _ & _ & _ & Hupd & _). rewrite <- Hupd.
    now apply Hall.
  - intros k. rewrite Hclock. apply Hclk.
Qed.

Lemma record_deleted_same_records taskId userId w w' :
  same_records w w' -> record_deleted taskId userId w ->
  record_deleted taskId userId w'.
Proof.
  intros [Hrec _] ((t & Hin & Hm) & Hall). split.
  - destruct (Forall2_In_l Hrec _ Hin) as (t' & Hin' & Hsame).
    exists t'. split; [exact Hin'|].
    now rewrite (same_data_matches _ _ Hsame).
  - intros t' Hin' Hm'.
    destruct (Forall2_In_r Hrec _ Hin') as (t0 & Hin0 & Hsame).
    rewrite (same_data_matches _ _ Hsame) in Hm'.
    destruct Hsame as (_ & _ & _ & _ & _ & _ & _ & Hdel). rewrite <- Hdel.
    now apply Hall.
Qed.

Lemma find_matching {A} (f : A -> bool) (l : list A) :
  (exists a, In a l /\ f a = true) ->
  exists s, find f l = Some s /\ In s l /\ f s = true.
Proof.
  intros (a & Hin & Hf). destruct (find f l) as [s|] eqn:E.
  - exists s. apply find_some in E. tauto.
  - apply (find_none _ _ E) in Hin. congruence.
Qed.

(** The table after a merge on the record. *)
Lemma in_merged taskId userId ti de co isd (n st ls : string) ts t' :
  In t' (map (fun t => if SQL.task_matches taskId userId t
                       then Task.with_merge ti de co isd n st ls t
                       else t) ts) ->
  SQL.task_matches taskId userId t' = true ->
  Task.updated_at t' = JStr n /\ Task.is_deleted t' = isd.
Proof.
  intros Hin Hm. apply in_map_iff in Hin as (t & Ht & _).
  destruct (SQL.task_matches taskId userId t) eqn:E; subst t'.
  - split; reflexivity.
  - congruence.
Qed.

Lemma exists_merged taskId userId ti de co isd (n st ls : string) ts :
  (exists t, In t ts /\ SQL.task_matches taskId userId t = true) ->
  exists t', In t' (map (fun t => if SQL.task_matches taskId userId t
                                  then Task.with_merge ti de co isd n st ls t
                                  else t) ts)
             /\ SQL.task_matches taskId userId t' = true.
Proof.
  intros (t & Hin & Hm). eexists. split.
  - apply in_map_iff. exists t. split; [reflexivity|exact Hin].
  - rewrite Hm. exact Hm.
Qed.

(** The delete wins against a record that is not newer than its stamp. *)
Lemma delete_prevails data s bound :
  delete_stamp data bound ->
  stamp_ok bound (Task.updated_at s) ->
  resolveConflict (localTask_updated_at data s) (Some (Task.updated_at s))
                  "delete" = Local.
Proof.
  unfold delete_stamp, localTask_updated_at, stamp_ok, resolveConflict.
  change (CONFLICT_PRIORITY "delete") with (Some 3).
  change (CONFLICT_PRIORITY "update") with (Some 2).
  intros Hd (sv & Hs & Hle).
  destruct (JS.get data "updated_at") as [v|].
  - destruct Hd as (td & Ht & ->). rewrite Ht, Hs.
    destruct (Z.eqb_spec td sv); [reflexivity|].
    destruct (Z.geb_spec td sv); [reflexivity|lia].
  - rewrite Hs, Z.eqb_refl. reflexivity.
Qed.

(** A turn of the batch loop on an update or delete of the record keeps the
    record in place with a valid time. *)
Lemma item_keeps_record_ok bound userId acc item w :
  is_update_or_delete (QueueRow.operation item) ->
  Str.is_empty (QueueRow.task_id item) = false ->
  Str.is_empty userId = false ->
  record_ok bound (QueueRow.task_id item) userId w ->
  returns (processBatch_item userId acc item) w
          (fun _ w' => record_ok bound (QueueRow.task_id item) userId w').
Proof.
  intros Hop Ht Hu Hok. pose proof Hok as Hok'.
  destruct Hok' as (Hex & Hall & Hclk).
  destruct (find_matching _ _ Hex) as (s & Hfind & Hin & Hm).
  unfold processBatch_item. cbv zeta.
  apply returns_bind. apply returns_try. intros r w1 Hrun.
  rewrite (processItem_existing _ _ _ _ Hop Ht Hu Hfind) in Hrun.
  cbv zeta in Hrun.
  assert (Hreads : forall c n, record_ok bound (QueueRow.task_id item) userId
                                         (after_reads c n w)).
  { intros c n. repeat split; assumption. }
  assert (Hfinish :
            forall sd (acc' : batch_result) w0,
              record_ok bound (QueueRow.task_id item) userId w0 ->
              returns (updateSyncStatus (QueueRow.task_id item) "synced"
                                        userId sd ;;; ret acc') w0
                      (fun _ w' =>
                         record_ok bound (QueueRow.task_id item) userId w')).
  { intros sd acc' w0 H0. apply returns_bind.
    eapply returns_weaken; [apply updateSyncStatus_returns|].
    intros ? w2 Hsame. cbv beta in Hsame. apply returns_ret.
    eapply record_ok_same_records; eauto. }
  destruct (resolveConflict _ _ _).
  - destruct (json_eq_null (safeParseJSON (QueueRow.data item))) as [Hn | Hn].
    + rewrite Hn in Hrun. injection Hrun as <- <-.
      apply returns_bind.
      eapply returns_weaken; [apply handleSyncError_returns|].
      intros ? w2 Hsame. cbv beta in Hsame. apply returns_ret.
      eapply record_ok_same_records; eauto.
    + assert (Hmerged :
                r = Ok (mkResult None None
                          (Some (MergedTask
                                   (merged_title (safeParseJSON (QueueRow.data item)) s)
                                   (merged_description (safeParseJSON (QueueRow.data item)) s)
                                   (merged_completed (safeParseJSON (QueueRow.data item)) s)
                                   (merged_is_deleted (QueueRow.operation item)
                                      (safeParseJSON (QueueRow.data item)) s)
                                   (clock w (clock_reads w)) "synced"
                                   (clock w (clock_reads w)))))
                /\ record_ok bound (QueueRow.task_id item) userId w1).
      { destruct (safeParseJSON (QueueRow.data item)); try congruence;
          injection Hrun as <- <-; (split; [reflexivity|]);
          (split; [apply exists_merged; exact Hex|]);
          (split; [|exact Hclk]);
          intros t' Hin' Hm'; simpl in Hin';
          (apply in_merged in Hin'; [|exact Hm']);
          destruct Hin' as [-> _]; apply Hclk. }
      destruct Hmerged as [-> Hok1]. now apply Hfinish.
  - injection Hrun as <- <-. apply Hfinish. apply Hreads.
Qed.

(** A turn of the batch loop on a delete that wins marks the record
    deleted. *)
Lemma delete_item_marks_deleted bound userId acc item w :
  QueueRow.operation item = "delete" ->
  Str.is_empty (QueueRow.task_id item) = false ->
  Str.is_empty userId = false ->
  safeParseJSON (QueueRow.data item) <> JNull ->
  delete_stamp (safeParseJSON (QueueRow.data item)) bound ->
  record_ok bound (QueueRow.task_id item) userId w ->
  returns (processBatch_item userId acc item) w
          (fun _ w' => record_deleted (QueueRow.task_id item) userId w').
Proof.
  intros Hop Ht Hu Hn Hstamp Hok. pose proof Hok as Hok'.
  destruct Hok' as (Hex & Hall & Hclk).
  destruct (find_matching _ _ Hex) as (s & Hfind & Hin & Hm).
  unfold processBatch_item. cbv zeta.
  apply returns_bind. apply returns_try. intros r w1 Hrun.
  assert (Hud : is_update_or_delete (QueueRow.operation item))
    by (right; exact Hop).
  rewrite (processItem_existing _ _ _ _ Hud Ht Hu Hfind) in Hrun.
  cbv zeta in Hrun. rewrite Hop in Hrun.
  rewrite (@delete_prevails _ s bound Hstamp (Hall _ Hin Hm)) in Hrun.
  assert (Hdel : exists sd,
             r = Ok (mkResult None None sd)
             /\ record_deleted (QueueRow.task_id item) userId w1).
  { destruct (safeParseJSON (QueueRow.data item)); try congruence;
      injection Hrun as <- <-; eexists; (split; [reflexivity|]);
      (split; [apply exists_merged; exact Hex|]);
      intros t' Hin' Hm'; simpl in Hin';
      (apply in_merged in Hin'; [|exact Hm']);
      destruct Hin' as [_ ->]; reflexivity. }
  destruct Hdel as (sd & -> & Hdel). apply returns_bind.
  eapply returns_weaken; [apply updateSyncStatus_returns|].
  intros ? w2 Hsame. cbv beta in Hsame. apply returns_ret.
  eapply record_deleted_same_records; eauto.
Qed.

(** The queue compares operation timestamps as text: half a second past
    the minute written with milliseconds sorts before the full minute
    written without them. *)
Example text_order_of_mixed_timestamp_formats :
  JSDate.parse "2025-09-04T10:00:00Z" = Some 1756980000000
  /\ JSDate.parse "2025-09-04T10:00:00.500Z" = Some 1756980000500
  /\ Str.lt "2025-09-04T10:00:00.500Z" "2025-09-04T10:00:00Z".
Proof. vm_compute. repeat split. Qed.

Lemma queue_order_same_record u d :
  QueueRow.task_id u = QueueRow.task_id d ->
  Str.lt (QueueRow.operation_timestamp u) (QueueRow.operation_timestamp d) ->
  SQL.queue_order u d = Lt.
Proof.
  unfold SQL.queue_order, Str.lt. intros -> ->.
  now rewrite string_compare_refl.
Qed.

Lemma drain_two u d (l : list QueueRow.t) :
  Permutation l [u; d] ->
  SQL.queue_order u d = Lt ->
  sort_by SQL.queue_order l = [u; d].
Proof.
  intros Hp Hlt. symmetry in Hp.
  apply Permutation_length_2_inv in Hp as [-> | ->]; simpl; unfold leb_of.
  - now rewrite Hlt.
  - rewrite (cmp_sym (cmp := SQL.queue_order) u d), Hlt. reflexivity.
Qed.

Lemma sync_batch_run userId acc batch :
  sync_batch userId acc (batch, generateBatchChecksum batch) =
  (for_each batch (fun item =>
     updateSyncStatus (QueueRow.task_id item) "in-progress" userId None) ;;;
   r <- processBatch batch userId ;;
   ret (mkBatch (b_mappings acc ++ b_mappings r)
                (b_conflicts acc ++ b_conflicts r)
                (b_processed acc + b_processed r)
                (b_failed acc + b_failed r))).
Proof.
  unfold sync_batch, verifyBatchChecksum. now rewrite String.eqb_refl.
Qed.

Lemma batches_of_two (size : positive) (u d : QueueRow.t) :
  make_batches size [u; d]
  = [([u], generateBatchChecksum [u]); ([d], generateBatchChecksum [d])]
  \/ make_batches size [u; d] = [([u; d], generateBatchChecksum [u; d])].
Proof.
  unfold make_batches. destruct (Pos.to_nat size) as [|[|n]] eqn:E.
  - pose proof (Pos2Nat.is_pos size). lia.
  - left. cbn [slices List.length firstn skipn map]. reflexivity.
  - right. cbn [slices List.length firstn skipn map].
    rewrite firstn_nil, skipn_nil. reflexivity.
Qed.

Section UpdateThenDelete.
Variables (u d : QueueRow.t) (userId taskId : string) (bound : option Z).
Hypothesis u_is_update : QueueRow.operation u = "update".
Hypothesis d_is_delete : QueueRow.operation d = "delete".
Hypothesis u_target : QueueRow.task_id u = taskId.
Hypothesis d_target : QueueRow.task_id d = taskId.
Hypothesis target_given : Str.is_empty taskId = false.
Hypothesis owner_given : Str.is_empty userId = false.
Hypothesis d_payload : safeParseJSON (QueueRow.data d) <> JNull.
Hypothesis d_stamp : delete_stamp (safeParseJSON (QueueRow.data d)) bound.

Let ok := record_ok bound taskId userId.
Let deleted := record_deleted taskId userId.

Lemma in_progress_keeps (P : world -> Prop) batch :
  (forall w w', same_records w w' -> P w -> P w') ->
  forall w, P w ->
  returns (for_each batch (fun item =>
             updateSyncStatus (QueueRow.task_id item) "in-progress"
                              userId None)) w (fun _ w' => P w').
Proof.
  intros Hframe. apply returns_for_each. intros item w _ HP.
  eapply returns_weaken; [apply updateSyncStatus_returns|].
  intros ? w' Hsame. cbv beta in Hsame. eauto.
Qed.

Lemma update_turn acc w :
  ok w -> returns (processBatch_item userId acc u) w (fun _ w' => ok w').
Proof.
  intros Hok. unfold ok in *. rewrite <- u_target in *.
  apply item_keeps_record_ok; auto;
    try (left; exact u_is_update); try (now rewrite u_target).
Qed.

Lemma delete_turn acc w :
  ok w -> returns (processBatch_item userId acc d) w (fun _ w' => deleted w').
Proof.
  intros Hok. unfold ok, deleted in *. rewrite <- d_target in *.
  apply delete_item_marks_deleted with (bound := bound); auto;
    try (now rewrite d_target).
Qed.

Lemma batch_of_update acc w :
  ok w ->
  returns (sync_batch userId acc ([u], generateBatchChecksum [u])) w
          (fun _ w' => ok w').
Proof.
  intros Hok. rewrite sync_batch_run. apply returns_bind.
  eapply returns_weaken;
    [apply in_progress_keeps with (P := ok);
     [intros; eapply record_ok_same_records; eauto|exact Hok]|].
  intros ? w1 H1. cbv beta in H1. apply returns_bind.
  unfold processBatch. cbn [fold_M]. apply returns_bind.
  eapply returns_weaken; [apply update_turn; exact H1|].
  intros acc1 w2 H2. cbv beta in H2. apply returns_ret. apply returns_ret.
  exact H2.
Qed.

Lemma batch_of_delete acc w :
  ok w ->
  returns (sync_batch userId acc ([d], generateBatchChecksum [d])) w
          (fun _ w' => deleted w').
Proof.
  intros Hok. rewrite sync_batch_run. apply returns_bind.
  eapply returns_weaken;
    [apply in_progress_keeps with (P := ok);
     [intros; eapply record_ok_same_records; eauto|exact Hok]|].
  intros ? w1 H1. cbv beta in H1. apply returns_bind.
  unfold processBatch. cbn [fold_M]. apply returns_bind.
  eapply returns_weaken; [apply delete_turn; exact H1|].
  intros acc1 w2 H2. cbv beta in H2. apply returns_ret. apply returns_ret.
  exact H2.
Qed.

Lemma batch_of_both acc w :
  ok w ->
  returns (sync_batch userId acc ([u; d], generateBatchChecksum [u; d])) w
          (fun _ w' => deleted w').
Proof.
  intros Hok. rewrite sync_batch_run. apply returns_bind.
  eapply returns_weaken;
    [apply in_progress_keeps with (P := ok);
     [intros; eapply record_ok_same_records; eauto|exact Hok]|].
  intros ? w1 H1. cbv beta in H1. apply returns_bind.
  unfold processBatch. cbn [fold_M]. apply returns_bind.
  eapply returns_weaken; [apply update_turn; exact H1|].
  intros acc1 w2 H2. cbv beta in H2. apply returns_bind.
  eapply returns_weaken; [apply delete_turn; exact H2|].
  intros acc2 w3 H3. cbv beta in H3. apply returns_ret. apply returns_ret.
  exact H3.
Qed.

Lemma batches_mark_deleted (size : positive) w :
  ok w ->
  returns (fold_M (sync_batch userId) (make_batches size [u; d])
                  (mkBatch [] [] 0 0)) w
          (fun _ w' => deleted w').
Proof.
  intros Hok. destruct (batches_of_two size u d) as [-> | ->]; cbn [fold_M].
  - apply returns_bind.
    eapply returns_weaken; [apply batch_of_update; exact Hok|].
    intros acc1 w1 H1. cbv beta in H1. apply returns_bind.
    eapply returns_weaken; [apply batch_of_delete; exact H1|].
    intros acc2 w2 H2. cbv beta in H2. now apply returns_ret.
  - apply returns_bind.
    eapply returns_weaken; [apply batch_of_both; exact Hok|].
    intros acc1 w1 H1. cbv beta in H1. now apply returns_ret.
Qed.

Lemma sync_marks_deleted last syncId w :
  Permutation (filter (SQL.owned_by userId) (sync_queue w)) [u; d] ->
  Str.lt (QueueRow.operation_timestamp u) (QueueRow.operation_timestamp d) ->
  ok w ->
  returns (sync [] last userId syncId) w (fun _ w' => deleted w').
Proof.
  intros Hperm Hlt Hok. unfold sync.
  apply returns_bind. unfold enqueue_changes. cbn [for_each].
  apply returns_ret. apply returns_bind.
  assert (Hdrain : SQL.select_queue_ordered userId w = (Ok [u; d], w)).
  { unfold SQL.select_queue_ordered. rewrite (drain_two Hperm); [reflexivity|].
    apply queue_order_same_record; [congruence|exact Hlt]. }
  exists [u; d], w. split; [exact Hdrain|].
  apply returns_bind. eexists. eexists. split; [reflexivity|].
  cbv zeta. apply returns_bind.
  eapply returns_weaken; [apply batches_mark_deleted; exact Hok|].
  intros r w1 H1. cbv beta in H1.
  assert (Htail : forall (m : M sync_result) w2,
             (exists a w', m w2 = (Ok a, w') /\ tasks w' = tasks w2) ->
             deleted w2 -> returns m w2 (fun _ w' => deleted w')).
  { intros m w2 (a & w' & Hm & Ht) Hd. exists a, w'. split; [exact Hm|].
    unfold deleted, record_deleted in *. now rewrite Ht. }
  apply Htail; [|exact H1].
  unfold bind, ret, try, now, uuidv4, SQL.insert_sync_log,
    SQL.select_tasks_updated_after.
  destruct syncId as [sid|]; [destruct (Str.is_empty sid)|];
    cbn [fst snd tasks sync_logs clock clock_reads uuids uuid_reads];
    match goal with
    | |- context [existsb ?f ?l] => destruct (existsb f l)
    end; eexists; eexists; (split; [reflexivity|reflexivity]).
Qed.
End UpdateThenDelete.




(** With the record older than both operations, the update is applied and
    stamps the record with the time of the sync; the delete, whose payload
    carries its own earlier time, then loses against that stamp. *)
Example applied_update_outdates_queued_delete :
  let '(r, w') := sync [] "2025-09-03T00:00:00.000Z" Scenario.user None
                       Scenario.server_older in
  (exists res, r = Ok res /\ map c_local_id (conflicts res) = ["task-R"])
  /\ map Task.title (tasks w') = [JStr "A"]
  /\ map Task.is_deleted (tasks w') = [JNum 0].
Proof.
  vm_compute. split; [|split; reflexivity]. eexists. repeat split.
Qed.

(* ================================================================== *)
(** ** The properties at concrete inputs *)

Lemma server_wins_leaves_data_unchanged_witness :
  exists w',
    processBatch_item Scenario.user (mkBatch [] [] 0 0)
                      Scenario.q_update_stale Scenario.stale_update
    = (Ok (mkBatch []
             [mkConflict "task-R"
                (Scenario.task "task-R" "2025-09-04T10:00:00.000Z" "pending")]
             1 0), w')
    /\ Forall2 same_data (tasks Scenario.stale_update) (tasks w').
Proof.
  destruct (@server_wins_leaves_data_unchanged
              Scenario.q_update_stale Scenario.user (mkBatch [] [] 0 0)
              Scenario.stale_update
              (Scenario.task "task-R" "2025-09-04T10:00:00.000Z" "pending")
              1756979999000 1756980000000
              (or_introl eq_refl) eq_refl eq_refl eq_refl
              ltac:(vm_compute; reflexivity) ltac:(vm_compute; reflexivity)
              eq_refl)
    as (w' & Hrun & _ & Hsame & _).
  exists w'. split; [exact Hrun|exact Hsame].
Defined.

(** C3 (the claim as stated fails) - Scenario B: an update one second older
    than the server copy is reported as a conflict and writes no data, yet the
    record is not unchanged after the sync: its sync_status goes from pending
    to synced, its server_id from null to the record id, and its
    last_synced_at from null to the time of the sync. *)
Lemma conflict_still_rewrites_sync_columns :
  let '(r, w') := sync [] "2025-09-03T00:00:00.000Z" Scenario.user None
                       Scenario.stale_update in
  (exists res, r = Ok res /\ map c_local_id (conflicts res) = ["task-R"])
  /\ map Task.sync_status (tasks Scenario.stale_update) = ["pending"]
  /\ map Task.server_id (tasks Scenario.stale_update) = [None]
  /\ map Task.last_synced_at (tasks Scenario.stale_update) = [None]
  /\ map Task.sync_status (tasks w') = ["synced"]
  /\ map Task.server_id (tasks w') = [Some "task-R"]
  /\ map Task.last_synced_at (tasks w') = [Some "2025-09-05T08:00:00.002Z"]
  /\ map Task.updated_at (tasks w') = [JStr "2025-09-04T10:00:00.000Z"]
  /\ map Task.title (tasks w') = [JStr "Original"].
Proof.
  vm_compute. split; [|repeat split]. eexists. repeat split.
Qed.

Lemma handleSyncError_retry_then_dead_letter_witness :
  (let w' := snd (handleSyncError Scenario.q_failed_twice
                    (safeParseJSON (QueueRow.data Scenario.q_failed_twice))
                    "boom" Scenario.user Scenario.third_failure) in
   List.length (dead_letter_queue w') = 1%nat
   /\ ~ In Scenario.q_failed_twice (sync_queue w')
   /\ In Scenario.q_update_B (sync_queue w'))
  /\ (let w' := snd (handleSyncError Scenario.q_update_A
                       (safeParseJSON (QueueRow.data Scenario.q_update_A))
                       "boom" Scenario.user Scenario.two_updates) in
      dead_letter_queue w' = []
      /\ exists q', In q' (sync_queue w')
                    /\ QueueRow.id q' = QueueRow.id Scenario.q_update_A
                    /\ QueueRow.retry_count q' = 1
                    /\ QueueRow.error_message q' = Some "boom").
Proof.
  cbv zeta. split.
  - destruct (@handleSyncError_retry_then_dead_letter
                Scenario.q_failed_twice
                (safeParseJSON (QueueRow.data Scenario.q_failed_twice))
                "boom" Scenario.user Scenario.third_failure
                _ _ (surjective_pairing _)
                (or_introl eq_refl) eq_refl (fun H : False => H))
      as (_ & Hceiling & _).
    destruct (Hceiling ltac:(vm_compute; discriminate))
      as ((d & Hdead & _) & Hgone & Hrest & _).
    split; [|split].
    + rewrite Hdead. reflexivity.
    + exact Hgone.
    + apply Hrest. split; [right; left; reflexivity|reflexivity].
  - destruct (@handleSyncError_retry_then_dead_letter
                Scenario.q_update_A
                (safeParseJSON (QueueRow.data Scenario.q_update_A))
                "boom" Scenario.user Scenario.two_updates
                _ _ (surjective_pairing _)
                (or_introl eq_refl) eq_refl (fun H : False => H))
      as (_ & _ & Hbelow).
    destruct (Hbelow ltac:(vm_compute; reflexivity))
      as (Hdead & _ & _ & (q' & Hin & Hcount & Hmsg & Hid & _) & _).
    split; [exact Hdead|].
    exists q'. repeat split; assumption.
Defined.

(** C4 (the code departs from the claim) - A failed apply attempt is not
    always charged to the operation.  Two changes for one existing record
    are synced, an update and then a create whose payload has no title.  The
    update is applied, and the status update that follows it deletes every
    queued operation of the record, the create among them.  The create then
    fails (NOT NULL on the title) with retry count 0; its failure is
    handled, but the UPDATE that should record count 1 and the error message
    finds no row.  After the sync the failed operation is neither in the
    queue nor in the dead-letter store: it will never be retried. *)
Theorem failed_operation_lost_after_sibling_applied :
  let w := Scenario.world_of Scenario.tick
             [Scenario.task "task-R" "2025-09-04T10:00:00.000Z" "pending"] [] in
  let changes :=
    [Change.mk "update" "task-R" None (Some (JObj [("title", JStr "A")]));
     Change.mk "create" "task-R" None
               (Some (JObj [("description", JStr "no title")]))] in
  (* both changes are queued, the update first *)
  map QueueRow.operation
      (sync_queue (snd (enqueue_changes changes Scenario.user w)))
  = ["update"; "create"]
  /\ map QueueRow.retry_count
         (sync_queue (snd (enqueue_changes changes Scenario.user w)))
     = [0; 0]
  /\ (let '(r, w') := sync changes "2025-09-03T00:00:00.000Z"
                           Scenario.user None w in
      (exists res, r = Ok res /\ processed res = 1 /\ failed res = 1
                   /\ status res = "error")
      /\ sync_queue w' = []
      /\ dead_letter_queue w' = []
      /\ map Task.title (tasks w') = [JStr "A"]
      /\ map Task.sync_status (tasks w') = ["error"]).
Proof.
  vm_compute. split; [reflexivity|]. split; [reflexivity|].
  split; [|repeat split]. eexists. repeat split.
Qed.



Lemma processItem_on_missing_record_witness :
  exists t w',
    processItem Scenario.q_update_missing
                (safeParseJSON (QueueRow.data Scenario.q_update_missing))
                Scenario.user Scenario.no_record
    = (Ok (mkResult (Some (mkMapping "task-X" "uuid-0")) None
                    (Some (TaskData t))), w')
    /\ tasks w' = [t]
    /\ Task.id t = "uuid-0"
    /\ Task.sync_status t = "synced".
Proof.
  destruct (@processItem_on_missing_record
              Scenario.q_update_missing
              (safeParseJSON (QueueRow.data Scenario.q_update_missing))
              Scenario.user Scenario.no_record eq_refl eq_refl eq_refl)
    as (Hupdate & _).
  destruct (Hupdate eq_refl
              ltac:(vm_compute; discriminate)
              ltac:(vm_compute; discriminate)
              (fun H : False => H))
    as (t & w' & Hrun & Htasks & Hid & _ & _ & Hstatus & _).
  exists t, w'. repeat split; assumption.
Defined.

(** C8 (the claim as stated fails) - A delete whose target record does not
    exist is not treated as a create: it returns no mapping and writes no
    record. *)
Lemma delete_on_missing_record_creates_nothing :
  find (SQL.task_matches (QueueRow.task_id Scenario.q_delete_missing)
                         Scenario.user) (tasks Scenario.no_record) = None
  /\ (let '(r, w') :=
        processItem Scenario.q_delete_missing
                    (safeParseJSON (QueueRow.data Scenario.q_delete_missing))
                    Scenario.user Scenario.no_record in
      r = Ok (mkResult None None None) /\ tasks w' = []).
Proof.
  split; [reflexivity|]. vm_compute. split; reflexivity.
Qed.

Lemma fingerprint_order_independent_witness :
  let a := QueueRow.mk "0b6e2c1a-7d4f-4a3e-9c58-1f2e3d4c5b6a" Scenario.user
             "task-A" "update" (Str.sq "{'title':'A'}") 0 None
             "2025-09-04T10:00:00.000Z" "2025-09-04T10:00:00.000Z" in
  let b := QueueRow.mk "f3a91c07-22be-4d15-8e6a-90c4b7d2e811" Scenario.user
             "task-B" "delete" "{}" 0 None
             "2025-09-04T10:00:01.000Z" "2025-09-04T10:00:01.000Z" in
  generateBatchChecksum [b; a] = generateBatchChecksum [a; b]
  /\ verifyBatchChecksum [b; a] (generateBatchChecksum [a; b]) = true.
Proof.
  intros a b.
  apply (@fingerprint_order_independent [a; b] [b; a]).
  - repeat constructor; simpl; intuition discriminate.
  - repeat constructor.
  - apply perm_swap.
Defined.


(** The test of the fingerprint in the repository: two batches that differ
    in one payload have different fingerprints. *)
Example fingerprint_of_the_test_batches :
  generateBatchChecksum
    [QueueRow.mk "item1" "u" "task1" "create" (Str.sq "{'title':'Task 1'}")
                 0 None EmptyString EmptyString]
  = "f788e793d99aba4139a015c283fa5f0e"
  /\ generateBatchChecksum
       [QueueRow.mk "item1" "u" "task1" "create" (Str.sq "{'title':'Task 2'}")
                    0 None EmptyString EmptyString]
     <> "f788e793d99aba4139a015c283fa5f0e".
Proof. vm_compute. split; [reflexivity|discriminate]. Qed.

(** The retry ceiling across three sync runs: a create without a title fails
    each time; after the second run it is still queued with retry count 2 and
    the record's sync_status is error; after the third it is in the
    dead-letter store once, gone from the queue, and the record is failed. *)
Example retry_ceiling_over_three_syncs :
  let w0 := Scenario.world_of Scenario.tick
              [Scenario.task "task-R" "2025-09-04T10:00:00.000Z" "pending"]
              [Scenario.q_create_untitled] in
  let run := sync [] "2025-09-03T00:00:00.000Z" Scenario.user None in
  let w2 := snd (run (snd (run w0))) in
  let w3 := snd (run w2) in
  map QueueRow.retry_count (sync_queue w2) = [2]
  /\ map Task.sync_status (tasks w2) = ["error"]
  /\ dead_letter_queue w2 = []
  /\ sync_queue w3 = []
  /\ map DeadLetter.retry_count (dead_letter_queue w3) = [3]
  /\ map Task.sync_status (tasks w3) = ["failed"].
Proof. vm_compute. repeat split. Qed.

(* ================================================================== *)
(** * Properties of the services, the queries and the routes *)

(** ** Descending orders *)

#[export] Instance desc_comparator {A B} (cmp : B -> B -> comparison)
  (c : A -> B) `{Comparator B cmp} : Comparator (SQL.desc cmp c).
Proof.
  unfold SQL.desc. constructor; intros.
  - apply cmp_sym.
  - exact (cmp_lt_trans (cmp := cmp) _ _ _ H1 H0).
  - rewrite (cmp_sym (cmp := cmp) (c a) (c c0)),
            (cmp_sym (cmp := cmp) (c b) (c c0)).
    f_equal. apply cmp_eq_l.
    rewrite (cmp_sym (cmp := cmp)), H0. reflexivity.
Qed.

Lemma Z_compare_comparator : Comparator Z.compare.
Proof.
  constructor; intros.
  - apply Z.compare_antisym.
  - rewrite Z.compare_lt_iff in *. lia.
  - apply Z.compare_eq in H. now subst.
Qed.

#[export] Instance value_order_comparator : Comparator SQL.value_order.
Proof.
  constructor.
  - intros a b. destruct a, b; simpl; try reflexivity;
      first [apply Z.compare_antisym | apply (cmp_sym (cmp := String.compare))].
  - intros a b c H1 H2.
    destruct a, b; simpl in *; try discriminate;
      destruct c; simpl in *; try discriminate; try reflexivity.
    + exact (cmp_lt_trans (Comparator := Z_compare_comparator) _ _ _ H1 H2).
    + exact (cmp_lt_trans (cmp := String.compare) _ _ _ H1 H2).
  - intros a b c E.
    destruct a, b; simpl in *; try discriminate;
      destruct c; simpl in *; try reflexivity.
    + exact (cmp_eq_l (Comparator := Z_compare_comparator) _ _ _ E).
    + exact (cmp_eq_l (cmp := String.compare) _ _ _ E).
Qed.

(** ** Task service *)

Lemma find_app_none {A} (f : A -> bool) (l1 l2 : list A) :
  find f l1 = None -> find f (l1 ++ l2)%list = find f l2.
Proof.
  induction l1 as [|a l1 IH]; simpl; [reflexivity|].
  destruct (f a); [discriminate|exact IH].
Qed.

Lemma existsb_id_false (ts : list Task.t) (id : string) :
  existsb (fun r => String.eqb (Task.id r) id) ts = false ->
  ~ In id (map Task.id ts).
Proof.
  induction ts as [|t ts IH]; simpl; [tauto|].
  rewrite orb_false_iff. intros [H1 H2] [H | H].
  - subst. now rewrite String.eqb_refl in H1.
  - now apply IH.
Qed.

Lemma find_other_id (ts : list Task.t) (f : Task.t -> bool) (id : string) :
  (forall t, f t = true -> Task.id t = id) ->
  ~ In id (map Task.id ts) -> find f ts = None.
Proof.
  intros Hf. induction ts as [|t ts IH]; simpl; [reflexivity|].
  intros Hn. destruct (f t) eqn:E.
  - exfalso. apply Hn. left. now apply Hf.
  - apply IH. tauto.
Qed.

Lemma live_matches_id id userId t :
  TaskService.live_matches id userId t = true ->
  Task.id t = id /\ Task.user_id t = userId /\ Task.is_deleted t = JNum 0.
Proof.
  unfold TaskService.live_matches, SQL.task_matches.
  rewrite !andb_true_iff, !String.eqb_eq. intros [[H1 H2] H3].
  repeat split; try assumption.
  destruct (Task.is_deleted t) as [| | [|p|p] | | |]; try discriminate.
  reflexivity.
Qed.

(** Inversion of a run of [bind] that returns. *)
Lemma bind_ok {A B} (m : M A) (f : A -> M B) w b w' :
  bind m f w = (Ok b, w') ->
  exists a w1, m w = (Ok a, w1) /\ f a w1 = (Ok b, w').
Proof.
  unfold bind. destruct (m w) as [[a|e] w1]; [|discriminate].
  intros H. now exists a, w1.
Qed.

Lemma insert_task_ok t w u w' :
  SQL.insert_task t w = (Ok u, w') ->
  Task.title t <> JNull
  /\ ~ In (Task.id t) (map Task.id (tasks w))
  /\ w' = set_tasks (tasks w ++ [t]) w.
Proof.
  unfold SQL.insert_task.
  destruct (existsb (fun r => String.eqb (Task.id r) (Task.id t)) (tasks w))
    eqn:Hfresh;
    destruct (Task.title t); try discriminate;
    intros H; injection H as _ <-;
    (split; [discriminate|split; [now apply existsb_id_false|reflexivity]]).
Qed.

Lemma existsb_queue_id_false (qs : list QueueRow.t) (id : string) :
  existsb (fun r => String.eqb (QueueRow.id r) id) qs = false ->
  ~ In id (map QueueRow.id qs).
Proof.
  induction qs as [|t ts IH]; simpl; [tauto|].
  rewrite orb_false_iff. intros [H1 H2] [H | H].
  - subst. now rewrite String.eqb_refl in H1.
  - now apply IH.
Qed.

(** The row the task service enqueues. *)
Lemma enqueue_ok taskId operation data userId ots w id w' :
  TaskService.addToSyncQueue taskId operation data userId ots w = (Ok id, w') ->
  Str.is_empty taskId = false
  /\ Str.is_empty userId = false
  /\ id = uuids w (uuid_reads w)
  /\ ~ In id (map QueueRow.id (sync_queue w))
  /\ w' = set_sync_queue
            (sync_queue w
             ++ [QueueRow.mk id userId taskId operation
                   (JSON.stringify (JS.or_else data (JObj []))) 0 None
                   (clock w (clock_reads w))
                   (JS.str_or ots (clock w (clock_reads w)))])
            (after_reads 1 1 w).
Proof.
  unfold TaskService.addToSyncQueue.
  destruct (Str.is_empty taskId) eqn:Ht; [discriminate|].
  destruct (Str.is_empty operation) eqn:Ho; [discriminate|].
  destruct (Str.is_empty userId) eqn:Hu; [discriminate|].
  unfold_M. unfold SQL.insert_queue. msimpl.
  match goal with |- context [existsb ?f ?l] => destruct (existsb f l) eqn:Hq end;
    [discriminate|].
  intros H. injection H as <- <-.
  repeat split; try reflexivity.
  now apply existsb_queue_id_false.
Qed.

Lemma createTask_run title description completed userId w t w' :
  TaskService.createTask title description completed userId w = (Ok t, w') ->
  Str.is_empty userId = false
  /\ JS.truthy title = true
  /\ Str.is_empty (Task.id t) = false
  /\ ~ In (Task.id t) (map Task.id (tasks w))
  /\ t = Task.mk (uuids w (uuid_reads w)) userId
               (JS.bind (Some match title with Some v => v | None => JNull end))
               (JS.bind (Some (JS.or_else
                                 match description with
                                 | Some v => Some v
                                 | None => Some (JStr EmptyString)
                                 end (JStr EmptyString))))
               (JNum (if JS.truthy match completed with
                                   | Some v => Some v
                                   | None => Some (JBool false)
                                   end then 1 else 0))
               (JStr (clock w (clock_reads w))) (JStr (clock w (clock_reads w)))
               (JNum 0) "pending" None None
  /\ tasks w' = (tasks w ++ [t])%list
  /\ dead_letter_queue w' = dead_letter_queue w
  /\ sync_logs w' = sync_logs w
  /\ (exists q,
        sync_queue w' = (sync_queue w ++ [q])%list
        /\ QueueRow.operation q = "create"
        /\ QueueRow.task_id q = Task.id t
        /\ QueueRow.user_id q = userId
        /\ QueueRow.retry_count q = 0).
Proof.
  unfold TaskService.createTask.
  destruct (Str.is_empty userId) eqn:Hu; [discriminate|].
  destruct (JS.truthy title) eqn:Ht; [|discriminate].
  cbn [negb]. intros H.
  apply bind_ok in H as (id & w1 & H1 & H).
  apply bind_ok in H as (now_ & w2 & H2 & H).
  apply bind_ok in H as (u & w3 & H3 & H).
  apply bind_ok in H as (qid & w4 & H4 & H).
  unfold ret in H. injection H as <- <-.
  unfold uuidv4 in H1. injection H1 as <- <-.
  unfold now in H2. injection H2 as <- <-.
  apply insert_task_ok in H3 as (_ & Hfresh & ->).
  apply enqueue_ok in H4 as (Hid & _ & _ & _ & ->).
  msimpl. cbn [Task.id] in *.
  repeat (split; [first [reflexivity | assumption]|]).
  eexists. split; [reflexivity|repeat split; reflexivity].
Qed.

Lemma find_new_row id userId (ts : list Task.t) t :
  ~ In id (map Task.id ts) ->
  TaskService.live_matches id userId t = true ->
  find (TaskService.live_matches id userId) (ts ++ [t])%list = Some t.
Proof.
  intros Hfresh Hl. rewrite find_app_none.
  - cbn [find]. now rewrite Hl.
  - apply find_other_id with (id := id); [|exact Hfresh].
    intros x Hx. apply (live_matches_id _ _ _ Hx).
Qed.

(** X1 - A createTask that returns appends the row it returns to the
    tasks, under an id that no row had before.  The row belongs to the caller,
    is not deleted, is pending, has no server id, and its created_at equals
    its updated_at; a string title is stored as given, and a missing
    description and completed flag default to the empty string and 0.
    getTaskById then finds that row, and one create operation for it, with
    retry count 0, has been appended to the caller's queue. *)
Theorem createTask_stores_what_it_returns :
  forall (title description completed : option json) (userId : string)
         (w w' : world) (t : Task.t),
    TaskService.createTask title description completed userId w = (Ok t, w') ->
    tasks w' = (tasks w ++ [t])%list
    /\ ~ In (Task.id t) (map Task.id (tasks w))
    /\ Task.user_id t = userId
    /\ (forall s, title = Some (JStr s) -> Task.title t = JStr s)
    /\ (description = None -> Task.description t = JStr EmptyString)
    /\ (completed = None -> Task.completed t = JNum 0)
    /\ Task.is_deleted t = JNum 0
    /\ Task.sync_status t = "pending"
    /\ Task.server_id t = None
    /\ Task.created_at t = Task.updated_at t
    /\ TaskService.getTaskById (Task.id t) userId w' = (Ok (Some t), w')
    /\ (exists q,
          sync_queue w' = (sync_queue w ++ [q])%list
          /\ QueueRow.operation q = "create"
          /\ QueueRow.task_id q = Task.id t
          /\ QueueRow.user_id q = userId
          /\ QueueRow.retry_count q = 0).
Proof.
  intros title description completed userId w w' t H.
  apply createTask_run in H
    as (Hu & Ht & Hid & Hfresh & Hrow & Htasks & _ & _ & Hq).
  split; [exact Htasks|]. split; [exact Hfresh|].
  split; [now rewrite Hrow|].
  split; [intros s ->; now rewrite Hrow|].
  split; [intros ->; now rewrite Hrow|].
  split; [intros ->; now rewrite Hrow|].
  do 4 (split; [now rewrite Hrow|]).
  split; [|exact Hq].
  unfold TaskService.getTaskById. rewrite Hid, Hu, Htasks.
  rewrite find_new_row; [reflexivity|exact Hfresh|].
  rewrite Hrow. unfold TaskService.live_matches, SQL.task_matches.
  cbn [Task.id Task.user_id Task.is_deleted].
  now rewrite !String.eqb_refl.
Qed.

Lemma getTaskById_run id userId w r w' :
  TaskService.getTaskById id userId w = (Ok r, w') ->
  Str.is_empty id = false /\ Str.is_empty userId = false
  /\ r = find (TaskService.live_matches id userId) (tasks w) /\ w' = w.
Proof.
  unfold TaskService.getTaskById.
  destruct (Str.is_empty id); [discriminate|].
  destruct (Str.is_empty userId); [discriminate|].
  intros H. injection H as <- <-. auto.
Qed.

Lemma find_map_none {A} (f : A -> bool) (g : A -> A) (l : list A) :
  (forall x, f (g x) = false) -> find f (map g l) = None.
Proof.
  intros H. induction l as [|a l IH]; simpl; [reflexivity|].
  now rewrite H.
Qed.

Lemma find_map_same {A} (f : A -> bool) (g : A -> A) (l : list A) :
  (forall x, f (g x) = f x) -> find f (map g l) = option_map g (find f l).
Proof.
  intros H. induction l as [|a l IH]; simpl; [reflexivity|].
  rewrite H. destruct (f a); [reflexivity|exact IH].
Qed.

Lemma live_is_match id userId t :
  TaskService.live_matches id userId t = true ->
  SQL.task_matches id userId t = true.
Proof.
  unfold TaskService.live_matches. rewrite andb_true_iff. tauto.
Qed.

Lemma find_weaker {A} (f g : A -> bool) (l : list A) x :
  (forall a, f a = true -> g a = true) ->
  find f l = Some x -> exists y, find g l = Some y.
Proof.
  intros H. induction l as [|a l IH]; simpl; [discriminate|].
  destruct (g a) eqn:Eg; [eauto|].
  destruct (f a) eqn:Ef; [rewrite (H _ Ef) in Eg; discriminate|exact IH].
Qed.

Lemma deleteTask_run id userId w w' :
  TaskService.deleteTask id userId w = (Ok true, w') ->
  Str.is_empty id = false /\ Str.is_empty userId = false
  /\ (exists e, find (TaskService.live_matches id userId) (tasks w) = Some e)
  /\ tasks w'
     = map (fun t => if SQL.task_matches id userId t
                     then deleted_task (clock w (clock_reads w)) t else t)
           (tasks w)
  /\ dead_letter_queue w' = dead_letter_queue w
  /\ sync_logs w' = sync_logs w
  /\ (exists q,
        sync_queue w' = (sync_queue w ++ [q])%list
        /\ QueueRow.operation q = "delete"
        /\ QueueRow.task_id q = id
        /\ QueueRow.user_id q = userId
        /\ QueueRow.retry_count q = 0).
Proof.
  unfold TaskService.deleteTask.
  destruct (Str.is_empty id) eqn:Hid; [discriminate|].
  destruct (Str.is_empty userId) eqn:Hu; [discriminate|].
  intros H. apply bind_ok in H as (existing & w1 & H1 & H).
  apply getTaskById_run in H1 as (_ & _ & -> & ->).
  destruct (find (TaskService.live_matches id userId) (tasks w)) as [e|] eqn:He;
    [|discriminate].
  apply bind_ok in H as (now_ & w2 & H2 & H).
  unfold now in H2. injection H2 as <- <-.
  apply bind_ok in H as (u & w3 & H3 & H).
  unfold modify in H3. injection H3 as _ <-.
  apply bind_ok in H as (qid & w4 & H4 & H).
  apply enqueue_ok in H4 as (_ & _ & _ & _ & ->).
  unfold ret in H. injection H as <-. msimpl.
  split; [reflexivity|]. split; [reflexivity|]. split; [now exists e|].
  repeat (split; [reflexivity|]).
  eexists. split; [reflexivity|repeat split; reflexivity].
Qed.

Lemma task_matches_deleted id userId n x :
  SQL.task_matches id userId
    (if SQL.task_matches id userId x then deleted_task n x else x)
  = SQL.task_matches id userId x.
Proof.
  destruct (SQL.task_matches id userId x) eqn:E; exact E.
Qed.

Lemma live_matches_deleted id userId n x :
  TaskService.live_matches id userId
    (if SQL.task_matches id userId x then deleted_task n x else x) = false.
Proof.
  unfold TaskService.live_matches. rewrite task_matches_deleted.
  destruct (SQL.task_matches id userId x); reflexivity.
Qed.

(** X2 - A deleteTask that returns true removes no row: the ids of
    the rows are the same as before and every row that is not the target is
    untouched.  Afterwards getTaskById no longer finds the task, while
    getTaskByIdIncludingDeleted finds it with is_deleted = 1, sync_status
    pending and updated_at the time of the call; deleting it again returns
    false; and one delete operation for it has been appended to the queue. *)
Theorem deleteTask_is_a_soft_delete :
  forall (id userId : string) (w w' : world),
    TaskService.deleteTask id userId w = (Ok true, w') ->
    map Task.id (tasks w') = map Task.id (tasks w)
    /\ (forall t, SQL.task_matches id userId t = false ->
                  (In t (tasks w') <-> In t (tasks w)))
    /\ TaskService.getTaskById id userId w' = (Ok None, w')
    /\ (exists t,
          TaskService.getTaskByIdIncludingDeleted id userId w'
          = (Ok (Some t), w')
          /\ Task.is_deleted t = JNum 1
          /\ Task.sync_status t = "pending"
          /\ Task.updated_at t = JStr (clock w (clock_reads w)))
    /\ TaskService.deleteTask id userId w' = (Ok false, w')
    /\ (exists q,
          sync_queue w' = (sync_queue w ++ [q])%list
          /\ QueueRow.operation q = "delete"
          /\ QueueRow.task_id q = id
          /\ QueueRow.user_id q = userId).
Proof.
  intros id userId w w' H.
  apply deleteTask_run in H
    as (Hid & Hu & (e & He) & Htasks & _ & _ & (q & Hq1 & Hq2 & Hq3 & Hq4 & _)).
  set (n := clock w (clock_reads w)) in *.
  assert (Hnone : find (TaskService.live_matches id userId) (tasks w') = None).
  { rewrite Htasks. apply find_map_none. intros x.
    apply live_matches_deleted. }
  split; [|split; [|split; [|split; [|split]]]].
  - rewrite Htasks, map_map. apply map_ext. intros t.
    now destruct (SQL.task_matches id userId t).
  - intros t Ht. rewrite Htasks, in_map_iff. split.
    + intros (x & <- & Hx).
      destruct (SQL.task_matches id userId x) eqn:E; [|exact Hx].
      unfold SQL.task_matches in Ht, E.
      cbn [deleted_task Task.id Task.user_id] in Ht. congruence.
    + intros Hin. exists t. split; [|exact Hin]. now rewrite Ht.
  - unfold TaskService.getTaskById. now rewrite Hid, Hu, Hnone.
  - destruct (@find_weaker _ (TaskService.live_matches id userId)
                (SQL.task_matches id userId) (tasks w) e
                (live_is_match id userId) He) as (y & Hy).
    exists (deleted_task n y). unfold TaskService.getTaskByIdIncludingDeleted.
    rewrite Hid, Hu. unfold SQL.select_task. rewrite Htasks.
    rewrite find_map_same by (intros; apply task_matches_deleted).
    rewrite Hy. cbn [option_map].
    apply find_some in Hy as [_ Hy]. rewrite Hy.
    repeat split; reflexivity.
  - unfold TaskService.deleteTask. rewrite Hid, Hu.
    unfold bind at 1. unfold TaskService.getTaskById.
    now rewrite Hid, Hu, Hnone.
  - exists q. auto.
Qed.

Lemma updateTask_run id updates userId w r w' :
  TaskService.updateTask id updates userId w = (Ok r, w') ->
  Str.is_empty id = false /\ Str.is_empty userId = false
  /\ match find (TaskService.live_matches id userId) (tasks w) with
     | None => r = None /\ w' = w
     | Some existing =>
         let now_ := clock w (clock_reads w) in
         let upd := fun t => if TaskService.live_matches id userId t
                             then updated_task updates existing now_ t
                             else t in
         Task.title (updated_task updates existing now_ existing) <> JNull
         /\ r = find (TaskService.live_matches id userId) (map upd (tasks w))
         /\ tasks w' = map upd (tasks w)
         /\ exists q,
              sync_queue w' = (sync_queue w ++ [q])%list
              /\ QueueRow.operation q = "update"
              /\ QueueRow.task_id q = id
              /\ QueueRow.user_id q = userId
              /\ QueueRow.retry_count q = 0
     end.
Proof.
  unfold TaskService.updateTask.
  destruct (Str.is_empty id) eqn:Hid; [discriminate|].
  destruct (Str.is_empty userId) eqn:Hu; [discriminate|].
  intros H. split; [reflexivity|]. split; [reflexivity|].
  assert (Hobj :
    exists m, m w = (Ok r, w')
      /\ m = (existing <- TaskService.getTaskById id userId ;;
     match existing with
     | None => ret None
     | Some existing =>
         now_ <- now ;;
         let newTitle :=
           match JS.get updates "title" with
           | Some v => v | None => Task.title existing end in
         let newDescription :=
           match JS.get updates "description" with
           | Some v => v | None => Task.description existing end in
         let newCompleted :=
           match JS.get updates "completed" with
           | Some v => JNum (if JS.truthy (Some v) then 1 else 0)
           | None => Task.completed existing end in
         match JS.bind (Some newTitle) with
         | JNull =>
             throw "SQLITE_CONSTRAINT: NOT NULL constraint failed: tasks.title"
         | _ =>
             modify (fun w =>
               set_tasks
                 (map (fun t =>
                         if TaskService.live_matches id userId t
                         then Task.mk (Task.id t) (Task.user_id t)
                                (JS.bind (Some newTitle))
                                (JS.bind (Some newDescription)) newCompleted
                                (Task.created_at t) (JStr now_)
                                (Task.is_deleted t) "pending"
                                (Task.server_id t) (Task.last_synced_at t)
                         else t) (tasks w)) w)
         end ;;;
         TaskService.addToSyncQueue id "update"
           (Some (JObj [("title", newTitle);
                        ("description", newDescription);
                        ("completed", JBool (JS.truthy (Some newCompleted)));
                        ("updated_at", JStr now_)]))
           userId (Some now_) ;;;
         TaskService.getTaskById id userId
     end)).
  { destruct updates; try discriminate; eexists; (split; [exact H|reflexivity]). }
  clear H. destruct Hobj as (m & H & ->).
  apply bind_ok in H as (existing & w1 & H1 & H).
  apply getTaskById_run in H1 as (_ & _ & -> & ->).
  destruct (find (TaskService.live_matches id userId) (tasks w)) as [e|] eqn:He.
  - apply bind_ok in H as (now_ & w2 & H2 & H).
    unfold now in H2. injection H2 as <- <-.
    cbv zeta in H.
    apply bind_ok in H as (u & w3 & H3 & H).
    assert (Hnn : Task.title (updated_task updates e (clock w (clock_reads w)) e)
                  <> JNull).
    { cbn [updated_task Task.title]. intros Hn. rewrite Hn in H3.
      discriminate H3. }
    assert (Hw3 : w3 = set_tasks
               (map (fun t =>
                       if TaskService.live_matches id userId t
                       then updated_task updates e (clock w (clock_reads w)) t
                       else t) (tasks w))
               (mkWorld (tasks w) (sync_queue w) (dead_letter_queue w)
                        (sync_logs w) (SYNC_BATCH_SIZE w) (clock w) (uuids w)
                        (S (clock_reads w)) (uuid_reads w))).
    { cbn [updated_task Task.title] in Hnn. revert H3.
      destruct (JS.bind (Some match JS.get updates "title" with
                              | Some v => v
                              | None => Task.title e
                              end)) eqn:Eb;
        intros H3; [congruence|..];
        unfold modify in H3; injection H3 as _ <-;
        unfold updated_task; rewrite Eb; reflexivity. }
    clear H3. subst w3.
    apply bind_ok in H as (qid & w4 & H4 & H).
    apply enqueue_ok in H4 as (_ & _ & _ & _ & ->).
    apply getTaskById_run in H as (_ & _ & -> & ->).
    msimpl. cbv zeta. split; [exact Hnn|]. split; [reflexivity|].
    split; [reflexivity|].
    eexists. split; [reflexivity|repeat split; reflexivity].
  - unfold ret in H. injection H as <- <-. auto.
Qed.

Lemma live_matches_updated id userId updates e n x :
  TaskService.live_matches id userId
    (if TaskService.live_matches id userId x
     then updated_task updates e n x else x)
  = TaskService.live_matches id userId x.
Proof.
  destruct (TaskService.live_matches id userId x) eqn:E; [|exact E].
  exact E.
Qed.

(** X3 - An updateTask that returns a task returns the live row it found,
    rewritten: a title or description given as a string is stored as given
    (a null description as NULL), a given completed flag as 1 when it is
    true, a number other than 0 or a string that is not empty and as 0 when
    it is false, 0, the empty string or null, and a field that is absent
    keeps its value; updated_at is the time of the
    call and sync_status is pending; id, owner, created_at, is_deleted,
    server_id and last_synced_at are kept.  The title given was not null.
    getTaskById afterwards returns exactly that row, no other row is
    changed, and one update operation for it, with retry count 0, has been
    appended to the queue. *)
Theorem updateTask_returns_the_updated_row :
  forall (id : string) (updates : json) (userId : string) (w w' : world)
         (t : Task.t),
    TaskService.updateTask id updates userId w = (Ok (Some t), w') ->
    exists old,
      TaskService.getTaskById id userId w = (Ok (Some old), w)
      /\ Task.id t = id /\ Task.user_id t = userId
      /\ Task.is_deleted t = JNum 0
      /\ Task.created_at t = Task.created_at old
      /\ Task.server_id t = Task.server_id old
      /\ Task.last_synced_at t = Task.last_synced_at old
      /\ Task.updated_at t = JStr (clock w (clock_reads w))
      /\ Task.sync_status t = "pending"
      /\ JS.get updates "title" <> Some JNull
      /\ (forall s, JS.get updates "title" = Some (JStr s) ->
                    Task.title t = JStr s)
      /\ (forall s, JS.get updates "title" = None ->
                    Task.title old = JStr s -> Task.title t = JStr s)
      /\ (forall s, JS.get updates "description" = Some (JStr s) ->
                    Task.description t = JStr s)
      /\ (JS.get updates "description" = Some JNull ->
          Task.description t = JNull)
      /\ (forall s, JS.get updates "description" = None ->
                    Task.description old = JStr s ->
                    Task.description t = JStr s)
      /\ (forall b, JS.get updates "completed" = Some (JBool b) ->
                    Task.completed t = JNum (if b then 1 else 0))
      /\ (forall n, JS.get updates "completed" = Some (JNum n) ->
                    Task.completed t = JNum (if n =? 0 then 0 else 1))
      /\ (forall s, JS.get updates "completed" = Some (JStr s) ->
                    Task.completed t = JNum (if Str.is_empty s then 0 else 1))
      /\ (JS.get updates "completed" = Some JNull ->
          Task.completed t = JNum 0)
      /\ (JS.get updates "completed" = None ->
          Task.completed t = Task.completed old)
      /\ TaskService.getTaskById id userId w' = (Ok (Some t), w')
      /\ map Task.id (tasks w') = map Task.id (tasks w)
      /\ (forall x, TaskService.live_matches id userId x = false ->
                    (In x (tasks w') <-> In x (tasks w)))
      /\ (exists q,
            sync_queue w' = (sync_queue w ++ [q])%list
            /\ QueueRow.operation q = "update"
            /\ QueueRow.task_id q = id
            /\ QueueRow.user_id q = userId
            /\ QueueRow.retry_count q = 0).
Proof.
  intros id updates userId w w' t H.
  apply updateTask_run in H as (Hid & Hu & H).
  destruct (find (TaskService.live_matches id userId) (tasks w)) as [old|] eqn:He;
    [|destruct H; discriminate].
  cbv zeta in H. destruct H as (Hnn & Hr & Htasks & Hq).
  rewrite find_map_same in Hr by (intros; apply live_matches_updated).
  rewrite He in Hr. cbn [option_map] in Hr.
  pose proof (find_some _ _ He) as [_ Hlive]. rewrite Hlive in Hr.
  injection Hr as ->.
  pose proof (live_matches_id _ _ _ Hlive) as (Ho1 & Ho2 & Ho3).
  cbn [updated_task Task.title] in Hnn.
  exists old.
  split; [unfold TaskService.getTaskById; now rewrite Hid, Hu, He|].
  do 8 (split; [first [assumption | reflexivity]|]).
  split; [intros Hn; rewrite Hn in Hnn; now apply Hnn|].
  split; [intros s Hs; cbn [updated_task Task.title]; now rewrite Hs|].
  split; [intros s Hs Ho; cbn [updated_task Task.title]; now rewrite Hs, Ho|].
  split; [intros s Hs; cbn [updated_task Task.description]; now rewrite Hs|].
  split; [intros Hs; cbn [updated_task Task.description]; now rewrite Hs|].
  split; [intros s Hs Ho; cbn [updated_task Task.description];
          now rewrite Hs, Ho|].
  split; [intros b Hv; cbn [updated_task Task.completed]; now rewrite Hv|].
  split; [intros n Hv; cbn [updated_task Task.completed]; rewrite Hv;
          cbn [JS.truthy]; now destruct (n =? 0)|].
  split; [intros s Hv; cbn [updated_task Task.completed]; rewrite Hv;
          cbn [JS.truthy]; now destruct (Str.is_empty s)|].
  split; [intros Hv; cbn [updated_task Task.completed]; now rewrite Hv|].
  split; [intros Hv; cbn [updated_task Task.completed]; now rewrite Hv|].
  split; [|split; [|split; [|exact Hq]]].
  - unfold TaskService.getTaskById. rewrite Hid, Hu, Htasks.
    rewrite find_map_same by (intros; apply live_matches_updated).
    now rewrite He; cbn [option_map]; rewrite Hlive.
  - rewrite Htasks, map_map. apply map_ext. intros x.
    now destruct (TaskService.live_matches id userId x).
  - intros x Hx. split.
    + rewrite Htasks, in_map_iff. intros (y & Hy & Hin).
      destruct (TaskService.live_matches id userId y) eqn:E.
      * subst x. unfold TaskService.live_matches, SQL.task_matches in Hx, E.
        cbn [updated_task Task.id Task.user_id Task.is_deleted] in Hx.
        congruence.
      * now subst.
    + intros Hin. rewrite Htasks, in_map_iff. exists x. now rewrite Hx.
Qed.

(** X4 - When the caller has no live task with the given id (none,
    one of another user, or a deleted one; the ids not empty), getTaskById
    returns null, deleteTask returns false and updateTask, given an object of
    updates, returns null, and none of them writes anything: no row is
    changed and nothing is queued. *)
Theorem update_or_delete_of_no_live_task_writes_nothing :
  forall (id : string) (updates : json) (userId : string) (w : world),
    Str.is_empty id = false ->
    Str.is_empty userId = false ->
    (forall t, In t (tasks w) -> Task.id t = id -> Task.user_id t = userId ->
               Task.is_deleted t <> JNum 0) ->
    TaskService.getTaskById id userId w = (Ok None, w)
    /\ TaskService.deleteTask id userId w = (Ok false, w)
    /\ ((exists fs, updates = JObj fs) ->
        TaskService.updateTask id updates userId w = (Ok None, w)).
Proof.
  intros id updates userId w Hid Hu Hnone.
  assert (He : find (TaskService.live_matches id userId) (tasks w) = None).
  { destruct (find _ _) as [e|] eqn:E; [|reflexivity].
    apply find_some in E as [Hin Hl].
    apply live_matches_id in Hl as (H1 & H2 & H3).
    now elim (Hnone e Hin H1 H2). }
  assert (Hget : TaskService.getTaskById id userId w = (Ok None, w)).
  { unfold TaskService.getTaskById. now rewrite Hid, Hu, He. }
  split; [exact Hget|]. split.
  - unfold TaskService.deleteTask. rewrite Hid, Hu.
    unfold bind at 1. now rewrite Hget.
  - intros (fs & ->). unfold TaskService.updateTask. rewrite Hid, Hu.
    unfold bind at 1. now rewrite Hget.
Qed.

Lemma live_of_true userId t :
  SQL.live_of userId t = true
  <-> Task.user_id t = userId /\ Task.is_deleted t = JNum 0.
Proof.
  unfold SQL.live_of. rewrite andb_true_iff, String.eqb_eq.
  split; intros [H1 H2]; (split; [exact H1|]).
  - destruct (Task.is_deleted t) as [| | [|p|p] | | |]; try discriminate.
    reflexivity.
  - now rewrite H2.
Qed.

(** X5 - getAllTasks throws 'User ID is required' for an empty user
    id and reads only otherwise: it returns exactly the caller's tasks that
    are not deleted, each as often as it is stored, ordered by updated_at
    descending, so that a task with a strictly later updated_at comes before
    one with an earlier updated_at. *)
Theorem getAllTasks_lists_live_tasks_newest_first :
  forall (userId : string) (w : world),
    if Str.is_empty userId
    then TaskService.getAllTasks userId w = (Throw "User ID is required", w)
    else
      exists l,
        TaskService.getAllTasks userId w = (Ok l, w)
        /\ Permutation l (filter (SQL.live_of userId) (tasks w))
        /\ (forall t, In t l <->
                      In t (tasks w) /\ Task.user_id t = userId
                      /\ Task.is_deleted t = JNum 0)
        /\ StronglySorted
             (fun a b => SQL.value_order (Task.updated_at b) (Task.updated_at a)
                         <> Gt) l
        /\ (forall a b x y, In a l -> In b l ->
              Task.updated_at a = JStr x -> Task.updated_at b = JStr y ->
              Str.lt x y ->
              exists l1 l2 l3, l = (l1 ++ b :: l2 ++ a :: l3)%list).
Proof.
  intros userId w. unfold TaskService.getAllTasks.
  destruct (Str.is_empty userId); [reflexivity|].
  unfold SQL.select_live_tasks.
  set (cmp := SQL.desc SQL.value_order Task.updated_at).
  set (l := sort_by cmp (filter (SQL.live_of userId) (tasks w))).
  assert (Hperm : Permutation l (filter (SQL.live_of userId) (tasks w)))
    by apply (@sort_by_perm _ cmp).
  assert (Hsorted : StronglySorted (cmp_le cmp) l)
    by apply (@sort_by_sorted _ cmp _).
  exists l. split; [reflexivity|]. split; [exact Hperm|].
  split; [|split; [exact Hsorted|]].
  - intros t. split.
    + intros Hin. apply (Permutation_in _ Hperm) in Hin.
      apply filter_In in Hin as [Hin Hl]. apply live_of_true in Hl. tauto.
    + intros (Hin & Hu & Hd). apply (Permutation_in _ (Permutation_sym Hperm)).
      apply filter_In. split; [exact Hin|]. now apply live_of_true.
  - intros a b x y Ha Hb Hx Hy Hlt.
    apply in_split in Hb as (l1 & r & Hl). rewrite Hl in Ha, Hsorted |- *.
    apply in_app_or in Ha as [Ha | [Ha | Ha]].
    + exfalso. apply in_split in Ha as (p & q & ->).
      rewrite <- app_assoc in Hsorted. cbn [app] in Hsorted.
      clear -Hsorted Hx Hy Hlt.
      induction p as [|z p IH]; cbn [app] in Hsorted.
      * apply StronglySorted_inv in Hsorted as [_ Hall].
        rewrite Forall_forall in Hall.
        specialize (Hall b ltac:(apply in_or_app; right; left; reflexivity)).
        unfold cmp_le, cmp, SQL.desc in Hall. rewrite Hx, Hy in Hall.
        cbn [SQL.value_order] in Hall.
        rewrite (cmp_sym (cmp := String.compare)) in Hall.
        unfold Str.lt in Hlt. rewrite Hlt in Hall. now apply Hall.
      * apply StronglySorted_inv in Hsorted as [Hs _]. now apply IH.
    + subst a. unfold Str.lt in Hlt. rewrite Hx in Hy. injection Hy as ->.
      now rewrite string_compare_refl in Hlt.
    + apply in_split in Ha as (l2 & l3 & ->). now exists l1, l2, l3.
Qed.

Lemma unsynced_of_true userId t :
  SQL.unsynced_of userId t = true
  <-> Task.user_id t = userId /\ Task.sync_status t <> "synced".
Proof.
  unfold SQL.unsynced_of.
  rewrite andb_true_iff, negb_true_iff, String.eqb_eq, String.eqb_neq.
  tauto.
Qed.

Lemma getTasksNeedingSync_run userId w :
  Str.is_empty userId = false ->
  TaskService.getTasksNeedingSync userId w
  = (Ok (filter (SQL.unsynced_of userId) (tasks w)), w).
Proof.
  intros Hu. unfold TaskService.getTasksNeedingSync. now rewrite Hu.
Qed.

(** X6 - getTasksNeedingSync reads only and returns exactly the
    caller's tasks whose sync_status is not synced.  A task just created or
    updated, and a task just deleted (with is_deleted = 1), is in that list;
    after updateSyncStatus marks a task synced, it is not. *)
Theorem getTasksNeedingSync_tracks_local_changes :
  forall (userId : string) (w : world),
    (forall l w1,
        TaskService.getTasksNeedingSync userId w = (Ok l, w1) ->
        w1 = w
        /\ forall t, In t l <->
                     In t (tasks w) /\ Task.user_id t = userId
                     /\ Task.sync_status t <> "synced")
    /\ (forall title description completed t w',
           TaskService.createTask title description completed userId w
           = (Ok t, w') ->
           exists l, TaskService.getTasksNeedingSync userId w' = (Ok l, w')
                     /\ In t l)
    /\ (forall id updates t w',
           TaskService.updateTask id updates userId w = (Ok (Some t), w') ->
           exists l, TaskService.getTasksNeedingSync userId w' = (Ok l, w')
                     /\ In t l)
    /\ (forall id w',
           TaskService.deleteTask id userId w = (Ok true, w') ->
           exists l t,
             TaskService.getTasksNeedingSync userId w' = (Ok l, w')
             /\ In t l /\ Task.id t = id /\ Task.is_deleted t = JNum 1)
    /\ (forall taskId serverData w',
           Str.is_empty userId = false ->
           updateSyncStatus taskId "synced" userId serverData w = (Ok tt, w') ->
           exists l, TaskService.getTasksNeedingSync userId w' = (Ok l, w')
                     /\ forall t, In t l -> Task.id t <> taskId).
Proof.
  intros userId w. split; [|split; [|split; [|split]]].
  - unfold TaskService.getTasksNeedingSync.
    destruct (Str.is_empty userId); [discriminate|].
    intros l w1 H. injection H as <- <-. split; [reflexivity|].
    intros t. rewrite filter_In, unsynced_of_true. tauto.
  - intros title description completed t w' H.
    apply createTask_run in H as (Hu & _ & _ & _ & Hrow & Htasks & _).
    rewrite (@getTasksNeedingSync_run userId _ Hu). eexists. split; [reflexivity|].
    apply filter_In. split; [rewrite Htasks; apply in_or_app; right; now left|].
    apply unsynced_of_true. rewrite Hrow. split; [reflexivity|discriminate].
  - intros id updates t w' H.
    apply updateTask_run in H as (Hid & Hu & H).
    destruct (find (TaskService.live_matches id userId) (tasks w))
      as [old|] eqn:He; [|destruct H; discriminate].
    cbv zeta in H. destruct H as (_ & Hr & Htasks & _).
    rewrite (@getTasksNeedingSync_run userId _ Hu). eexists. split; [reflexivity|].
    symmetry in Hr. apply find_some in Hr as [Hin Hl].
    apply filter_In. split; [now rewrite Htasks|].
    apply unsynced_of_true.
    pose proof (live_matches_id _ _ _ Hl) as (_ & Hu' & _).
    split; [exact Hu'|].
    rewrite in_map_iff in Hin. destruct Hin as (x & Hx & _).
    rewrite <- Hx in Hl |- *. rewrite live_matches_updated in Hl.
    rewrite Hl. discriminate.
  - intros id w' H.
    apply deleteTask_run in H as (Hid & Hu & (e & He) & Htasks & _).
    rewrite (@getTasksNeedingSync_run userId _ Hu).
    apply find_some in He as [Hin Hl].
    pose proof (live_is_match _ _ _ Hl) as Hm.
    pose proof (live_matches_id _ _ _ Hl) as (Hid' & Hu' & _).
    exists (filter (SQL.unsynced_of userId) (tasks w')),
           (deleted_task (clock w (clock_reads w)) e).
    split; [reflexivity|]. split; [|split; [exact Hid'|reflexivity]].
    apply filter_In. split.
    + rewrite Htasks, in_map_iff. exists e. now rewrite Hm.
    + apply unsynced_of_true. split; [exact Hu'|discriminate].
  - intros taskId serverData w' Hu H.
    rewrite updateSyncStatus_run in H. injection H as <-.
    rewrite (@getTasksNeedingSync_run userId _ Hu). eexists. split; [reflexivity|].
    intros t Hin Hid. apply filter_In in Hin as [Hin Hs].
    apply unsynced_of_true in Hs as [Hu' Hs]. apply Hs.
    cbn [String.eqb Ascii.eqb Bool.eqb] in Hin. msimpl.
    apply (@status_of_marked taskId userId "synced" _ _ (tasks w) t Hin).
    unfold SQL.task_matches. now rewrite Hid, Hu', !String.eqb_refl.
Qed.

(** ** Queries of the sync state *)

Lemma sorted_app_inv {A} (R : A -> A -> Prop) (l1 l2 : list A) :
  StronglySorted R (l1 ++ l2) ->
  StronglySorted R l1 /\ StronglySorted R l2
  /\ forall x y, In x l1 -> In y l2 -> R x y.
Proof.
  induction l1 as [|a l1 IH]; cbn [app]; intros H.
  - split; [constructor|]. split; [exact H|]. intros x y [].
  - apply StronglySorted_inv in H as [Hs Hall].
    destruct (IH Hs) as (H1 & H2 & H3).
    rewrite Forall_app in Hall. destruct Hall as [Ha1 Ha2].
    split; [now constructor|]. split; [exact H2|].
    intros x y [<- | Hx] Hy.
    + rewrite Forall_forall in Ha2. now apply Ha2.
    + now apply H3.
Qed.

Lemma desc_sorted_newer_first {A B} (cmp : B -> B -> comparison)
  `{Comparator B cmp} (c : A -> B) (l : list A) :
  StronglySorted (cmp_le (SQL.desc cmp c)) l ->
  forall a b, In a l -> In b l -> cmp (c a) (c b) = Lt ->
  exists l1 l2 l3, l = (l1 ++ b :: l2 ++ a :: l3)%list.
Proof.
  intros Hsorted a b Ha Hb Hlt.
  apply in_split in Hb as (l1 & r & ->).
  apply sorted_app_inv in Hsorted as (_ & Hr & Hcross).
  apply in_app_or in Ha as [Ha | [Ha | Ha]].
  - exfalso. specialize (Hcross a b Ha (or_introl eq_refl)).
    unfold cmp_le, SQL.desc in Hcross. apply Hcross.
    rewrite (cmp_sym (cmp := cmp)), Hlt. reflexivity.
  - subst a. pose proof (cmp_sym (cmp := cmp) (c b) (c b)) as Hs.
    rewrite Hlt in Hs. discriminate Hs.
  - apply in_split in Ha as (l2 & l3 & ->). now exists l1, l2, l3.
Qed.

(** The tables after [handleSyncError] has moved an operation to the
    dead-letter store. *)
Lemma handleSyncError_moves item data message userId w r w' :
  handleSyncError item data message userId w = (r, w') ->
  3 <= QueueRow.retry_count item + 1 ->
  ~ In (uuids w (uuid_reads w)) (map DeadLetter.id (dead_letter_queue w)) ->
  r = Ok tt
  /\ dead_letter_queue w'
     = (dead_letter_queue w
        ++ [DeadLetter.mk (uuids w (uuid_reads w)) userId
              (QueueRow.task_id item) (QueueRow.operation item)
              (match data with JStr s => s | _ => JSON.stringify data end)
              (QueueRow.retry_count item + 1) message
              (QueueRow.created_at item) (clock w (clock_reads w))])%list
  /\ sync_queue w'
     = filter (fun q => negb (SQL.queue_id_matches (QueueRow.id item) userId q))
              (sync_queue w)
  /\ sync_logs w' = sync_logs w.
Proof.
  intros Hrun Hc Hfresh. unfold handleSyncError in Hrun.
  destruct (QueueRow.retry_count item + 1 >=? MAX_RETRIES) eqn:E.
  - unfold updateSyncStatus, SQL.insert_dead_letter, SQL.delete_queue_by_id,
      SQL.update_task_status in Hrun.
    unfold_M. simpl in Hrun.
    rewrite (fresh_dead_letter_id _ _ Hfresh) in Hrun. simpl in Hrun.
    injection Hrun as <- <-. simpl. auto.
  - unfold MAX_RETRIES in E.
    destruct (Z.geb_spec (QueueRow.retry_count item + 1) 3); [discriminate|lia].
Qed.

(** X7 - getDeadLetterQueue reads only and returns exactly the
    caller's dead-letter entries, latest failure first.  An operation whose
    failure brings its retry count to 3 or more is in the list afterwards
    (its entry id being fresh), with its task id, operation, new retry count
    and error message, and is in no other user's list. *)
Theorem getDeadLetterQueue_lists_own_failures_latest_first :
  forall (userId : string) (w : world),
  exists l,
    getDeadLetterQueue userId w = (Ok l, w)
    /\ Permutation l (filter (fun d => String.eqb (DeadLetter.user_id d) userId)
                             (dead_letter_queue w))
    /\ (forall d, In d l <->
                  In d (dead_letter_queue w) /\ DeadLetter.user_id d = userId)
    /\ StronglySorted
         (fun a b => Str.le (DeadLetter.failed_at b) (DeadLetter.failed_at a)) l
    /\ (forall a b, In a l -> In b l ->
          Str.lt (DeadLetter.failed_at a) (DeadLetter.failed_at b) ->
          exists l1 l2 l3, l = (l1 ++ b :: l2 ++ a :: l3)%list)
    /\ (forall item data message r w',
          handleSyncError item data message userId w = (r, w') ->
          3 <= QueueRow.retry_count item + 1 ->
          ~ In (uuids w (uuid_reads w))
               (map DeadLetter.id (dead_letter_queue w)) ->
          exists l' d,
            getDeadLetterQueue userId w' = (Ok l', w') /\ In d l'
            /\ DeadLetter.task_id d = QueueRow.task_id item
            /\ DeadLetter.operation d = QueueRow.operation item
            /\ DeadLetter.retry_count d = QueueRow.retry_count item + 1
            /\ DeadLetter.error_message d = message
            /\ (forall other l'',
                  other <> userId ->
                  getDeadLetterQueue other w' = (Ok l'', w') -> ~ In d l'')).
Proof.
  intros userId w.
  assert (Hmem : forall u v l d,
             getDeadLetterQueue u v = (Ok l, v) ->
             (In d l <-> In d (dead_letter_queue v) /\ DeadLetter.user_id d = u)).
  { intros u v l d Hrun. unfold getDeadLetterQueue, SQL.select_dead_letters in Hrun.
    injection Hrun as <-.
    split.
    - intros Hin. apply (Permutation_in _ (sort_by_perm _ _)) in Hin.
      apply filter_In in Hin as [Hin Hu]. now apply String.eqb_eq in Hu.
    - intros [Hin Hu].
      apply (Permutation_in _ (Permutation_sym (sort_by_perm _ _))).
      apply filter_In. split; [exact Hin|]. now apply String.eqb_eq. }
  assert (Hrun0 : forall u v, exists l, getDeadLetterQueue u v = (Ok l, v))
    by (intros; eexists; reflexivity).
  unfold getDeadLetterQueue at 1, SQL.select_dead_letters at 1.
  set (cmp := SQL.desc String.compare DeadLetter.failed_at).
  set (own := filter _ (dead_letter_queue w)).
  assert (Hperm : Permutation (sort_by cmp own) own)
    by apply (@sort_by_perm _ cmp).
  assert (Hsorted : StronglySorted (cmp_le cmp) (sort_by cmp own))
    by apply (@sort_by_sorted _ cmp _).
  exists (sort_by cmp own). split; [reflexivity|]. split; [exact Hperm|].
  split; [|split; [exact Hsorted|split]].
  - intros d. now apply Hmem.
  - intros a b Ha Hb Hlt.
    exact (@desc_sorted_newer_first _ _ String.compare _
             DeadLetter.failed_at _ Hsorted a b Ha Hb Hlt).
  - intros item data message r w' Hrun Hc Hfresh.
    apply handleSyncError_moves in Hrun as (_ & Hdead & _); try assumption.
    destruct (Hrun0 userId w') as (l' & Hl').
    match type of Hdead with _ = (_ ++ [?d])%list => exists l', d end.
    split; [exact Hl'|]. split.
    + apply (Hmem _ _ _ _ Hl'). split; [|reflexivity].
      rewrite Hdead. apply in_or_app. right. left. reflexivity.
    + repeat (split; [reflexivity|]).
      intros other l'' Hne Hl'' Hin.
      apply (Hmem _ _ _ _ Hl'') in Hin as [_ Hu]. cbn in Hu. congruence.
Qed.

Lemma firstn_le_length {A} (n : nat) (l : list A) :
  (List.length (firstn n l) <= n)%nat.
Proof. rewrite length_firstn. lia. Qed.

Lemma skipn_nonempty_full {A} (n : nat) (l : list A) :
  skipn n l <> [] -> List.length (firstn n l) = n.
Proof.
  intros H. rewrite length_firstn.
  destruct (Nat.le_gt_cases (List.length l) n) as [Hle | Hgt]; [|lia].
  now rewrite skipn_all2 in H.
Qed.

(** The user's sync logs, newest first. *)
Lemma recent_logs_spec userId w :
  let own := filter (fun l => String.eqb (SyncLog.user_id l) userId)
                    (sync_logs w) in
  let sorted := sort_by (SQL.desc String.compare SyncLog.created_at) own in
  SQL.select_recent_logs userId w = (Ok (firstn 5 sorted), w)
  /\ Permutation (firstn 5 sorted ++ skipn 5 sorted) own
  /\ StronglySorted
       (fun a b => Str.le (SyncLog.created_at b) (SyncLog.created_at a))
       (firstn 5 sorted)
  /\ (forall a b, In a (firstn 5 sorted) -> In b (skipn 5 sorted) ->
                  Str.le (SyncLog.created_at b) (SyncLog.created_at a)).
Proof.
  cbv zeta.
  set (cmp := SQL.desc String.compare SyncLog.created_at).
  set (own := filter _ (sync_logs w)).
  pose proof (@sort_by_sorted _ cmp _ own) as Hsorted.
  rewrite <- (firstn_skipn 5 (sort_by cmp own)) in Hsorted.
  apply sorted_app_inv in Hsorted as (H1 & _ & H3).
  split; [reflexivity|]. split; [|split; [exact H1|exact H3]].
  rewrite firstn_skipn. apply (@sort_by_perm _ cmp).
Qed.

(** X8 - getSyncStatus reads only; its pending count is the number
    of the caller's rows in the sync queue, and its logs are at most five of
    the caller's sync logs, latest first: every log left out is not later
    than any log shown, and logs are left out only when five are shown. *)
Theorem getSyncStatus_counts_the_queue_and_shows_latest_logs :
  forall (userId : string) (w : world),
  exists logs older,
    getSyncStatus userId w
    = (Ok (mkReport logs
             (Z.of_nat (List.length (filter (SQL.owned_by userId)
                                            (sync_queue w))))), w)
    /\ Permutation (logs ++ older)
                   (filter (fun l => String.eqb (SyncLog.user_id l) userId)
                           (sync_logs w))
    /\ (List.length logs <= 5)%nat
    /\ (older <> [] -> List.length logs = 5%nat)
    /\ StronglySorted
         (fun a b => Str.le (SyncLog.created_at b) (SyncLog.created_at a)) logs
    /\ (forall a b, In a logs -> In b older ->
                    Str.le (SyncLog.created_at b) (SyncLog.created_at a)).
Proof.
  intros userId w.
  destruct (recent_logs_spec userId w) as (Hrun & Hperm & Hsorted & Hcross).
  eexists. eexists. split.
  - unfold getSyncStatus. unfold bind at 1. rewrite Hrun.
    unfold bind, SQL.select_queue, ret. reflexivity.
  - split; [exact Hperm|]. split; [apply firstn_le_length|].
    split; [apply skipn_nonempty_full|]. split; [exact Hsorted|exact Hcross].
Qed.

Import SyncRoutes.

(** X9 - GET /status always replies 200 and writes nothing;
    pending_sync_count and sync_queue_size are both the number of the
    caller's queued operations, is_online is true, and last_sync_timestamp is
    the creation time of the caller's latest sync log, or null when the
    caller has none. *)
Theorem get_status_reports_queue_size_and_last_sync :
  forall (userId : string) (w : world),
  exists body,
    get_status userId w = (Ok (Reply200 body), w)
    /\ pending_sync_count body
       = Z.of_nat (List.length (filter (SQL.owned_by userId) (sync_queue w)))
    /\ sync_queue_size body = pending_sync_count body
    /\ is_online body = true
    /\ match last_sync_timestamp body with
       | None =>
           forall l, In l (sync_logs w) -> SyncLog.user_id l <> userId
       | Some ts =>
           (exists l, In l (sync_logs w) /\ SyncLog.user_id l = userId
                      /\ SyncLog.created_at l = ts)
           /\ (forall l, In l (sync_logs w) -> SyncLog.user_id l = userId ->
                         Str.le (SyncLog.created_at l) ts)
       end.
Proof.
  intros userId w.
  destruct (recent_logs_spec userId w) as (Hrun & Hperm & Hsorted & Hcross).
  set (own := filter (fun l => String.eqb (SyncLog.user_id l) userId)
                     (sync_logs w)) in *.
  set (sorted := sort_by (SQL.desc String.compare SyncLog.created_at) own) in *.
  assert (Hown : forall l, In l own <->
                           In l (sync_logs w) /\ SyncLog.user_id l = userId).
  { intros l. unfold own. rewrite filter_In, String.eqb_eq. tauto. }
  eexists. split.
  - unfold get_status. unfold bind at 1, try. unfold getSyncStatus.
    unfold bind at 1. rewrite Hrun. unfold bind, SQL.select_queue, ret.
    cbn [s_pending s_logs]. reflexivity.
  - cbn [pending_sync_count sync_queue_size is_online last_sync_timestamp].
    split; [reflexivity|]. split; [reflexivity|]. split; [reflexivity|].
    destruct (firstn 5 sorted) as [|top rest] eqn:Hfirst; cbn [option_map].
    + assert (Hnil : sorted = []).
      { destruct sorted; [reflexivity|discriminate]. }
      rewrite Hnil in Hperm. cbn in Hperm.
      apply Permutation_nil in Hperm.
      intros l Hin Hu. assert (Hl : In l own) by (apply Hown; tauto).
      now rewrite Hperm in Hl.
    + split.
      * exists top. apply and_assoc. split; [|reflexivity]. apply Hown.
        apply (Permutation_in _ Hperm). now left.
      * intros l Hin Hu. assert (Hl : In l own) by (apply Hown; tauto).
        apply (Permutation_in _ (Permutation_sym Hperm)) in Hl.
        cbn [app] in Hl. destruct Hl as [<- | Hl].
        -- unfold Str.le. now rewrite string_compare_refl.
        -- apply in_app_or in Hl as [Hl | Hl].
           ++ apply StronglySorted_inv in Hsorted as [_ Hall].
              rewrite Forall_forall in Hall. now apply Hall.
           ++ apply Hcross; [now left|exact Hl].
Qed.

(** ** Batches *)

Lemma slices_spec {A} (size : nat) :
  (0 < size)%nat ->
  forall (fuel : nat) (l : list A),
    (List.length l <= fuel)%nat ->
    List.concat (slices fuel size l) = l
    /\ Forall (fun b => b <> [] /\ (List.length b <= size)%nat)
              (slices fuel size l)
    /\ (forall pre b post,
           slices fuel size l = (pre ++ b :: post)%list -> post <> [] ->
           List.length b = size).
Proof.
  intros Hsize. induction fuel as [|fuel IH]; intros l Hlen.
  - destruct l; [|cbn [List.length] in Hlen; lia].
    simpl. split; [reflexivity|]. split; [constructor|].
    intros pre b post H. now destruct pre.
  - destruct l as [|a l]; cbn [slices].
    + split; [reflexivity|]. split; [constructor|].
      intros pre b post H. now destruct pre.
    + set (l0 := a :: l) in *.
      assert (Hrest : (List.length (skipn size l0) <= fuel)%nat).
      { rewrite length_skipn. unfold l0 in *. cbn [List.length] in *. lia. }
      destruct (IH _ Hrest) as (Hc & Hall & Hfull).
      split; [|split].
      * cbn [List.concat]. rewrite Hc. apply firstn_skipn.
      * constructor; [|exact Hall]. split.
        -- unfold l0. destruct size; [lia|]. discriminate.
        -- rewrite length_firstn. lia.
      * intros pre b post Heq Hpost. destruct pre as [|p pre]; cbn [app] in Heq.
        -- injection Heq as <- Hpost'. rewrite length_firstn.
           destruct (Nat.le_gt_cases size (List.length l0)) as [Hle|Hgt]; [lia|].
           exfalso. rewrite skipn_all2 in Hpost' by lia.
           destruct fuel; simpl in Hpost'; now subst post.
        -- injection Heq as _ Heq. now apply (Hfull pre b post).
Qed.

(** X10 - The batches that sync makes from the drained queue, taken
    in order, are the queue: no operation is dropped, repeated or reordered.
    No batch is empty or longer than the batch size, every batch but the last
    has exactly the batch size, and every batch carries the checksum that
    verifyBatchChecksum accepts. *)
Theorem batches_partition_the_queue :
  forall (size : positive) (queueItems : list QueueRow.t),
    List.concat (map fst (make_batches size queueItems)) = queueItems
    /\ Forall (fun b => fst b <> []
                        /\ (List.length (fst b) <= Pos.to_nat size)%nat
                        /\ snd b = generateBatchChecksum (fst b)
                        /\ verifyBatchChecksum (fst b) (snd b) = true)
              (make_batches size queueItems)
    /\ (forall pre b post,
           make_batches size queueItems = (pre ++ b :: post)%list ->
           post <> [] -> List.length (fst b) = Pos.to_nat size).
Proof.
  intros size queueItems. unfold make_batches.
  destruct (@slices_spec QueueRow.t (Pos.to_nat size) (Pos2Nat.is_pos size)
              (List.length queueItems) queueItems (le_n _))
    as (Hc & Hall & Hfull).
  set (sl := slices (List.length queueItems) (Pos.to_nat size) queueItems) in *.
  split; [|split].
  - rewrite map_map. cbn [fst]. now rewrite map_id.
  - rewrite Forall_map. eapply Forall_impl; [|exact Hall].
    intros b [H1 H2]. cbn [fst snd]. repeat split; try assumption.
    unfold verifyBatchChecksum. apply String.eqb_refl.
  - intros pre b post Heq Hpost.
    apply (f_equal (map fst)) in Heq. rewrite map_map in Heq. cbn [fst] in Heq.
    rewrite map_id, map_app in Heq. cbn [map] in Heq.
    apply (Hfull _ _ _ Heq). destruct post; [congruence|discriminate].
Qed.

(** ** Relations that every run keeps *)

Section Keeps.
Variable R : world -> world -> Prop.
Hypothesis R_refl : forall w, R w w.
Hypothesis R_trans : forall a b c, R a b -> R b c -> R a c.

Lemma keeps_ret {A} (a : A) : keeps R (ret a).
Proof. intros w r w' H. injection H as _ <-. apply R_refl. Qed.

Lemma keeps_throw {A} (e : string) : keeps R (@throw A e).
Proof. intros w r w' H. injection H as _ <-. apply R_refl. Qed.

Lemma keeps_read {A} (f : world -> A) : keeps R (fun w => (Ok (f w), w)).
Proof. intros w r w' H. injection H as _ <-. apply R_refl. Qed.

Lemma keeps_bind {A B} (m : M A) (f : A -> M B) :
  keeps R m -> (forall a, keeps R (f a)) -> keeps R (bind m f).
Proof.
  intros Hm Hf w r w'. unfold bind.
  destruct (m w) as [[a | e] w1] eqn:E; intros H.
  - eapply R_trans; [exact (Hm _ _ _ E)|exact (Hf _ _ _ _ H)].
  - injection H as _ <-. exact (Hm _ _ _ E).
Qed.

Lemma keeps_try {A} (m : M A) : keeps R m -> keeps R (try m).
Proof.
  intros Hm w r w'. unfold try. destruct (m w) as [x w1] eqn:E.
  intros H. injection H as _ <-. exact (Hm _ _ _ E).
Qed.

Lemma keeps_for_each {A} (l : list A) (body : A -> M unit) :
  (forall a, keeps R (body a)) -> keeps R (for_each l body).
Proof.
  intros Hb. induction l as [|a l IH]; cbn [for_each].
  - apply keeps_ret.
  - apply keeps_bind; [apply Hb|intros _; exact IH].
Qed.

Lemma keeps_fold_M {A S} (body : S -> A -> M S) (l : list A) :
  (forall s a, keeps R (body s a)) -> forall s, keeps R (fold_M body l s).
Proof.
  intros Hb. induction l as [|a l IH]; intros s; cbn [fold_M].
  - apply keeps_ret.
  - apply keeps_bind; [apply Hb|intros s'; apply IH].
Qed.

End Keeps.

Ltac keeps_step :=
  cbv beta zeta;
  match goal with
  | |- keeps _ (bind _ _) =>
      apply keeps_bind; [eassumption| |intros ?]
  | |- keeps _ (ret _) => apply keeps_ret; eassumption
  | |- keeps _ (throw _) => apply keeps_throw; eassumption
  | |- keeps _ (try _) => apply keeps_try
  | |- keeps _ (for_each _ _) =>
      apply keeps_for_each; [eassumption|eassumption|intros ?]
  | |- keeps _ (fold_M _ _ _) =>
      apply keeps_fold_M; [eassumption|eassumption|intros ? ?]
  | |- keeps _ (if ?b then _ else _) => destruct b
  | |- keeps _ (match ?x with _ => _ end) => destruct x
  end.

(** ** What the services keep, given what their statements keep *)

Section ServicesKeep.
Variable userId : string.
Variable R : world -> world -> Prop.
Hypothesis R_refl : forall w, R w w.
Hypothesis R_trans : forall a b c, R a b -> R b c -> R a c.
Hypothesis R_now : keeps R now.
Hypothesis R_uuidv4 : keeps R uuidv4.
Hypothesis R_insert_task :
  forall t, Task.user_id t = userId -> keeps R (SQL.insert_task t).
Hypothesis R_update_tasks :
  forall (c : Task.t -> bool) (g : Task.t -> Task.t),
    (forall t, c t = true -> Task.user_id t = userId) ->
    (forall t, Task.id (g t) = Task.id t /\ Task.user_id (g t) = Task.user_id t
               /\ Task.created_at (g t) = Task.created_at t) ->
    keeps R (modify (fun w =>
               set_tasks (map (fun t => if c t then g t else t) (tasks w)) w)).
Hypothesis R_insert_queue :
  forall q, QueueRow.user_id q = userId -> keeps R (SQL.insert_queue q).
Hypothesis R_delete_queue :
  forall c : QueueRow.t -> bool,
    (forall q, c q = true -> QueueRow.user_id q = userId) ->
    keeps R (modify (fun w =>
               set_sync_queue (filter (fun q => negb (c q)) (sync_queue w)) w)).
Hypothesis R_update_queue :
  forall (c : QueueRow.t -> bool) (g : QueueRow.t -> QueueRow.t),
    (forall q, c q = true -> QueueRow.user_id q = userId) ->
    (forall q, QueueRow.user_id (g q) = QueueRow.user_id q) ->
    keeps R (modify (fun w =>
               set_sync_queue
                 (map (fun q => if c q then g q else q) (sync_queue w)) w)).
Hypothesis R_insert_dead_letter :
  forall d, DeadLetter.user_id d = userId -> keeps R (SQL.insert_dead_letter d).
Hypothesis R_insert_sync_log :
  forall l, SyncLog.user_id l = userId -> keeps R (SQL.insert_sync_log l).

Lemma task_matches_user taskId t :
  SQL.task_matches taskId userId t = true -> Task.user_id t = userId.
Proof.
  unfold SQL.task_matches. rewrite andb_true_iff, !String.eqb_eq. tauto.
Qed.

Lemma updateSyncStatus_keeps taskId status serverData :
  keeps R (updateSyncStatus taskId status userId serverData).
Proof.
  unfold updateSyncStatus. keeps_step; [exact R_now|].
  keeps_step.
  - apply R_update_tasks; [apply task_matches_user|].
    intros x. repeat split; reflexivity.
  - keeps_step; [|keeps_step].
    apply R_delete_queue. intros q. unfold SQL.queue_task_matches.
    rewrite andb_true_iff, !String.eqb_eq. tauto.
Qed.

Lemma prop_keeps data k : keeps R (prop data k).
Proof. unfold prop. destruct data; first [apply keeps_throw | apply keeps_ret]; assumption. Qed.

Lemma processItem_create_keeps item data now_ :
  keeps R (processItem_create item data userId now_).
Proof.
  unfold processItem_create.
  keeps_step; [exact R_uuidv4|].
  do 5 (keeps_step; [apply prop_keeps|]).
  keeps_step; [|keeps_step].
  apply R_insert_task. reflexivity.
Qed.

Lemma getTaskByIdIncludingDeleted_keeps id :
  keeps R (TaskService.getTaskByIdIncludingDeleted id userId).
Proof.
  unfold TaskService.getTaskByIdIncludingDeleted.
  repeat keeps_step. unfold SQL.select_task. now apply keeps_read.
Qed.

Lemma processItem_keeps item data : keeps R (processItem item data userId).
Proof.
  unfold processItem. keeps_step; [exact R_now|].
  keeps_step; [apply processItem_create_keeps|].
  keeps_step; [|keeps_step].
  keeps_step; [apply getTaskByIdIncludingDeleted_keeps|].
  keeps_step.
  - keeps_step; [|keeps_step].
    do 4 (keeps_step; [apply prop_keeps|]).
    keeps_step; [|keeps_step].
    apply R_update_tasks; [apply task_matches_user|].
    intros x. repeat split; reflexivity.
  - keeps_step; [keeps_step|].
    keeps_step; [exact R_now|apply processItem_create_keeps].
Qed.

Lemma handleSyncError_keeps item data message :
  keeps R (handleSyncError item data message userId).
Proof.
  unfold handleSyncError. keeps_step; [|keeps_step].
  keeps_step. keeps_step.
  - keeps_step; [exact R_uuidv4|]. keeps_step; [exact R_now|].
    keeps_step; [now apply R_insert_dead_letter|].
    keeps_step; [|apply updateSyncStatus_keeps].
    apply R_delete_queue. intros q. unfold SQL.queue_id_matches.
    rewrite andb_true_iff, !String.eqb_eq. tauto.
  - keeps_step; [|apply updateSyncStatus_keeps].
    apply R_update_queue.
    + intros q. unfold SQL.queue_id_matches.
      rewrite andb_true_iff, !String.eqb_eq. tauto.
    + reflexivity.
Qed.

Lemma processBatch_item_keeps acc raw :
  keeps R (processBatch_item userId acc raw).
Proof.
  unfold processBatch_item. keeps_step.
  - keeps_step. apply processItem_keeps.
  - keeps_step.
    + keeps_step; [apply updateSyncStatus_keeps|keeps_step].
    + keeps_step; [apply handleSyncError_keeps|keeps_step].
Qed.

Lemma processBatch_keeps items : keeps R (processBatch items userId).
Proof.
  unfold processBatch. keeps_step. apply processBatch_item_keeps.
Qed.

Lemma sync_addToSyncQueue_keeps taskId operation data ots :
  keeps R (addToSyncQueue taskId operation data userId ots).
Proof.
  unfold addToSyncQueue. keeps_step; [exact R_uuidv4|].
  keeps_step; [exact R_now|]. cbv zeta. now apply R_insert_queue.
Qed.

Lemma enqueue_changes_keeps changes : keeps R (enqueue_changes changes userId).
Proof.
  unfold enqueue_changes. keeps_step. keeps_step; [keeps_step|].
  apply sync_addToSyncQueue_keeps.
Qed.

Lemma sync_batch_keeps acc batchData : keeps R (sync_batch userId acc batchData).
Proof.
  destruct batchData as [batch checksum]. unfold sync_batch.
  keeps_step; [keeps_step|].
  keeps_step.
  - keeps_step. apply updateSyncStatus_keeps.
  - keeps_step; [apply processBatch_keeps|keeps_step].
Qed.

Lemma sync_keeps changes last_synced_at syncId :
  keeps R (sync changes last_synced_at userId syncId).
Proof.
  unfold sync. keeps_step; [apply enqueue_changes_keeps|].
  keeps_step; [unfold SQL.select_queue_ordered; now apply keeps_read|].
  keeps_step; [now apply keeps_read|].
  keeps_step.
  { apply keeps_fold_M; [exact R_refl|exact R_trans|].
    intros acc batchData. apply sync_batch_keeps. }
  keeps_step.
  { destruct syncId as [s|]; [destruct (Str.is_empty s)|];
      first [exact R_uuidv4 | now apply keeps_ret]. }
  keeps_step; [exact R_now|].
  keeps_step; [keeps_step; now apply R_insert_sync_log|].
  keeps_step; [|keeps_step].
  unfold SQL.select_tasks_updated_after. now apply keeps_read.
Qed.

Lemma task_addToSyncQueue_keeps taskId operation data ots :
  keeps R (TaskService.addToSyncQueue taskId operation data userId ots).
Proof.
  unfold TaskService.addToSyncQueue. do 3 (keeps_step; [keeps_step|]).
  keeps_step; [exact R_uuidv4|]. keeps_step; [exact R_now|].
  keeps_step; [now apply R_insert_queue|keeps_step].
Qed.

Lemma getTaskById_keeps id : keeps R (TaskService.getTaskById id userId).
Proof.
  unfold TaskService.getTaskById. repeat keeps_step. now apply keeps_read.
Qed.

Lemma live_matches_user id t :
  TaskService.live_matches id userId t = true -> Task.user_id t = userId.
Proof. intros H. now apply live_matches_id in H. Qed.

Lemma createTask_keeps title description completed :
  keeps R (TaskService.createTask title description completed userId).
Proof.
  unfold TaskService.createTask. do 2 (keeps_step; [keeps_step|]).
  keeps_step; [exact R_uuidv4|]. keeps_step; [exact R_now|].
  keeps_step; [now apply R_insert_task|].
  keeps_step; [apply task_addToSyncQueue_keeps|keeps_step].
Qed.

Lemma deleteTask_keeps id : keeps R (TaskService.deleteTask id userId).
Proof.
  unfold TaskService.deleteTask. do 2 (keeps_step; [keeps_step|]).
  keeps_step; [apply getTaskById_keeps|].
  keeps_step; [|keeps_step].
  keeps_step; [exact R_now|].
  keeps_step.
  - apply R_update_tasks; [apply task_matches_user|].
    intros x. repeat split; reflexivity.
  - keeps_step; [apply task_addToSyncQueue_keeps|keeps_step].
Qed.

Lemma updateTask_keeps id updates :
  keeps R (TaskService.updateTask id updates userId).
Proof.
  unfold TaskService.updateTask. do 2 (keeps_step; [keeps_step|]).
  destruct updates; try (now apply keeps_throw);
    (keeps_step; [apply getTaskById_keeps|];
     keeps_step; [|keeps_step];
     keeps_step; [exact R_now|];
     keeps_step;
     [ keeps_step;
       first [ now apply keeps_throw
             | apply R_update_tasks; [apply live_matches_user|];
               intros x; repeat split; reflexivity ]
     | keeps_step; [apply task_addToSyncQueue_keeps|apply getTaskById_keeps] ]).
Qed.

End ServicesKeep.

(** ** Rows of other users *)

Lemma filter_map_if {A} (p c : A -> bool) (g : A -> A) (l : list A) :
  (forall x, c x = true -> p x = false /\ p (g x) = false) ->
  filter p (map (fun x => if c x then g x else x) l) = filter p l.
Proof.
  intros H. induction l as [|a l IH]; cbn [map filter]; [reflexivity|].
  destruct (c a) eqn:E.
  - destruct (H _ E) as [-> ->]. exact IH.
  - now rewrite IH.
Qed.

Lemma filter_filter_neg {A} (p c : A -> bool) (l : list A) :
  (forall x, c x = true -> p x = false) ->
  filter p (filter (fun x => negb (c x)) l) = filter p l.
Proof.
  intros H. induction l as [|a l IH]; cbn [filter]; [reflexivity|].
  destruct (c a) eqn:E; cbn [negb filter].
  - now rewrite (H _ E).
  - now rewrite IH.
Qed.

Lemma filter_app_other {A} (p : A -> bool) (l : list A) (x : A) :
  p x = false -> filter p (l ++ [x]) = filter p l.
Proof.
  intros H. rewrite filter_app. cbn [filter]. rewrite H. apply app_nil_r.
Qed.

Lemma eqb_other (a b c : string) : a = b -> c <> b -> String.eqb a c = false.
Proof. intros -> H. apply String.eqb_neq. congruence. Qed.

Section OtherUsers.
Variables userId other : string.
Hypothesis Hother : other <> userId.

Let R := same_rows_of other.

Lemma same_rows_refl w : R w w.
Proof. reflexivity. Qed.

Lemma same_rows_trans a b c : R a b -> R b c -> R a c.
Proof. unfold R, same_rows_of. congruence. Qed.

Lemma same_rows_now : keeps R now.
Proof. intros w r w' H. injection H as _ <-. reflexivity. Qed.

Lemma same_rows_uuidv4 : keeps R uuidv4.
Proof. intros w r w' H. injection H as _ <-. reflexivity. Qed.

Lemma same_rows_insert_task t :
  Task.user_id t = userId -> keeps R (SQL.insert_task t).
Proof.
  intros Hu w r w'. unfold SQL.insert_task.
  destruct (existsb _ (tasks w)); destruct (Task.title t);
    intros H; injection H as _ <-; try reflexivity;
    unfold R, same_rows_of, rows_of; msimpl;
    rewrite filter_app_other by (now apply eqb_other with userId);
    reflexivity.
Qed.

Lemma same_rows_update_tasks (c : Task.t -> bool) (g : Task.t -> Task.t) :
  (forall t, c t = true -> Task.user_id t = userId) ->
  (forall t, Task.id (g t) = Task.id t /\ Task.user_id (g t) = Task.user_id t
             /\ Task.created_at (g t) = Task.created_at t) ->
  keeps R (modify (fun w =>
             set_tasks (map (fun t => if c t then g t else t) (tasks w)) w)).
Proof.
  intros Hc Hg w r w' H. injection H as _ <-.
  unfold R, same_rows_of, rows_of. msimpl.
  rewrite filter_map_if; [reflexivity|].
  intros x Hx. destruct (Hg x) as (_ & Hgu & _). rewrite Hgu.
  split; apply eqb_other with userId; auto.
Qed.

Lemma same_rows_insert_queue q :
  QueueRow.user_id q = userId -> keeps R (SQL.insert_queue q).
Proof.
  intros Hu w r w'. unfold SQL.insert_queue.
  destruct (existsb _ (sync_queue w)); intros H; injection H as _ <-;
    [reflexivity|].
  unfold R, same_rows_of, rows_of. msimpl.
  rewrite filter_app_other; [reflexivity|].
  unfold SQL.owned_by. now apply eqb_other with userId.
Qed.

Lemma same_rows_delete_queue (c : QueueRow.t -> bool) :
  (forall q, c q = true -> QueueRow.user_id q = userId) ->
  keeps R (modify (fun w =>
             set_sync_queue (filter (fun q => negb (c q)) (sync_queue w)) w)).
Proof.
  intros Hc w r w' H. injection H as _ <-.
  unfold R, same_rows_of, rows_of. msimpl.
  rewrite filter_filter_neg; [reflexivity|].
  intros x Hx. unfold SQL.owned_by. apply eqb_other with userId; auto.
Qed.

Lemma same_rows_update_queue (c : QueueRow.t -> bool)
  (g : QueueRow.t -> QueueRow.t) :
  (forall q, c q = true -> QueueRow.user_id q = userId) ->
  (forall q, QueueRow.user_id (g q) = QueueRow.user_id q) ->
  keeps R (modify (fun w =>
             set_sync_queue
               (map (fun q => if c q then g q else q) (sync_queue w)) w)).
Proof.
  intros Hc Hg w r w' H. injection H as _ <-.
  unfold R, same_rows_of, rows_of. msimpl.
  rewrite filter_map_if; [reflexivity|].
  intros x Hx. unfold SQL.owned_by. rewrite Hg.
  split; apply eqb_other with userId; auto.
Qed.

Lemma same_rows_insert_dead_letter d :
  DeadLetter.user_id d = userId -> keeps R (SQL.insert_dead_letter d).
Proof.
  intros Hu w r w'. unfold SQL.insert_dead_letter.
  destruct (existsb _ (dead_letter_queue w)); intros H; injection H as _ <-;
    [reflexivity|].
  unfold R, same_rows_of, rows_of. msimpl.
  rewrite filter_app_other; [reflexivity|].
  now apply eqb_other with userId.
Qed.

Lemma same_rows_insert_sync_log l :
  SyncLog.user_id l = userId -> keeps R (SQL.insert_sync_log l).
Proof.
  intros Hu w r w'. unfold SQL.insert_sync_log.
  destruct (existsb _ (sync_logs w)); intros H; injection H as _ <-;
    [reflexivity|].
  unfold R, same_rows_of, rows_of. msimpl.
  rewrite filter_app_other; [reflexivity|].
  now apply eqb_other with userId.
Qed.

End OtherUsers.

Lemma filter_andb {A} (p q : A -> bool) (l : list A) :
  filter (fun x => andb (p x) (q x)) l = filter q (filter p l).
Proof.
  induction l as [|a l IH]; cbn [filter]; [reflexivity|].
  destruct (p a); cbn [andb filter]; [destruct (q a)|]; now rewrite IH.
Qed.

(** X11 - Whatever a user's sync, createTask, updateTask or
    deleteTask does, and whether it returns or throws, the rows of any other
    user in the tasks, the sync queue, the dead-letter queue and the sync
    logs are the same, in the same order, and so are the results of that
    other user's getAllTasks, getTasksNeedingSync, getDeadLetterQueue and
    getSyncStatus. *)
Theorem other_users_rows_are_untouched :
  forall (userId other : string),
    other <> userId ->
    (forall changes last_synced_at syncId w r w',
        sync changes last_synced_at userId syncId w = (r, w') ->
        rows_of other w' = rows_of other w)
    /\ (forall title description completed w r w',
           TaskService.createTask title description completed userId w = (r, w') ->
           rows_of other w' = rows_of other w)
    /\ (forall id updates w r w',
           TaskService.updateTask id updates userId w = (r, w') ->
           rows_of other w' = rows_of other w)
    /\ (forall id w r w',
           TaskService.deleteTask id userId w = (r, w') ->
           rows_of other w' = rows_of other w)
    /\ (forall w w',
           rows_of other w' = rows_of other w ->
           fst (TaskService.getAllTasks other w')
           = fst (TaskService.getAllTasks other w)
           /\ fst (TaskService.getTasksNeedingSync other w')
              = fst (TaskService.getTasksNeedingSync other w)
           /\ fst (getDeadLetterQueue other w')
              = fst (getDeadLetterQueue other w)
           /\ fst (getSyncStatus other w') = fst (getSyncStatus other w)).
Proof.
  intros userId other Hother.
  pose proof (@same_rows_refl other) as Hrefl.
  pose proof (@same_rows_trans other) as Htrans.
  pose proof (@same_rows_now other) as Hnow.
  pose proof (@same_rows_uuidv4 other) as Huuid.
  pose proof (@same_rows_insert_task userId other Hother) as H1.
  pose proof (@same_rows_update_tasks userId other Hother) as H2.
  pose proof (@same_rows_insert_queue userId other Hother) as H3.
  pose proof (@same_rows_delete_queue userId other Hother) as H4.
  pose proof (@same_rows_update_queue userId other Hother) as H5.
  pose proof (@same_rows_insert_dead_letter userId other Hother) as H6.
  pose proof (@same_rows_insert_sync_log userId other Hother) as H7.
  split; [|split; [|split; [|split]]].
  - intros changes last syncId.
    exact (@sync_keeps userId _ Hrefl Htrans Hnow Huuid H1 H2 H3 H4 H5 H6 H7
             changes last syncId).
  - intros title description completed.
    exact (@createTask_keeps userId _ Hrefl Htrans Hnow Huuid H1 H3
             title description completed).
  - intros id updates.
    exact (@updateTask_keeps userId _ Hrefl Htrans Hnow Huuid H2 H3 id updates).
  - intros id.
    exact (@deleteTask_keeps userId _ Hrefl Htrans Hnow Huuid H2 H3 id).
  - intros w w' Hrows. unfold rows_of in Hrows.
    injection Hrows as Ht Hq Hd Hl.
    unfold TaskService.getAllTasks, TaskService.getTasksNeedingSync,
      getDeadLetterQueue, getSyncStatus.
    unfold SQL.select_live_tasks, SQL.select_unsynced_tasks,
      SQL.select_dead_letters, SQL.select_recent_logs, SQL.select_queue.
    unfold_M. cbn [fst].
    unfold SQL.live_of, SQL.unsynced_of.
    rewrite Hq, Hd, Hl.
    destruct (Str.is_empty other); cbn [fst]; [auto|].
    rewrite !(filter_andb (fun t => String.eqb (Task.user_id t) other)).
    rewrite Ht. auto.
Qed.

(** ** Rows that no run removes *)

Lemma extends_refl {A} (l : list A) : extends l l.
Proof. exists []. now rewrite app_nil_r. Qed.

Lemma extends_trans {A} (a b c : list A) :
  extends a b -> extends b c -> extends a c.
Proof.
  intros [x ->] [y ->]. exists (x ++ y)%list. now rewrite app_assoc.
Qed.

Lemma extends_app {A} (l x : list A) : extends l (l ++ x).
Proof. now exists x. Qed.

Lemma nothing_lost_refl w : nothing_lost w w.
Proof. repeat split; apply extends_refl. Qed.

Lemma nothing_lost_trans a b c :
  nothing_lost a b -> nothing_lost b c -> nothing_lost a c.
Proof.
  intros (H1 & H2 & H3) (K1 & K2 & K3).
  repeat split; eapply extends_trans; eauto.
Qed.

Lemma nothing_lost_now : keeps nothing_lost now.
Proof.
  intros w r w' H. injection H as _ <-. repeat split; apply extends_refl.
Qed.

Lemma nothing_lost_uuidv4 : keeps nothing_lost uuidv4.
Proof.
  intros w r w' H. injection H as _ <-. repeat split; apply extends_refl.
Qed.

Lemma nothing_lost_insert_task t : keeps nothing_lost (SQL.insert_task t).
Proof.
  intros w r w'. unfold SQL.insert_task.
  destruct (existsb _ (tasks w)); destruct (Task.title t);
    intros H; injection H as _ <-; try apply nothing_lost_refl;
    (split; [|split; apply extends_refl]); msimpl;
    rewrite map_app; apply extends_app.
Qed.

Lemma nothing_lost_update_tasks (c : Task.t -> bool) (g : Task.t -> Task.t) :
  (forall t, Task.id (g t) = Task.id t /\ Task.user_id (g t) = Task.user_id t
             /\ Task.created_at (g t) = Task.created_at t) ->
  keeps nothing_lost
        (modify (fun w =>
           set_tasks (map (fun t => if c t then g t else t) (tasks w)) w)).
Proof.
  intros Hg w r w' H. injection H as _ <-.
  split; [|split; apply extends_refl]. msimpl.
  rewrite map_map.
  replace (map (fun x => task_key (if c x then g x else x)) (tasks w))
    with (map task_key (tasks w)); [apply extends_refl|].
  apply map_ext. intros x. destruct (c x); [|reflexivity].
  unfold task_key. destruct (Hg x) as (-> & -> & ->). reflexivity.
Qed.

Lemma nothing_lost_queue (f : world -> list QueueRow.t) :
  keeps nothing_lost (modify (fun w => set_sync_queue (f w) w)).
Proof.
  intros w r w' H. injection H as _ <-. repeat split; apply extends_refl.
Qed.

Lemma nothing_lost_insert_queue q : keeps nothing_lost (SQL.insert_queue q).
Proof.
  intros w r w'. unfold SQL.insert_queue.
  destruct (existsb _ (sync_queue w)); intros H; injection H as _ <-;
    repeat split; apply extends_refl.
Qed.

Lemma nothing_lost_insert_dead_letter d :
  keeps nothing_lost (SQL.insert_dead_letter d).
Proof.
  intros w r w'. unfold SQL.insert_dead_letter.
  destruct (existsb _ (dead_letter_queue w)); intros H; injection H as _ <-;
    [apply nothing_lost_refl|].
  split; [apply extends_refl|]. split; [apply extends_app|apply extends_refl].
Qed.

Lemma nothing_lost_insert_sync_log l :
  keeps nothing_lost (SQL.insert_sync_log l).
Proof.
  intros w r w'. unfold SQL.insert_sync_log.
  destruct (existsb _ (sync_logs w)); intros H; injection H as _ <-;
    [apply nothing_lost_refl|].
  split; [apply extends_refl|]. split; [apply extends_refl|apply extends_app].
Qed.

(** X12 - No sync, createTask, updateTask or deleteTask, whether it
    returns or throws, removes a task row or changes the id, owner or
    created_at of one: the tasks keep their number or grow, and dead-letter
    entries and sync logs are only appended to. *)
Theorem no_row_is_ever_removed :
  forall (userId : string),
    (forall changes last_synced_at syncId w r w',
        sync changes last_synced_at userId syncId w = (r, w') ->
        nothing_lost w w')
    /\ (forall title description completed w r w',
           TaskService.createTask title description completed userId w = (r, w') ->
           nothing_lost w w')
    /\ (forall id updates w r w',
           TaskService.updateTask id updates userId w = (r, w') ->
           nothing_lost w w')
    /\ (forall id w r w',
           TaskService.deleteTask id userId w = (r, w') -> nothing_lost w w')
    /\ (forall w w',
           nothing_lost w w' ->
           (forall t, In t (tasks w) ->
              exists t', In t' (tasks w') /\ Task.id t' = Task.id t
                         /\ Task.user_id t' = Task.user_id t
                         /\ Task.created_at t' = Task.created_at t)
           /\ (forall d, In d (dead_letter_queue w) -> In d (dead_letter_queue w'))
           /\ (forall l, In l (sync_logs w) -> In l (sync_logs w'))
           /\ (List.length (tasks w) <= List.length (tasks w'))%nat).
Proof.
  intros userId.
  pose proof nothing_lost_refl as Hrefl.
  pose proof nothing_lost_trans as Htrans.
  assert (H2 : forall (c : Task.t -> bool) (g : Task.t -> Task.t),
             (forall t, c t = true -> Task.user_id t = userId) ->
             (forall t, Task.id (g t) = Task.id t
                        /\ Task.user_id (g t) = Task.user_id t
                        /\ Task.created_at (g t) = Task.created_at t) ->
             keeps nothing_lost
               (modify (fun w =>
                  set_tasks (map (fun t => if c t then g t else t) (tasks w)) w)))
    by (intros c g _ Hg; now apply nothing_lost_update_tasks).
  assert (H4 : forall c : QueueRow.t -> bool,
             (forall q, c q = true -> QueueRow.user_id q = userId) ->
             keeps nothing_lost
               (modify (fun w =>
                  set_sync_queue (filter (fun q => negb (c q)) (sync_queue w)) w)))
    by (intros c _;
        exact (nothing_lost_queue
                 (fun w => filter (fun q => negb (c q)) (sync_queue w)))).
  assert (H5 : forall (c : QueueRow.t -> bool) (g : QueueRow.t -> QueueRow.t),
             (forall q, c q = true -> QueueRow.user_id q = userId) ->
             (forall q, QueueRow.user_id (g q) = QueueRow.user_id q) ->
             keeps nothing_lost
               (modify (fun w =>
                  set_sync_queue
                    (map (fun q => if c q then g q else q) (sync_queue w)) w)))
    by (intros c g _ _;
        exact (nothing_lost_queue
                 (fun w => map (fun q => if c q then g q else q) (sync_queue w)))).
  split; [|split; [|split; [|split]]].
  - intros changes last syncId.
    refine (@sync_keeps userId _ Hrefl Htrans nothing_lost_now
              nothing_lost_uuidv4 _ H2 _ H4 H5 _ _ changes last syncId);
      intros; first [ apply nothing_lost_insert_task
                    | apply nothing_lost_insert_queue
                    | apply nothing_lost_insert_dead_letter
                    | apply nothing_lost_insert_sync_log ].
  - intros title description completed.
    refine (@createTask_keeps userId _ Hrefl Htrans nothing_lost_now
              nothing_lost_uuidv4 _ _ title description completed);
      intros; first [ apply nothing_lost_insert_task
                    | apply nothing_lost_insert_queue ].
  - intros id updates.
    refine (@updateTask_keeps userId _ Hrefl Htrans nothing_lost_now
              nothing_lost_uuidv4 H2 _ id updates);
      intros; apply nothing_lost_insert_queue.
  - intros id.
    refine (@deleteTask_keeps userId _ Hrefl Htrans nothing_lost_now
              nothing_lost_uuidv4 H2 _ id);
      intros; apply nothing_lost_insert_queue.
  - intros w w' ([nt Ht] & [nd Hd] & [nl Hl]). split; [|split; [|split]].
    + intros t Hin.
      assert (Hk : In (task_key t) (map task_key (tasks w')))
        by (rewrite Ht; apply in_or_app; left; now apply in_map).
      apply in_map_iff in Hk as (t' & Hk & Hin').
      exists t'. split; [exact Hin'|]. unfold task_key in Hk.
      injection Hk as -> -> ->. auto.
    + intros d Hin. rewrite Hd. apply in_or_app. now left.
    + intros l Hin. rewrite Hl. apply in_or_app. now left.
    + apply (f_equal (@List.length _)) in Ht.
      rewrite length_app, !length_map in Ht. lia.
Qed.

(** ** The counts of a sync *)

Lemma fold_processBatch_counts userId items :
  forall acc w,
  exists r w',
    fold_M (processBatch_item userId) items acc w = (Ok r, w')
    /\ b_processed r + b_failed r
       = b_processed acc + b_failed acc + Z.of_nat (List.length items)
    /\ b_processed acc <= b_processed r /\ b_failed acc <= b_failed r.
Proof.
  induction items as [|a items IH]; intros acc w.
  - exists acc, w. cbn [fold_M List.length]. split; [reflexivity|]. lia.
  - destruct (processBatch_item_total userId acc a w) as (acc1 & w1 & E & Hc).
    destruct (IH acc1 w1) as (r & w' & E' & Hsum & H1 & H2).
    exists r, w'. cbn [fold_M]. unfold bind. rewrite E. split; [exact E'|].
    rewrite length_cons, Nat2Z.inj_succ. lia.
Qed.

Lemma mark_in_progress_total userId (batch : list QueueRow.t) :
  forall w, exists w',
    for_each batch (fun item =>
      updateSyncStatus (QueueRow.task_id item) "in-progress" userId None) w
    = (Ok tt, w').
Proof.
  induction batch as [|a batch IH]; intros w; cbn [for_each].
  - now exists w.
  - unfold bind. rewrite updateSyncStatus_run. cbv zeta. apply IH.
Qed.

Lemma sync_batch_counts userId acc batch w :
  exists r w',
    sync_batch userId acc (batch, generateBatchChecksum batch) w = (Ok r, w')
    /\ b_processed r + b_failed r
       = b_processed acc + b_failed acc + Z.of_nat (List.length batch)
    /\ b_processed acc <= b_processed r /\ b_failed acc <= b_failed r.
Proof.
  rewrite sync_batch_run.
  destruct (mark_in_progress_total userId batch w) as (w1 & E1).
  unfold bind at 1. rewrite E1.
  destruct (fold_processBatch_counts userId batch (mkBatch [] [] 0 0) w1)
    as (r & w2 & E2 & Hsum & H1 & H2).
  unfold bind at 1. unfold processBatch. rewrite E2.
  eexists. eexists. split; [reflexivity|].
  cbn [b_processed b_failed] in *. lia.
Qed.

Lemma fold_sync_batch_counts userId (sl : list (list QueueRow.t)) :
  forall acc w,
  exists r w',
    fold_M (sync_batch userId)
           (map (fun batch => (batch, generateBatchChecksum batch)) sl) acc w
    = (Ok r, w')
    /\ b_processed r + b_failed r
       = b_processed acc + b_failed acc
         + Z.of_nat (List.length (List.concat sl))
    /\ b_processed acc <= b_processed r /\ b_failed acc <= b_failed r.
Proof.
  induction sl as [|batch sl IH]; intros acc w.
  - exists acc, w. cbn. split; [reflexivity|]. lia.
  - destruct (sync_batch_counts userId acc batch w) as (acc1 & w1 & E & Hs & H1 & H2).
    destruct (IH acc1 w1) as (r & w' & E' & Hsum & K1 & K2).
    exists r, w'. cbn [map fold_M]. unfold bind. rewrite E.
    split; [exact E'|].
    cbn [List.concat]. rewrite length_app, Nat2Z.inj_add. lia.
Qed.

Lemma logs_unchanged_until_logged userId changes acc batches :
  keeps logs_unchanged (enqueue_changes changes userId)
  /\ keeps logs_unchanged (fold_M (sync_batch userId) batches acc).
Proof.
  assert (Hrefl : forall w, logs_unchanged w w) by reflexivity.
  assert (Htrans : forall a b c, logs_unchanged a b -> logs_unchanged b c ->
                                 logs_unchanged a c)
    by (unfold logs_unchanged; congruence).
  assert (Hnow : keeps logs_unchanged now)
    by (intros w r w' H; injection H as _ <-; reflexivity).
  assert (Huuid : keeps logs_unchanged uuidv4)
    by (intros w r w' H; injection H as _ <-; reflexivity).
  assert (Hmod : forall f : world -> world,
             (forall w, sync_logs (f w) = sync_logs w) ->
             keeps logs_unchanged (modify f)).
  { intros f Hf w r w' H. injection H as _ <-. apply Hf. }
  split.
  - apply (@enqueue_changes_keeps userId _ Hrefl Htrans Hnow Huuid).
    intros q _ w r w'. unfold SQL.insert_queue.
    destruct (existsb _ _); intros H; injection H as _ <-; reflexivity.
  - apply keeps_fold_M; [exact Hrefl|exact Htrans|].
    intros s b.
    apply (@sync_batch_keeps userId _ Hrefl Htrans Hnow Huuid).
    + intros t _ w r w'. unfold SQL.insert_task.
      destruct (existsb _ _); destruct (Task.title t);
        intros H; injection H as _ <-; reflexivity.
    + intros c g _ _. now apply Hmod.
    + intros c _. now apply Hmod.
    + intros c g _ _. now apply Hmod.
    + intros d _ w r w'. unfold SQL.insert_dead_letter.
      destruct (existsb _ _); intros H; injection H as _ <-; reflexivity.
Qed.

(** X13 - sync throws only when enqueueing a client change throws.
    Otherwise it returns, and the processed and failed counts, neither
    negative, add up to the number of operations in the caller's queue after
    the enqueueing; the status is error exactly when something failed; the
    server changes are exactly the caller's tasks updated after
    last_synced_at; and at most one sync log is appended, carrying these
    counts and this status. *)
Theorem sync_accounts_for_every_queued_operation :
  forall (changes : list Change.t) (last_synced_at userId : string)
         (syncId : option string) (w w' : world) (r : outcome sync_result),
    sync changes last_synced_at userId syncId w = (r, w') ->
    match r with
    | Throw e => enqueue_changes changes userId w = (Throw e, w')
    | Ok res =>
        exists w1,
          enqueue_changes changes userId w = (Ok tt, w1)
          /\ processed res + failed res
             = Z.of_nat (List.length (filter (SQL.owned_by userId)
                                             (sync_queue w1)))
          /\ 0 <= processed res /\ 0 <= failed res
          /\ status res = (if failed res >? 0 then "error" else "completed")
          /\ (forall t, In t (serverChanges res) <->
                In t (tasks w') /\ Task.user_id t = userId
                /\ exists u, Task.updated_at t = JStr u
                             /\ Str.lt last_synced_at u)
          /\ (sync_logs w' = sync_logs w
              \/ exists log,
                   sync_logs w' = (sync_logs w ++ [log])%list
                   /\ SyncLog.user_id log = userId
                   /\ SyncLog.change_count log = processed res + failed res
                   /\ SyncLog.processed log = processed res
                   /\ SyncLog.failed log = failed res
                   /\ SyncLog.status log = status res)
    end.
Proof.
  intros changes last userId syncId w w' r. unfold sync.
  unfold bind at 1.
  destruct (enqueue_changes changes userId w) as [[[]|e] w1] eqn:Eq;
    [|intros H; injection H as <- <-; reflexivity].
  pose proof (proj1 (logs_unchanged_until_logged userId changes
                       (mkBatch [] [] 0 0) []) _ _ _ Eq) as Hl1.
  unfold bind at 1. unfold SQL.select_queue_ordered.
  set (queueItems := sort_by SQL.queue_order
                       (filter (SQL.owned_by userId) (sync_queue w1))).
  unfold bind at 1. unfold make_batches.
  set (sl := slices (List.length queueItems)
                    (Pos.to_nat (SYNC_BATCH_SIZE w1)) queueItems).
  destruct (fold_sync_batch_counts userId sl (mkBatch [] [] 0 0) w1)
    as (b & w2 & Efold & Hsum & Hp & Hf).
  pose proof (proj2 (logs_unchanged_until_logged userId changes
                       (mkBatch [] [] 0 0)
                       (map (fun batch => (batch, generateBatchChecksum batch))
                            sl)) _ _ _ Efold) as Hl2.
  unfold bind at 1. rewrite Efold.
  destruct (@slices_spec QueueRow.t (Pos.to_nat (SYNC_BATCH_SIZE w1))
              (Pos2Nat.is_pos _) (List.length queueItems) queueItems (le_n _))
    as (Hconcat & _).
  fold sl in Hconcat. rewrite Hconcat in Hsum.
  assert (Hlen : List.length queueItems
                 = List.length (filter (SQL.owned_by userId) (sync_queue w1)))
    by (apply Permutation_length, sort_by_perm).
  cbn [b_processed b_failed] in Hsum, Hp, Hf.
  set (logId := match syncId with
                | Some s => if Str.is_empty s then uuidv4 else ret s
                | None => uuidv4
                end).
  assert (Hlog : exists i w3, logId w2 = (Ok i, w3)
                              /\ tasks w3 = tasks w2
                              /\ sync_logs w3 = sync_logs w2
                              /\ clock w3 = clock w2).
  { unfold logId. destruct syncId as [s|]; [destruct (Str.is_empty s)|];
      eexists; eexists; (split; [reflexivity|]); auto. }
  destruct Hlog as (i & w3 & Ei & Ht3 & Hl3 & _).
  unfold bind at 1. rewrite Ei.
  unfold bind at 1. unfold now at 1.
  unfold bind at 1. unfold try, SQL.insert_sync_log. msimpl.
  match goal with |- context [existsb ?f ?l] => destruct (existsb f l) end;
    unfold bind at 1; unfold SQL.select_tasks_updated_after; unfold ret;
    intros H; injection H as <- <-; exists w1;
    (split; [reflexivity|]);
    cbn [processed failed status serverChanges]; msimpl;
    (split; [lia|]); (split; [lia|]); (split; [lia|]);
    (split; [reflexivity|]);
    (split;
     [ intros t; rewrite filter_In, andb_true_iff, String.eqb_eq;
       split;
       [ intros (Hin & Hu & Hup); split; [exact Hin|]; split; [exact Hu|];
         destruct (Task.updated_at t) as [| | |u| |]; try discriminate;
         exists u; split; [reflexivity|];
         unfold Str.lt; unfold String.ltb in Hup;
         destruct (String.compare last u); [discriminate|reflexivity|discriminate]
       | intros (Hin & Hu & u & Hup & Hlt); split; [exact Hin|];
         split; [exact Hu|]; rewrite Hup; unfold Str.lt in Hlt;
         unfold String.ltb; now rewrite Hlt ]
     | ]).
  - left. unfold logs_unchanged in *. congruence.
  - right. eexists. split.
    + unfold logs_unchanged in *. rewrite Hl3, Hl2, Hl1. reflexivity.
    + cbn. repeat split; lia.
Qed.

(** ** A sync without failures *)

Lemma processItem_keeps_queue item data userId :
  keeps queue_unchanged (processItem item data userId).
Proof.
  assert (Hmod : forall f : world -> world,
             (forall w, sync_queue (f w) = sync_queue w) ->
             keeps queue_unchanged (modify f)).
  { intros f Hf w r w' H. injection H as _ <-. apply Hf. }
  apply (@processItem_keeps userId queue_unchanged).
  - reflexivity.
  - unfold queue_unchanged. congruence.
  - intros w r w' H. injection H as _ <-. reflexivity.
  - intros w r w' H. injection H as _ <-. reflexivity.
  - intros t _ w r w'. unfold SQL.insert_task.
    destruct (existsb _ _); destruct (Task.title t);
      intros H; injection H as _ <-; reflexivity.
  - intros c g _ _. now apply Hmod.
Qed.

(** A turn of the batch loop either fails, or removes from the queue the
    owner's rows for the record of its item and no other row. *)
Lemma turn_cases userId acc raw w :
  exists acc' w',
    processBatch_item userId acc raw w = (Ok acc', w')
    /\ ((b_failed acc' = b_failed acc
         /\ sync_queue w'
            = filter (fun q => negb (SQL.queue_task_matches
                                       (QueueRow.task_id raw) userId q))
                     (sync_queue w))
        \/ b_failed acc' = b_failed acc + 1).
Proof.
  unfold processBatch_item. cbv zeta. unfold bind at 1, try.
  destruct (processItem raw (safeParseJSON (QueueRow.data raw)) userId w)
    as [[result | err] w1] eqn:E.
  - unfold bind at 1. rewrite updateSyncStatus_run. cbv zeta.
    unfold ret. eexists. eexists. split; [reflexivity|]. left.
    split; [reflexivity|].
    apply processItem_keeps_queue in E. unfold queue_unchanged in E.
    rewrite String.eqb_refl. msimpl. now rewrite E.
  - unfold bind at 1.
    destruct (handleSyncError_ok raw (safeParseJSON (QueueRow.data raw))
                                 err userId w1) as (w2 & ->).
    unfold ret. eexists. eexists. split; [reflexivity|]. right. reflexivity.
Qed.

Lemma drained_of_refl userId w : drained_of userId [] w w.
Proof. intros q Hq. split; [exact Hq|]. intros _ []. Qed.

Lemma fold_turns_clean userId items :
  forall acc w r w',
    fold_M (processBatch_item userId) items acc w = (Ok r, w') ->
    b_failed r = b_failed acc ->
    forall ids w0, drained_of userId ids w0 w ->
    drained_of userId (map QueueRow.task_id items ++ ids) w0 w'.
Proof.
  induction items as [|a items IH]; intros acc w r w' Hrun Hf ids w0 Hd.
  - cbn in Hrun. injection Hrun as <- <-. exact Hd.
  - cbn [fold_M] in Hrun. unfold bind in Hrun.
    destruct (turn_cases userId acc a w) as (acc1 & w1 & E & Hc).
    rewrite E in Hrun.
    destruct (fold_processBatch_counts userId items acc1 w1)
      as (r2 & w2 & E2 & _ & _ & Hmono).
    rewrite E2 in Hrun. injection Hrun as <- <-.
    destruct Hc as [[Hsame Hq] | Hbad]; [|lia].
    assert (Hd1 : drained_of userId (QueueRow.task_id a :: ids) w0 w1).
    { intros q Hin. rewrite Hq in Hin. apply filter_In in Hin as [Hin Hm].
      destruct (Hd q Hin) as [H0 Hids]. split; [exact H0|].
      intros Hu [Heq | Hin']; [|now apply Hids].
      apply negb_true_iff in Hm. unfold SQL.queue_task_matches in Hm.
      rewrite Hu, <- Heq, !String.eqb_refl in Hm. discriminate. }
    pose proof (IH acc1 w1 r2 w2 E2 ltac:(lia) _ _ Hd1) as Hd2.
    intros q Hin. destruct (Hd2 q Hin) as [H0 Hids]. split; [exact H0|].
    intros Hu Hbad. apply (Hids Hu). cbn [map app] in Hbad.
    destruct Hbad as [<- | Hbad].
    + apply in_or_app. right. now left.
    + apply in_app_or in Hbad as [Hb | Hb]; apply in_or_app;
        [now left|right; now right].
Qed.

Lemma mark_in_progress_queue userId (batch : list QueueRow.t) :
  forall w w' r,
    for_each batch (fun item =>
      updateSyncStatus (QueueRow.task_id item) "in-progress" userId None) w
    = (r, w') -> sync_queue w' = sync_queue w.
Proof.
  induction batch as [|a batch IH]; intros w w' r; cbn [for_each].
  - intros H. injection H as _ <-. reflexivity.
  - unfold bind. rewrite updateSyncStatus_run. cbv zeta.
    intros H. apply IH in H. rewrite H. reflexivity.
Qed.

Lemma fold_batches_clean userId (sl : list (list QueueRow.t)) :
  forall acc w r w',
    fold_M (sync_batch userId)
           (map (fun batch => (batch, generateBatchChecksum batch)) sl) acc w
    = (Ok r, w') ->
    b_failed r = b_failed acc ->
    forall ids w0, drained_of userId ids w0 w ->
    drained_of userId (map QueueRow.task_id (List.concat sl) ++ ids) w0 w'.
Proof.
  induction sl as [|batch sl IH]; intros acc w r w' Hrun Hf ids w0 Hd.
  - cbn in Hrun. injection Hrun as <- <-. exact Hd.
  - cbn [map fold_M] in Hrun. unfold bind at 1 in Hrun.
    destruct (sync_batch_counts userId acc batch w) as (acc1 & w1 & E & _ & _ & Hm1).
    rewrite E in Hrun.
    destruct (fold_sync_batch_counts userId sl acc1 w1)
      as (r2 & w2 & E2 & _ & _ & Hm2).
    rewrite E2 in Hrun. injection Hrun as <- <-.
    rewrite sync_batch_run in E.
    destruct (mark_in_progress_total userId batch w) as (wm & Em).
    unfold bind at 1 in E. rewrite Em in E.
    pose proof (mark_in_progress_queue _ _ _ Em) as Hqm.
    unfold bind at 1 in E. unfold processBatch in E.
    destruct (fold_processBatch_counts userId batch (mkBatch [] [] 0 0) wm)
      as (rb & wb & Eb & _ & _ & Hmb).
    rewrite Eb in E. unfold ret in E. injection E as <- <-.
    cbn [b_failed] in *.
    assert (Hdm : drained_of userId ids w0 wm).
    { intros q Hin. rewrite Hqm in Hin. now apply Hd. }
    pose proof (@fold_turns_clean userId batch _ _ _ _ Eb ltac:(cbn; lia)
                  _ _ Hdm) as Hd1.
    pose proof (IH _ _ _ _ E2 ltac:(cbn; lia) _ _ Hd1) as Hd2.
    intros q Hin. destruct (Hd2 q Hin) as [H0 Hids]. split; [exact H0|].
    intros Hu Hbad. apply (Hids Hu). cbn [List.concat] in Hbad.
    rewrite map_app, <- app_assoc in Hbad.
    apply in_app_or in Hbad as [Hb | Hb]; apply in_or_app.
    + right. apply in_or_app. now left.
    + apply in_app_or in Hb as [Hb | Hb]; [now left|].
      right. apply in_or_app. now right.
Qed.

Lemma clean_sync_drains changes last_synced_at userId syncId w w' res :
  sync changes last_synced_at userId syncId w = (Ok res, w') ->
  failed res = 0 ->
  filter (SQL.owned_by userId) (sync_queue w') = []
  /\ status res = "completed".
Proof.
  intros Hrun Hfailed.
  revert Hrun. unfold sync. unfold bind at 1.
  destruct (enqueue_changes changes userId w) as [[[]|e] w1] eqn:Eq;
    [|discriminate].
  unfold bind at 1. unfold SQL.select_queue_ordered.
  set (queueItems := sort_by SQL.queue_order
                       (filter (SQL.owned_by userId) (sync_queue w1))).
  unfold bind at 1. unfold make_batches.
  set (sl := slices (List.length queueItems)
                    (Pos.to_nat (SYNC_BATCH_SIZE w1)) queueItems).
  destruct (fold_sync_batch_counts userId sl (mkBatch [] [] 0 0) w1)
    as (b & w2 & Efold & _ & _ & Hf).
  unfold bind at 1. rewrite Efold.
  destruct (@slices_spec QueueRow.t (Pos.to_nat (SYNC_BATCH_SIZE w1))
              (Pos2Nat.is_pos _) (List.length queueItems) queueItems (le_n _))
    as (Hconcat & _).
  fold sl in Hconcat.
  set (logId := match syncId with
                | Some s => if Str.is_empty s then uuidv4 else ret s
                | None => uuidv4
                end).
  assert (Hlog : exists i w3, logId w2 = (Ok i, w3)
                              /\ sync_queue w3 = sync_queue w2).
  { unfold logId. destruct syncId as [s|]; [destruct (Str.is_empty s)|];
      eexists; eexists; (split; [reflexivity|]); auto. }
  destruct Hlog as (i & w3 & Ei & Hq3).
  unfold bind at 1. rewrite Ei.
  unfold bind at 1. unfold now at 1.
  unfold bind at 1. unfold try, SQL.insert_sync_log. msimpl.
  assert (Hb0 : forall res0 wf,
             failed res0 = b_failed b -> failed res0 = 0 ->
             sync_queue wf = sync_queue w2 ->
             filter (SQL.owned_by userId) (sync_queue wf) = []).
  { intros res0 wf Hfb Hf0 Hqf. rewrite Hqf.
    pose proof (@fold_batches_clean userId sl _ _ _ _ Efold
                  ltac:(cbn [b_failed]; lia) [] w1
                  (drained_of_refl userId w1)) as Hd.
    rewrite Hconcat, app_nil_r in Hd.
    destruct (filter (SQL.owned_by userId) (sync_queue w2)) as [|q l] eqn:El;
      [reflexivity|].
    exfalso.
    assert (Hq : In q (filter (SQL.owned_by userId) (sync_queue w2)))
      by (rewrite El; now left).
    apply filter_In in Hq as [Hq Hown].
    destruct (Hd q Hq) as [H1 Hnot].
    unfold SQL.owned_by in Hown. apply String.eqb_eq in Hown.
    apply (Hnot Hown). apply in_map.
    apply (Permutation_in _ (Permutation_sym (sort_by_perm _ _))).
    apply filter_In. split; [exact H1|].
    unfold SQL.owned_by. now apply String.eqb_eq. }
  match goal with |- context [existsb ?f ?l] => destruct (existsb f l) end;
    unfold bind at 1; unfold SQL.select_tasks_updated_after; unfold ret;
    intros H; injection H as <- <-; cbn [failed status] in *;
    (split; [apply (Hb0 (mkSync [] [] [] EmptyString 0 (b_failed b)));
             [reflexivity|exact Hfailed|msimpl; exact Hq3]
            |now rewrite Hfailed]).
Qed.

(** X14 - A sync that returns with no failure leaves none of the
    caller's operations in the queue: its status is completed and
    getSyncStatus then reports 0 pending. *)
Theorem clean_sync_empties_the_queue :
  forall (changes : list Change.t) (last_synced_at userId : string)
         (syncId : option string) (w w' : world) (res : sync_result),
    sync changes last_synced_at userId syncId w = (Ok res, w') ->
    failed res = 0 ->
    filter (SQL.owned_by userId) (sync_queue w') = []
    /\ status res = "completed"
    /\ (exists logs, getSyncStatus userId w' = (Ok (mkReport logs 0), w')).
Proof.
  intros changes last userId syncId w w' res Hrun Hfailed.
  destruct (clean_sync_drains _ _ _ _ _ Hrun Hfailed) as [Hq Hs].
  split; [exact Hq|]. split; [exact Hs|].
  eexists. unfold getSyncStatus. unfold bind at 1, SQL.select_recent_logs.
  unfold bind, SQL.select_queue, ret. rewrite Hq. reflexivity.
Qed.

(** ** Operations that cannot be applied *)

Lemma insert_untitled t w :
  Task.title t = JNull ->
  SQL.insert_task t w
  = (Throw "SQLITE_CONSTRAINT: NOT NULL constraint failed: tasks.title", w).
Proof. intros H. unfold SQL.insert_task. now rewrite H. Qed.

(** X15 - processItem throws, and leaves the four tables as they
    were, for an operation that is not create, update or delete ('Unknown
    operation: ...'), for a create whose payload has no title or a null
    title (the NOT NULL constraint of tasks.title), and for a create whose
    payload is null. *)
Theorem processItem_rejects_what_it_cannot_apply :
  forall (item : QueueRow.t) (data : json) (userId : string) (w : world),
    (QueueRow.operation item <> "create" ->
     QueueRow.operation item <> "update" ->
     QueueRow.operation item <> "delete" ->
     exists w',
       processItem item data userId w
       = (Throw ("Unknown operation: " ++ QueueRow.operation item), w')
       /\ same_tables w w')
    /\ (QueueRow.operation item = "create" ->
        data <> JNull ->
        JS.get data "title" = None \/ JS.get data "title" = Some JNull ->
        exists w',
          processItem item data userId w
          = (Throw "SQLITE_CONSTRAINT: NOT NULL constraint failed: tasks.title",
             w')
          /\ same_tables w w')
    /\ (QueueRow.operation item = "create" ->
        data = JNull ->
        exists w',
          processItem item data userId w
          = (Throw "Cannot read properties of null (reading 'title')", w')
          /\ same_tables w w').
Proof.
  intros item data userId w. split; [|split].
  - intros H1 H2 H3. unfold processItem. cbv zeta.
    unfold bind at 1, now at 1.
    apply String.eqb_neq in H1, H2, H3. rewrite H1, H2, H3. cbn [orb].
    eexists. split; [reflexivity|]. repeat split.
  - intros Hop Hd Ht. unfold processItem. cbv zeta.
    unfold bind at 1, now at 1. rewrite Hop. cbn [String.eqb Ascii.eqb Bool.eqb].
    rewrite processItem_create_run by exact Hd. cbv zeta.
    rewrite insert_untitled.
    + eexists. split; [reflexivity|]. repeat split.
    + cbn [created_task Task.title]. now destruct Ht as [-> | ->].
  - intros Hop ->. unfold processItem. cbv zeta.
    unfold bind at 1, now at 1. rewrite Hop. cbn [String.eqb Ascii.eqb Bool.eqb].
    rewrite processItem_create_null.
    eexists. split; [reflexivity|]. repeat split.
Qed.

(** ** Applying an update or a delete to an existing record *)

Lemma in_merged_fields taskId userId ti de co isd (n st ls : string)
  (ts : list Task.t) t' :
  In t' (map (fun t => if SQL.task_matches taskId userId t
                       then Task.with_merge ti de co isd n st ls t
                       else t) ts) ->
  SQL.task_matches taskId userId t' = true ->
  Task.title t' = ti /\ Task.description t' = de /\ Task.completed t' = co
  /\ Task.is_deleted t' = isd /\ Task.updated_at t' = JStr n
  /\ Task.sync_status t' = st /\ Task.last_synced_at t' = Some ls
  /\ exists t, In t ts /\ Task.id t' = Task.id t
               /\ Task.created_at t' = Task.created_at t
               /\ Task.server_id t' = Task.server_id t.
Proof.
  rewrite in_map_iff. intros (t & <- & Hin) Hm.
  destruct (SQL.task_matches taskId userId t) eqn:E.
  - cbn. repeat split. exists t. auto.
  - rewrite E in Hm. discriminate.
Qed.

(** X16 - When the queued update or delete wins the conflict
    resolution against the existing record, processItem returns the merged
    data, changes no other row, and rewrites the record.  A title or
    description given as a string is stored as given, a description given
    as null as NULL; a completed flag given as a boolean, a number, a string
    or null is stored as 1 when it is true, not 0 or not empty, and as 0
    otherwise; a delete sets is_deleted to 1, an update with is_deleted given
    as a boolean or an exactly representable integer stores it as that
    integer.  A field the payload does not have (for title and is_deleted
    also: has as null) keeps the record's value.  updated_at and
    last_synced_at become the time of the sync, sync_status becomes synced,
    and id, created_at and server_id are kept. *)
Theorem applied_change_merges_payload_into_record :
  forall (item : QueueRow.t) (data : json) (userId : string) (w : world)
         (serverTask : Task.t),
    is_update_or_delete (QueueRow.operation item) ->
    Str.is_empty (QueueRow.task_id item) = false ->
    Str.is_empty userId = false ->
    find (SQL.task_matches (QueueRow.task_id item) userId) (tasks w)
    = Some serverTask ->
    data <> JNull ->
    resolveConflict (localTask_updated_at data serverTask)
                    (Some (Task.updated_at serverTask))
                    (QueueRow.operation item) = Local ->
    exists w' sd,
      processItem item data userId w
      = (Ok (mkResult None None (Some sd)), w')
      /\ map Task.id (tasks w') = map Task.id (tasks w)
      /\ (forall t, SQL.task_matches (QueueRow.task_id item) userId t = false ->
                    (In t (tasks w') <-> In t (tasks w)))
      /\ (forall t', In t' (tasks w') ->
            SQL.task_matches (QueueRow.task_id item) userId t' = true ->
            (forall s, JS.get data "title" = Some (JStr s) ->
                       Task.title t' = JStr s)
            /\ (forall s, JS.get data "title" = None
                          \/ JS.get data "title" = Some JNull ->
                          Task.title serverTask = JStr s ->
                          Task.title t' = JStr s)
            /\ (forall s, JS.get data "description" = Some (JStr s) ->
                          Task.description t' = JStr s)
            /\ (JS.get data "description" = Some JNull ->
                Task.description t' = JNull)
            /\ (JS.get data "description" = None ->
                Task.description t' = Task.description serverTask)
            /\ (forall b, JS.get data "completed" = Some (JBool b) ->
                          Task.completed t' = JNum (if b then 1 else 0))
            /\ (forall n, JS.get data "completed" = Some (JNum n) ->
                          Task.completed t' = JNum (if n =? 0 then 0 else 1))
            /\ (forall s, JS.get data "completed" = Some (JStr s) ->
                          Task.completed t'
                          = JNum (if Str.is_empty s then 0 else 1))
            /\ (JS.get data "completed" = Some JNull ->
                Task.completed t' = JNum 0)
            /\ (JS.get data "completed" = None ->
                Task.completed t' = Task.completed serverTask)
            /\ (QueueRow.operation item = "delete" ->
                Task.is_deleted t' = JNum 1)
            /\ (QueueRow.operation item = "update" ->
                (forall b, JS.get data "is_deleted" = Some (JBool b) ->
                           Task.is_deleted t' = JNum (if b then 1 else 0))
                /\ (forall n, JS.get data "is_deleted" = Some (JNum n) ->
                              Z.abs n <= 9007199254740991 ->
                              Task.is_deleted t' = JNum n)
                /\ (forall n, JS.get data "is_deleted" = None
                              \/ JS.get data "is_deleted" = Some JNull ->
                              Task.is_deleted serverTask = JNum n ->
                              Task.is_deleted t' = JNum n))
            /\ Task.updated_at t' = JStr (clock w (clock_reads w))
            /\ Task.sync_status t' = "synced"
            /\ Task.last_synced_at t' = Some (clock w (clock_reads w))
            /\ exists t, In t (tasks w) /\ Task.id t' = Task.id t
                         /\ Task.created_at t' = Task.created_at t
                         /\ Task.server_id t' = Task.server_id t).
Proof.
  intros item data userId w serverTask Hop Ht Hu Hfind Hd Hlocal.
  rewrite (@processItem_existing item data userId w serverTask Hop Ht Hu Hfind).
  cbv zeta. rewrite Hlocal.
  assert (Hmerged :
    forall t', In t' (map (fun t =>
                 if SQL.task_matches (QueueRow.task_id item) userId t
                 then Task.with_merge
                        (merged_title data serverTask)
                        (merged_description data serverTask)
                        (merged_completed data serverTask)
                        (merged_is_deleted (QueueRow.operation item) data
                                           serverTask)
                        (clock w (clock_reads w)) "synced"
                        (clock w (clock_reads w)) t
                 else t) (tasks w)) ->
      SQL.task_matches (QueueRow.task_id item) userId t' = true ->
      (forall s, JS.get data "title" = Some (JStr s) -> Task.title t' = JStr s)
      /\ (forall s, JS.get data "title" = None
                    \/ JS.get data "title" = Some JNull ->
                    Task.title serverTask = JStr s -> Task.title t' = JStr s)
      /\ (forall s, JS.get data "description" = Some (JStr s) ->
                    Task.description t' = JStr s)
      /\ (JS.get data "description" = Some JNull ->
          Task.description t' = JNull)
      /\ (JS.get data "description" = None ->
          Task.description t' = Task.description serverTask)
      /\ (forall b, JS.get data "completed" = Some (JBool b) ->
                    Task.completed t' = JNum (if b then 1 else 0))
      /\ (forall n, JS.get data "completed" = Some (JNum n) ->
                    Task.completed t' = JNum (if n =? 0 then 0 else 1))
      /\ (forall s, JS.get data "completed" = Some (JStr s) ->
                    Task.completed t' = JNum (if Str.is_empty s then 0 else 1))
      /\ (JS.get data "completed" = Some JNull -> Task.completed t' = JNum 0)
      /\ (JS.get data "completed" = None ->
          Task.completed t' = Task.completed serverTask)
      /\ (QueueRow.operation item = "delete" -> Task.is_deleted t' = JNum 1)
      /\ (QueueRow.operation item = "update" ->
          (forall b, JS.get data "is_deleted" = Some (JBool b) ->
                     Task.is_deleted t' = JNum (if b then 1 else 0))
          /\ (forall n, JS.get data "is_deleted" = Some (JNum n) ->
                        Z.abs n <= 9007199254740991 ->
                        Task.is_deleted t' = JNum n)
          /\ (forall n, JS.get data "is_deleted" = None
                        \/ JS.get data "is_deleted" = Some JNull ->
                        Task.is_deleted serverTask = JNum n ->
                        Task.is_deleted t' = JNum n))
      /\ Task.updated_at t' = JStr (clock w (clock_reads w))
      /\ Task.sync_status t' = "synced"
      /\ Task.last_synced_at t' = Some (clock w (clock_reads w))
      /\ exists t, In t (tasks w) /\ Task.id t' = Task.id t
                   /\ Task.created_at t' = Task.created_at t
                   /\ Task.server_id t' = Task.server_id t).
  { intros t' Hin Hm.
    destruct (in_merged_fields _ _ _ _ _ _ _ _ _ _ _ Hin Hm)
      as (H1 & H2 & H3 & H4 & H5 & H6 & H7 & H8).
    rewrite H1, H2, H3, H4.
    unfold merged_title, merged_description, merged_completed,
      merged_is_deleted.
    split; [intros s ->; reflexivity|].
    split; [intros s [-> | ->] ->; reflexivity|].
    split; [intros s ->; reflexivity|].
    split; [intros ->; reflexivity|].
    split; [intros ->; reflexivity|].
    split; [intros b ->; reflexivity|].
    split; [intros n ->; cbn [JS.truthy]; now destruct (n =? 0)|].
    split; [intros s ->; cbn [JS.truthy]; now destruct (Str.is_empty s)|].
    split; [intros ->; reflexivity|].
    split; [intros ->; reflexivity|].
    split; [intros ->; reflexivity|].
    split; [intros ->; cbn [String.eqb Ascii.eqb Bool.eqb];
            split; [intros b ->; reflexivity|];
            split; [intros n -> _; reflexivity|];
            intros n [-> | ->] ->; reflexivity|].
    repeat (split; [assumption|]). exact H8. }
  destruct data; try congruence;
    (eexists; eexists; split; [reflexivity|]); msimpl;
    (split; [rewrite map_map; apply map_ext; intros t;
             now destruct (SQL.task_matches (QueueRow.task_id item) userId t)|]);
    (split;
     [ intros t Hm; rewrite in_map_iff; split;
       [ intros (x & <- & Hx);
         destruct (SQL.task_matches (QueueRow.task_id item) userId x) eqn:E;
         [ unfold SQL.task_matches in Hm, E;
           cbn [Task.with_merge Task.id Task.user_id] in Hm; congruence
         | exact Hx ]
       | intros Hin; exists t; now rewrite Hm ]
     | exact Hmerged ]).
Qed.

(** X17 - For an update or delete of an existing record whose updated_at
    is a date, the timestamp compared with it is the payload's updated_at,
    and the record's own when the payload has none: an operation whose
    payload has no updated_at is applied; an operation whose payload's
    updated_at is a date not earlier than the record's is applied; an
    operation whose payload's updated_at is a strictly earlier date is
    reported as a conflict and nothing is written. *)
Theorem payload_timestamp_decides_the_conflict :
  forall (item : QueueRow.t) (data : json) (userId : string) (w : world)
         (serverTask : Task.t) (ts : Z),
    is_update_or_delete (QueueRow.operation item) ->
    Str.is_empty (QueueRow.task_id item) = false ->
    Str.is_empty userId = false ->
    find (SQL.task_matches (QueueRow.task_id item) userId) (tasks w)
    = Some serverTask ->
    data <> JNull ->
    JSDate.getTime (Some (Task.updated_at serverTask)) = Some ts ->
    (JS.get data "updated_at" = None ->
     exists w' sd,
       processItem item data userId w
       = (Ok (mkResult None None (Some sd)), w'))
    /\ (forall v tl,
          JS.get data "updated_at" = Some v ->
          JSDate.getTime (Some v) = Some tl ->
          (ts <= tl ->
           exists w' sd,
             processItem item data userId w
             = (Ok (mkResult None None (Some sd)), w'))
          /\ (tl < ts ->
              exists w',
                processItem item data userId w
                = (Ok (mkResult None
                         (Some (mkConflict (QueueRow.task_id item) serverTask))
                         None), w')
                /\ same_tables w w')).
Proof.
  intros item data userId w serverTask ts Hop Ht Hu Hfind Hd Hs.
  rewrite (@processItem_existing item data userId w serverTask Hop Ht Hu Hfind).
  cbv zeta.
  assert (Hwins : forall tl,
            JSDate.getTime (localTask_updated_at data serverTask) = Some tl ->
            ts <= tl ->
            resolveConflict (localTask_updated_at data serverTask)
              (Some (Task.updated_at serverTask)) (QueueRow.operation item)
            = Local).
  { intros tl Hl Hle. unfold resolveConflict. rewrite Hl, Hs.
    destruct (Z.eqb_spec tl ts) as [E|E].
    - destruct Hop as [-> | ->]; reflexivity.
    - destruct (Z.geb_spec tl ts); [reflexivity|lia]. }
  split.
  - intros Hn.
    rewrite (Hwins ts).
    + destruct data; try congruence; eexists; eexists; reflexivity.
    + unfold localTask_updated_at. now rewrite Hn.
    + lia.
  - intros v tl Hv Hl.
    assert (Hlocal : JSDate.getTime (localTask_updated_at data serverTask)
                     = Some tl)
      by (unfold localTask_updated_at; now rewrite Hv).
    split.
    + intros Hle. rewrite (Hwins tl Hlocal Hle).
      destruct data; try congruence; eexists; eexists; reflexivity.
    + intros Hlt. unfold resolveConflict. rewrite Hlocal, Hs.
      destruct (Z.eqb_spec tl ts) as [E|E]; [lia|].
      destruct (Z.geb_spec tl ts); [lia|].
      eexists. split; [reflexivity|]. repeat split.
Qed.

(** ** [JSON.parse] reads back what [JSON.stringify] writes *)

Lemma json_ind_nested (P : json -> Prop) :
  P JNull -> (forall b, P (JBool b)) -> (forall n, P (JNum n)) ->
  (forall s, P (JStr s)) ->
  (forall l, Forall P l -> P (JArr l)) ->
  (forall fs, Forall (fun kv => P (snd kv)) fs -> P (JObj fs)) ->
  forall v, P v.
Proof.
  intros Hnull Hbool Hnum Hstr Harr Hobj.
  fix IH 1. intros [ | b | n | s | l | fs].
  - exact Hnull.
  - apply Hbool.
  - apply Hnum.
  - apply Hstr.
  - apply Harr. induction l as [|x l IHl]; constructor; [apply IH|exact IHl].
  - apply Hobj. induction fs as [|[k x] fs IHfs]; constructor;
      [apply IH|exact IHfs].
Qed.

(** *** Numbers *)

Lemma to_uint_no_leading_zero p d : Pos.to_uint p <> Decimal.D0 d.
Proof.
  intros H.
  pose proof (DecimalPos.Unsigned.to_of (Pos.to_uint p)) as Hn.
  rewrite DecimalPos.Unsigned.of_to in Hn. cbn [N.to_uint] in Hn.
  rewrite H in Hn. unfold Decimal.unorm in Hn.
  destruct (Decimal.nzhead (Decimal.D0 d)) eqn:E; try discriminate.
  - injection Hn as Hd. subst d. exact (DecimalPos.Unsigned.to_uint_nonzero p H).
  - exact (DecimalFacts.nzhead_nonzero _ _ E).
Qed.

Lemma parse_digits_uint (d : Decimal.uint) :
  forall (acc : positive) (rest : list ascii),
    delimited rest ->
    JSON.parse_digits (Str.to_list (NilEmpty.string_of_uint d) ++ rest)%list
                      (Z.pos acc)
    = (Z.pos (Pos.of_uint_acc d acc), rest).
Proof.
  induction d; intros acc rest Hrest;
    cbn [NilEmpty.string_of_uint Str.to_list list_ascii_of_string app
         JSON.parse_digits Pos.of_uint_acc];
    try (match goal with
         | |- context [Str.digit_val ?c] =>
             let v := eval vm_compute in (Str.digit_val c) in
             change (Str.digit_val c) with v
         end;
         rewrite <- IHd by exact Hrest; f_equal; lia).
  destruct rest as [|c rest]; [reflexivity|].
  cbn [JSON.parse_digits].
  destruct Hrest as [-> | [-> | ->]]; reflexivity.
Qed.

Lemma delimited_tail (rest : list ascii) (n : Z) :
  delimited rest ->
  match rest with
  | x :: _ =>
      let m := Str.code x in
      if orb (m =? 46)%nat (orb (m =? 101)%nat (m =? 69)%nat)
      then None
      else Some (n, rest)
  | [] => Some (n, rest)
  end = Some (n, rest).
Proof.
  destruct rest as [|c rest]; [reflexivity|].
  intros [-> | [-> | ->]]; reflexivity.
Qed.

Lemma parse_int_pos (p : positive) (rest : list ascii) (neg : bool) :
  delimited rest ->
  match (Str.to_list (NilZero.string_of_uint (Pos.to_uint p)) ++ rest)%list with
  | c :: r =>
      match Str.digit_val c with
      | Some d =>
          let '(n, rest) := if d =? 0 then (0, r) else JSON.parse_digits r d in
          match rest with
          | x :: _ =>
              let m := Str.code x in
              if orb (m =? 46)%nat (orb (m =? 101)%nat (m =? 69)%nat)
              then None
              else Some (if neg then - n else n, rest)
          | [] => Some (if neg then - n else n, rest)
          end
      | None => None
      end
  | [] => None
  end = Some (if neg then - Z.pos p else Z.pos p, rest).
Proof.
  intros Hrest.
  pose proof (DecimalPos.Unsigned.of_to p) as Hval.
  destruct (Pos.to_uint p) as [|d|d|d|d|d|d|d|d|d|d] eqn:E;
    [ now elim (DecimalPos.Unsigned.to_uint_nonnil p)
    | now elim (to_uint_no_leading_zero p E) | .. ];
    cbn [Pos.of_uint] in Hval; injection Hval as Hval;
    cbn [NilZero.string_of_uint NilEmpty.string_of_uint Str.to_list
         list_ascii_of_string app];
    match goal with
    | |- context [Str.digit_val ?c] =>
        let v := eval vm_compute in (Str.digit_val c) in
        change (Str.digit_val c) with v
    end;
    cbn [Z.eqb Pos.eqb];
    change (list_ascii_of_string (NilEmpty.string_of_uint d))
      with (Str.to_list (NilEmpty.string_of_uint d));
    rewrite (@parse_digits_uint d _ rest Hrest), Hval;
    apply (@delimited_tail rest); exact Hrest.
Qed.

Lemma parse_int_of_Z (n : Z) (rest : list ascii) :
  delimited rest ->
  JSON.parse_int (Str.to_list (Str.of_Z n) ++ rest)%list = Some (n, rest).
Proof.
  intros Hrest. unfold Str.of_Z, JSON.parse_int.
  destruct n as [|p|p]; cbn [Z.to_int NilZero.string_of_int].
  - cbn. apply (@delimited_tail rest 0 Hrest).
  - pose proof (@parse_int_pos p rest false Hrest) as H.
    destruct (Str.to_list (NilZero.string_of_uint (Pos.to_uint p)) ++ rest)%list
      as [|c r] eqn:E; [discriminate|].
    destruct (Str.code c =? 45)%nat eqn:Ec; [|exact H].
    apply Nat.eqb_eq in Ec.
    assert (c = "-"%char).
    { rewrite <- (ascii_nat_embedding c). unfold Str.code in Ec.
      now rewrite Ec. }
    subst c. discriminate H.
  - cbn [Str.to_list list_ascii_of_string app].
    change (Str.code "-" =? 45)%nat with true. cbv iota.
    exact (@parse_int_pos p rest true Hrest).
Qed.

(** *** Values *)

Lemma of_Z_opens (n : Z) : opens (Str.to_list (Str.of_Z n)).
Proof.
  unfold Str.of_Z. destruct n as [|p|p]; cbn [Z.to_int NilZero.string_of_int].
  - eexists. eexists. split; [reflexivity|]. repeat split.
  - destruct (Pos.to_uint p) eqn:E;
      [now elim (DecimalPos.Unsigned.to_uint_nonnil p)|..];
      cbn [NilZero.string_of_uint NilEmpty.string_of_uint Str.to_list
           list_ascii_of_string];
      eexists; eexists; (split; [reflexivity|]); repeat split.
  - eexists. eexists. split; [reflexivity|]. repeat split.
Qed.

Lemma chars_opens (v : json) : opens (chars v).
Proof.
  unfold chars. destruct v as [ | [|] | n | s | l | fs];
    try (eexists; eexists; split; [reflexivity|]; repeat split).
  apply of_Z_opens.
Qed.

Lemma skip_ws_opens (l : list ascii) : opens l -> JSON.skip_ws l = l.
Proof.
  intros (c & r & -> & Hws & _). cbn [JSON.skip_ws]. now rewrite Hws.
Qed.

Lemma skip_ws_delimiter (c : ascii) (rest : list ascii) :
  c = ","%char \/ c = "]"%char \/ c = "}"%char \/ c = ":"%char ->
  JSON.skip_ws (c :: rest) = c :: rest.
Proof. intros [-> | [-> | [-> | ->]]]; reflexivity. Qed.

Lemma chars_concat_cons {A} (f : A -> string) (x y : A) (l : list A) :
  Str.to_list (String.concat "," (map f (x :: y :: l)))
  = (Str.to_list (f x) ++ ","%char
       :: Str.to_list (String.concat "," (map f (y :: l))))%list.
Proof.
  cbn [map String.concat]. rewrite to_list_app. reflexivity.
Qed.

Lemma parse_elements_reads_back (l : list json) :
  Forall reads_back l ->
  forall (x : json) (fuel : nat) (acc : list json) (rest : list ascii),
    reads_back x ->
    (sizes (x :: l) <= fuel)%nat -> delimited rest ->
    JSON.parse_elements fuel
      (Str.to_list (String.concat "," (map JSON.stringify (x :: l)))
       ++ "]"%char :: rest) acc
    = Some (JArr (rev acc ++ x :: l), rest).
Proof.
  induction 1 as [|y l Hy Hl IH]; intros x fuel acc rest Hx Hfuel Hrest.
  - destruct fuel as [|fuel]; [cbn in Hfuel; lia|].
    cbn [map String.concat JSON.parse_elements].
    fold (chars x). rewrite Hx; [|cbn in Hfuel; lia|now right; left].
    reflexivity.
  - destruct fuel as [|fuel]; [cbn in Hfuel; lia|].
    rewrite chars_concat_cons. rewrite <- app_assoc. cbn [app].
    cbn [JSON.parse_elements].
    fold (chars x).
    rewrite Hx; [|cbn [sizes fold_right] in Hfuel; lia|now left].
    rewrite skip_ws_delimiter by now left.
    change (Str.code "," =? 44)%nat with true. cbv iota.
    rewrite (IH y fuel (x :: acc) rest Hy);
      [|cbn [sizes fold_right] in *; lia|exact Hrest].
    cbn [rev]. now rewrite <- app_assoc.
Qed.

Lemma field_chars (k : string) (x : json) (rest : list ascii) :
  (Str.to_list (field_text (k, x)) ++ rest)%list
  = (Str.dquote :: JSON.escape (Str.to_list k)
       ++ Str.dquote :: ":"%char :: chars x ++ rest)%list.
Proof.
  unfold field_text. rewrite to_list_app, to_list_quote.
  unfold JSON.quote_chars. cbn [app]. rewrite <- !app_assoc. reflexivity.
Qed.

Lemma parse_members_reads_back (fs : list (string * json)) :
  Forall (fun kv => reads_back (snd kv)) fs ->
  forall (k : string) (x : json) (fuel : nat) (acc : list (string * json))
         (rest : list ascii),
    reads_back x ->
    (member_sizes ((k, x) :: fs) <= fuel)%nat -> delimited rest ->
    JSON.parse_members fuel
      (Str.to_list (String.concat "," (map field_text ((k, x) :: fs)))
       ++ "}"%char :: rest) acc
    = Some (JObj (rev acc ++ (k, x) :: fs), rest).
Proof.
  induction 1 as [|[k' y] fs Hy Hfs IH]; intros k x fuel acc rest Hx Hfuel Hrest.
  - destruct fuel as [|fuel]; [cbn in Hfuel; lia|].
    cbn [map String.concat]. rewrite field_chars.
    cbn [JSON.parse_members JSON.skip_ws].
    change (JSON.is_ws Str.dquote) with false. cbv iota.
    change (Str.code Str.dquote =? 34)%nat with true. cbv iota.
    rewrite parse_string_body_escape. cbn [rev app].
    rewrite of_list_to_list.
    rewrite skip_ws_delimiter by (right; right; now right).
    change (Str.code ":" =? 58)%nat with true. cbv iota.
    rewrite Hx; [|cbn in Hfuel; lia|right; now right].
    reflexivity.
  - destruct fuel as [|fuel]; [cbn in Hfuel; lia|].
    rewrite chars_concat_cons. rewrite <- app_assoc. cbn [app].
    rewrite field_chars.
    cbn [JSON.parse_members JSON.skip_ws].
    change (JSON.is_ws Str.dquote) with false. cbv iota.
    change (Str.code Str.dquote =? 34)%nat with true. cbv iota.
    rewrite parse_string_body_escape. cbn [rev app].
    rewrite of_list_to_list.
    rewrite skip_ws_delimiter by (right; right; now right).
    change (Str.code ":" =? 58)%nat with true. cbv iota.
    rewrite Hx; [|cbn [member_sizes fold_right] in Hfuel; lia|now left].
    rewrite skip_ws_delimiter by now left.
    change (Str.code "," =? 44)%nat with true. cbv iota.
    rewrite (IH k' y fuel ((k, x) :: acc) rest Hy);
      [|cbn [member_sizes fold_right] in *; lia|exact Hrest].
    cbn [rev]. now rewrite <- app_assoc.
Qed.

Lemma number_head (n : Z) :
  exists c r,
    Str.to_list (Str.of_Z n) = c :: r /\ JSON.is_ws c = false
    /\ (Str.code c =? 123)%nat = false /\ (Str.code c =? 91)%nat = false
    /\ (Str.code c =? 34)%nat = false /\ (Str.code c =? 116)%nat = false
    /\ (Str.code c =? 102)%nat = false /\ (Str.code c =? 110)%nat = false.
Proof.
  unfold Str.of_Z. destruct n as [|p|p]; cbn [Z.to_int NilZero.string_of_int].
  - eexists. eexists. split; [reflexivity|]. repeat split.
  - destruct (Pos.to_uint p) eqn:E;
      [now elim (DecimalPos.Unsigned.to_uint_nonnil p)|..];
      cbn [NilZero.string_of_uint NilEmpty.string_of_uint Str.to_list
           list_ascii_of_string];
      eexists; eexists; (split; [reflexivity|]); repeat split.
  - eexists. eexists. split; [reflexivity|]. repeat split.
Qed.

Lemma concat_opens {A} (f : A -> string) (x : A) (l : list A)
  (rest : list ascii) :
  opens (Str.to_list (f x)) ->
  opens (Str.to_list (String.concat "," (map f (x :: l))) ++ rest).
Proof.
  intros (c & r & E & H).
  destruct l as [|y l].
  - cbn [map String.concat]. rewrite E. now exists c, (r ++ rest)%list.
  - rewrite chars_concat_cons, E. cbn [app]. eexists. eexists.
    split; [reflexivity|exact H].
Qed.

Lemma stringify_reads_back : forall v, reads_back v.
Proof.
  apply json_ind_nested.
  - intros [|fuel] rest Hfuel Hrest; [cbn in Hfuel; lia|]. reflexivity.
  - intros [|] [|fuel] rest Hfuel Hrest; try (cbn in Hfuel; lia); reflexivity.
  - intros n [|fuel] rest Hfuel Hrest; [cbn in Hfuel; lia|].
    unfold chars. cbn [JSON.stringify].
    destruct (number_head n) as (c & r & E & Hws & H1 & H2 & H3 & H4 & H5 & H6).
    pose proof (@parse_int_of_Z n rest Hrest) as Hint. rewrite E in Hint |- *.
    cbn [app] in Hint |- *. cbn [JSON.parse_value JSON.skip_ws].
    rewrite Hws. cbv zeta. rewrite H1, H2, H3, H4, H5, H6.
    now rewrite Hint.
  - intros s [|fuel] rest Hfuel Hrest; [cbn in Hfuel; lia|].
    unfold chars. cbn [JSON.stringify]. rewrite to_list_quote.
    unfold JSON.quote_chars. cbn [app]. rewrite <- app_assoc. cbn [app].
    cbn [JSON.parse_value JSON.skip_ws].
    change (JSON.is_ws Str.dquote) with false. cbv iota zeta.
    change (Str.code Str.dquote =? 123)%nat with false.
    change (Str.code Str.dquote =? 91)%nat with false.
    change (Str.code Str.dquote =? 34)%nat with true. cbv iota.
    rewrite parse_string_body_escape. cbn [rev app].
    now rewrite of_list_to_list.
  - intros l Hl [|fuel] rest Hfuel Hrest; [cbn in Hfuel; lia|].
    unfold chars. cbn [JSON.stringify].
    rewrite !to_list_app. cbn [Str.to_list list_ascii_of_string app].
    rewrite <- app_assoc. cbn [app].
    cbn [JSON.parse_value JSON.skip_ws].
    change (JSON.is_ws "[") with false. cbv iota zeta.
    change (Str.code "[" =? 123)%nat with false.
    change (Str.code "[" =? 91)%nat with true. cbv iota.
    destruct l as [|x l]; [reflexivity|].
    apply Forall_cons_iff in Hl as [Hx Hl].
    change (list_ascii_of_string ?s) with (Str.to_list s).
    pose proof (@concat_opens _ JSON.stringify x l ("]"%char :: rest)
                  (chars_opens x)) as Ho.
    rewrite (skip_ws_opens Ho).
    destruct Ho as (c & r & E & _ & Hc & _). rewrite E, Hc, <- E.
    rewrite (@parse_elements_reads_back l Hl x fuel [] rest Hx);
      [reflexivity| |exact Hrest].
    cbn [json_size] in Hfuel. fold (sizes (x :: l)) in Hfuel. lia.
  - intros fs Hfs [|fuel] rest Hfuel Hrest; [cbn in Hfuel; lia|].
    unfold chars. cbn [JSON.stringify].
    rewrite !to_list_app. cbn [Str.to_list list_ascii_of_string app].
    rewrite <- app_assoc. cbn [app].
    cbn [JSON.parse_value JSON.skip_ws].
    change (JSON.is_ws "{") with false. cbv iota zeta.
    change (Str.code "{" =? 123)%nat with true. cbv iota.
    destruct fs as [|[k x] fs]; [reflexivity|].
    apply Forall_cons_iff in Hfs as [Hx Hfs]. cbn [snd] in Hx.
    change (list_ascii_of_string ?s) with (Str.to_list s).
    assert (Hq : opens (Str.to_list (field_text (k, x)))).
    { unfold field_text. rewrite to_list_app, to_list_quote.
      eexists. eexists. split; [reflexivity|]. repeat split. }
    pose proof (@concat_opens _ field_text (k, x) fs ("}"%char :: rest) Hq)
      as Ho.
    change (fun kv : string * json =>
              let (k0, x0) := kv in JSON.quote k0 ++ ":" ++ JSON.stringify x0)
      with field_text.
    rewrite (skip_ws_opens Ho).
    destruct Ho as (c & r & E & _ & _ & Hc). rewrite E, Hc, <- E.
    rewrite (@parse_members_reads_back fs Hfs k x fuel [] rest Hx);
      [reflexivity| |exact Hrest].
    cbn [json_size] in Hfuel. fold (member_sizes ((k, x) :: fs)) in Hfuel. lia.
Qed.

Lemma opens_length (l : list ascii) : opens l -> (1 <= List.length l)%nat.
Proof. intros (c & r & -> & _). cbn. lia. Qed.

Lemma join_length {A} (f : A -> string) (size : A -> nat) (l : list A) :
  Forall (fun x => (size x <= List.length (Str.to_list (f x)))%nat) l ->
  (fold_right (fun x n => S (size x + n)) O l
   <= List.length (Str.to_list (String.concat "," (map f l))) + 1)%nat.
Proof.
  induction 1 as [|x l Hx Hl IH]; [cbn; lia|].
  destruct l as [|y l].
  - cbn [fold_right map String.concat]. lia.
  - rewrite chars_concat_cons, length_app. cbn [List.length].
    cbn [fold_right] in *. lia.
Qed.

Lemma json_size_chars : forall v, (json_size v <= List.length (chars v))%nat.
Proof.
  apply json_ind_nested.
  - cbn. lia.
  - intros [|]; cbn; lia.
  - intros n. apply (opens_length (chars_opens (JNum n))).
  - intros s. apply (opens_length (chars_opens (JStr s))).
  - intros l Hl. unfold chars. cbn [JSON.stringify json_size].
    rewrite !to_list_app, !length_app.
    pose proof (join_length JSON.stringify json_size Hl) as H.
    cbn [Str.to_list list_ascii_of_string List.length]. lia.
  - intros fs Hfs. unfold chars. cbn [JSON.stringify json_size].
    rewrite !to_list_app, !length_app.
    change (fun kv : string * json =>
              let (k0, x0) := kv in JSON.quote k0 ++ ":" ++ JSON.stringify x0)
      with field_text.
    assert (Hf : Forall (fun kv => (json_size (snd kv)
                                    <= List.length (Str.to_list (field_text kv)))%nat)
                        fs).
    { eapply Forall_impl; [|exact Hfs]. intros [k x] Hx. cbn [snd] in *.
      unfold field_text. rewrite !to_list_app, !length_app.
      fold (chars x). lia. }
    pose proof (join_length field_text (fun kv => json_size (snd kv)) Hf) as H.
    replace (fold_right (fun (kv : string * json) (n : nat) =>
                           let (_, x) := kv in S (json_size x + n)) O fs)
      with (fold_right (fun (kv : string * json) (n : nat) =>
                          S (json_size (snd kv) + n)) O fs).
    + cbn [Str.to_list list_ascii_of_string List.length]. lia.
    + clear. induction fs as [|[k x] fs IH]; cbn [fold_right snd];
        [reflexivity|now rewrite IH].
Qed.

Lemma parse_stringify (v : json) : JSON.parse (JSON.stringify v) = Some v.
Proof.
  unfold JSON.parse. cbv zeta.
  pose proof (stringify_reads_back v) as H. unfold reads_back in H.
  specialize (H (2 * List.length (Str.to_list (JSON.stringify v)) + 2)%nat
                (@nil ascii)).
  unfold chars in H. rewrite app_nil_r in H. rewrite H; [reflexivity| |exact I].
  pose proof (json_size_chars v) as Hs. unfold chars in Hs. lia.
Qed.

(** X18 - safeParseJSON reads back every value that JSON.stringify
    writes.  Hence the payload of an operation enqueued by either
    addToSyncQueue is read by the sync loop as the data that was passed, or
    as the empty object when none was passed. *)
Theorem queued_payload_is_read_back :
  (forall data : json, safeParseJSON (JSON.stringify data) = data)
  /\ (forall taskId operation data userId ots w w',
         addToSyncQueue taskId operation data userId ots w = (Ok tt, w') ->
         exists q,
           sync_queue w' = (sync_queue w ++ [q])%list
           /\ safeParseJSON (QueueRow.data q) = JS.or_else data (JObj []))
  /\ (forall taskId operation data userId ots w w' id,
         TaskService.addToSyncQueue taskId operation data userId ots w
         = (Ok id, w') ->
         exists q,
           sync_queue w' = (sync_queue w ++ [q])%list
           /\ QueueRow.id q = id
           /\ safeParseJSON (QueueRow.data q) = JS.or_else data (JObj [])).
Proof.
  assert (Hback : forall data, safeParseJSON (JSON.stringify data) = data)
    by (intros data; unfold safeParseJSON; now rewrite parse_stringify).
  split; [exact Hback|]. split.
  - intros taskId operation data userId ots w w'.
    rewrite addToSyncQueue_run. cbv zeta.
    destruct (existsb _ _); [discriminate|].
    intros H. injection H as <-. msimpl.
    eexists. split; [reflexivity|]. apply Hback.
  - intros taskId operation data userId ots w w' id H.
    apply enqueue_ok in H as (_ & _ & _ & _ & ->). msimpl.
    eexists. split; [reflexivity|]. split; [reflexivity|]. apply Hback.
Qed.

(** ** A task created locally and then synced *)

Lemma createTask_world title description completed userId w t w' :
  TaskService.createTask title description completed userId w = (Ok t, w') ->
  let now_ := clock w (clock_reads w) in
  w' = set_sync_queue
         (sync_queue w
          ++ [QueueRow.mk (uuids w (S (uuid_reads w))) userId (Task.id t)
                "create"
                (JSON.stringify (create_payload title description completed now_))
                0 None (clock w (S (clock_reads w)))
                (JS.str_or (Some now_) (clock w (S (clock_reads w))))])
         (after_reads 2 2 (set_tasks (tasks w ++ [t]) w)).
Proof.
  unfold TaskService.createTask.
  destruct (Str.is_empty userId) eqn:Hu; [discriminate|].
  destruct (JS.truthy title) eqn:Ht; [|discriminate].
  cbn [negb]. intros H.
  apply bind_ok in H as (id & w1 & H1 & H).
  apply bind_ok in H as (now_ & w2 & H2 & H).
  apply bind_ok in H as (u & w3 & H3 & H).
  apply bind_ok in H as (qid & w4 & H4 & H).
  unfold ret in H. injection H as <- <-.
  unfold uuidv4 in H1. injection H1 as <- <-.
  unfold now in H2. injection H2 as <- <-.
  apply insert_task_ok in H3 as (_ & Hfresh & ->).
  apply enqueue_ok in H4 as (Hid & _ & Hq & _ & ->). subst qid.
  reflexivity.
Qed.

(** A turn of the batch loop on a create whose payload has a title. *)
Lemma create_turn userId acc raw w :
  QueueRow.operation raw = "create" ->
  let data := safeParseJSON (QueueRow.data raw) in
  let id := uuids w (uuid_reads w) in
  let copy := created_task data userId (clock w (clock_reads w)) id in
  data <> JNull ->
  JS.bind (JS.get data "title") <> JNull ->
  ~ In id (map Task.id (tasks w)) ->
  exists w',
    processBatch_item userId acc raw w
    = (Ok (mkBatch (b_mappings acc ++ [mkMapping (QueueRow.task_id raw) id])
                   (b_conflicts acc) (b_processed acc + 1) (b_failed acc)), w')
    /\ tasks w'
       = map (fun t => if SQL.task_matches (QueueRow.task_id raw) userId t
                       then Task.with_status "synced"
                              (clock w (S (clock_reads w)))
                              (JS.str_or (Some id) (QueueRow.task_id raw)) t
                       else t) (tasks w ++ [copy])
    /\ sync_queue w'
       = filter (fun q => negb (SQL.queue_task_matches
                                  (QueueRow.task_id raw) userId q))
                (sync_queue w)
    /\ dead_letter_queue w' = dead_letter_queue w
    /\ sync_logs w' = sync_logs w
    /\ SYNC_BATCH_SIZE w' = SYNC_BATCH_SIZE w
    /\ clock w' = clock w /\ uuids w' = uuids w
    /\ clock_reads w' = (2 + clock_reads w)%nat
    /\ uuid_reads w' = (1 + uuid_reads w)%nat.
Proof.
  intros Hop data id copy Hd Ht Hfresh.
  unfold processBatch_item. cbv zeta. fold data.
  unfold bind at 1, try.
  unfold processItem. cbv zeta. unfold bind at 1, now at 1.
  rewrite Hop. cbn [String.eqb Ascii.eqb Bool.eqb].
  rewrite processItem_create_run by exact Hd. cbv zeta.
  rewrite insert_task_fresh; [|exact Ht|exact Hfresh].
  unfold bind at 1. rewrite updateSyncStatus_run. cbv zeta.
  unfold ret. cbn [r_mapping r_conflict r_serverData push
                   serverData_server_id Task.server_id created_task].
  rewrite String.eqb_refl.
  eexists. split; [reflexivity|]. msimpl. repeat split.
Qed.

Lemma slices_single {A} (size : positive) (q : A) :
  slices 1 (Pos.to_nat size) [q] = [[q]].
Proof.
  cbn [slices]. pose proof (Pos2Nat.is_pos size) as Hs.
  destruct (Pos.to_nat size) as [|n]; [lia|].
  cbn [firstn skipn]. now rewrite firstn_nil.
Qed.

Lemma bind_run {A B} (m : M A) (f : A -> M B) w a w1 :
  m w = (Ok a, w1) -> bind m f w = f a w1.
Proof. intros H. unfold bind. now rewrite H. Qed.

(** A sync that finds one operation in the queue of its user. *)
Lemma sync_single userId last_synced_at syncId w q acc' w_t :
  filter (SQL.owned_by userId) (sync_queue w) = [q] ->
  processBatch_item userId (mkBatch [] [] 0 0) q
    (snd (updateSyncStatus (QueueRow.task_id q) "in-progress" userId None w))
  = (Ok acc', w_t) ->
  exists w' changed,
    sync [] last_synced_at userId syncId w
    = (Ok (mkSync (b_mappings acc') (b_conflicts acc') changed
                  (if b_failed acc' >? 0 then "error" else "completed")
                  (b_processed acc') (b_failed acc')), w')
    /\ tasks w' = tasks w_t /\ sync_queue w' = sync_queue w_t
    /\ dead_letter_queue w' = dead_letter_queue w_t.
Proof.
  intros Hq Hturn. unfold sync.
  rewrite (@bind_run _ _ (enqueue_changes [] userId) _ w tt w eq_refl).
  rewrite (@bind_run _ _ (SQL.select_queue_ordered userId) _ w [q] w)
    by (unfold SQL.select_queue_ordered; rewrite Hq; reflexivity).
  erewrite bind_run; [|reflexivity].
  unfold make_batches. cbn [List.length]. rewrite slices_single.
  cbn [map fold_M].
  destruct (updateSyncStatus (QueueRow.task_id q) "in-progress" userId None w)
    as [[[]|e] w_m] eqn:Em;
    [|rewrite updateSyncStatus_run in Em; discriminate].
  cbn [snd] in Hturn.
  erewrite bind_run.
  2:{ erewrite bind_run.
      2:{ rewrite sync_batch_run. erewrite bind_run.
          2:{ cbn [for_each]. erewrite bind_run; [|exact Em]. reflexivity. }
          erewrite bind_run.
          2:{ unfold processBatch. cbn [fold_M].
              erewrite bind_run; [|exact Hturn]. reflexivity. }
          reflexivity. }
      reflexivity. }
  cbn [b_mappings b_conflicts b_processed b_failed app].
  rewrite !Z.add_0_l.
  set (logId := match syncId with
                | Some s => if Str.is_empty s then uuidv4 else ret s
                | None => uuidv4
                end).
  assert (Hlog : exists i w3, logId w_t = (Ok i, w3)
                              /\ tasks w3 = tasks w_t
                              /\ sync_queue w3 = sync_queue w_t
                              /\ dead_letter_queue w3 = dead_letter_queue w_t).
  { unfold logId. destruct syncId as [s|]; [destruct (Str.is_empty s)|];
      eexists; eexists; (split; [reflexivity|]); auto. }
  destruct Hlog as (i & w3 & Ei & Ht3 & Hq3 & Hd3).
  erewrite bind_run; [|exact Ei].
  erewrite bind_run; [|reflexivity].
  unfold bind at 1. unfold try, SQL.insert_sync_log. msimpl.
  match goal with |- context [existsb ?f ?l] => destruct (existsb f l) end;
    unfold bind at 1; unfold SQL.select_tasks_updated_after; unfold ret;
    eexists; eexists; (split; [reflexivity|]); msimpl; auto.
Qed.

Lemma map_no_match (c : Task.t -> bool) (g : Task.t -> Task.t) (l : list Task.t) :
  (forall t, In t l -> c t = false) ->
  map (fun t => if c t then g t else t) l = l.
Proof.
  intros H. induction l as [|a l IH]; cbn [map]; [reflexivity|].
  rewrite (H a (or_introl eq_refl)), IH; [reflexivity|].
  intros t Ht. apply H. now right.
Qed.

Lemma no_match_fresh taskId userId (l : list Task.t) :
  ~ In taskId (map Task.id l) ->
  forall t, In t l -> SQL.task_matches taskId userId t = false.
Proof.
  intros Hfresh t Hin. unfold SQL.task_matches.
  destruct (String.eqb_spec (Task.id t) taskId) as [E|E]; [|reflexivity].
  exfalso. apply Hfresh. rewrite <- E. now apply in_map.
Qed.

Lemma truthy_binds (v : option json) :
  JS.truthy v = true ->
  JS.bind (Some match v with Some x => x | None => JNull end) <> JNull.
Proof.
  destruct v as [[| b | n | s | l | fs]|]; cbn; discriminate.
Qed.

Lemma or_else_again (a : option json) :
  JS.or_else (Some (JS.or_else a (JStr EmptyString))) (JStr EmptyString)
  = JS.or_else a (JStr EmptyString).
Proof.
  destruct a as [v|]; [|reflexivity].
  unfold JS.or_else. destruct (JS.truthy (Some v)) eqn:E.
  - now rewrite E.
  - reflexivity.
Qed.

(** X19 - A task created with createTask and then synced, when the
    caller's queue held nothing else and the fresh id is unused, is not
    marked synced in place: its queued create inserts a second row under a
    new id with the same title, description and completed flag, reports the
    mapping from the task's id to the new id, and the original row is marked
    synced with the new id as its server_id.  The sync processes one
    operation, fails none and leaves the caller's queue empty. *)
Theorem created_task_is_copied_by_sync :
  forall (title description completed : option json)
         (userId last_synced_at : string) (syncId : option string)
         (w w1 : world) (t : Task.t),
    TaskService.createTask title description completed userId w = (Ok t, w1) ->
    filter (SQL.owned_by userId) (sync_queue w) = [] ->
    let copyId := uuids w (2 + uuid_reads w) in
    Str.is_empty copyId = false ->
    copyId <> Task.id t ->
    ~ In copyId (map Task.id (tasks w)) ->
    exists res w2 copy,
      sync [] last_synced_at userId syncId w1 = (Ok res, w2)
      /\ mappings res = [mkMapping (Task.id t) copyId]
      /\ conflicts res = []
      /\ processed res = 1 /\ failed res = 0
      /\ tasks w2
         = (tasks w
            ++ [Task.with_status "synced" (clock w (4 + clock_reads w)) copyId t;
                copy])%list
      /\ Task.id copy = copyId
      /\ Task.user_id copy = userId
      /\ Task.title copy = Task.title t
      /\ Task.description copy = Task.description t
      /\ Task.completed copy = Task.completed t
      /\ Task.is_deleted copy = JNum 0
      /\ Task.sync_status copy = "synced"
      /\ Task.server_id copy = Some copyId
      /\ filter (SQL.owned_by userId) (sync_queue w2) = [].
Proof.
  intros title description completed userId last syncId w w1 t Hcreate Hqueue
         copyId Hnonempty Hne Hfresh.
  pose proof (createTask_world _ _ _ _ _ Hcreate) as Hw1. cbv zeta in Hw1.
  apply createTask_run in Hcreate
    as (Hu & Htruthy & Hid & HfreshX & Hrow & _).
  set (now0 := clock w (clock_reads w)) in *.
  set (payload := create_payload title description completed now0) in *.
  set (q := QueueRow.mk (uuids w (S (uuid_reads w))) userId (Task.id t)
              "create" (JSON.stringify payload) 0 None
              (clock w (S (clock_reads w)))
              (JS.str_or (Some now0) (clock w (S (clock_reads w))))) in *.
  assert (Hq : filter (SQL.owned_by userId) (sync_queue w1) = [q]).
  { rewrite Hw1. msimpl. rewrite filter_app, Hqueue. cbn [filter app].
    unfold SQL.owned_by at 1. cbn [QueueRow.user_id q].
    now rewrite String.eqb_refl. }
  assert (Hdata : safeParseJSON (QueueRow.data q) = payload).
  { cbn [QueueRow.data q]. unfold safeParseJSON. now rewrite parse_stringify. }
  set (w_m := snd (updateSyncStatus (QueueRow.task_id q) "in-progress"
                                    userId None w1)).
  assert (Hm : tasks w_m
               = (tasks w ++ [Task.with_status "in-progress"
                                (clock w (2 + clock_reads w)) (Task.id t) t])%list
               /\ sync_queue w_m = (sync_queue w ++ [q])%list
               /\ clock w_m = clock w /\ uuids w_m = uuids w
               /\ clock_reads w_m = (3 + clock_reads w)%nat
               /\ uuid_reads w_m = (2 + uuid_reads w)%nat).
  { unfold w_m. rewrite updateSyncStatus_run. cbv zeta. rewrite Hw1.
    cbn [String.eqb Ascii.eqb Bool.eqb snd]. msimpl.
    cbn [QueueRow.task_id q serverData_server_id JS.str_or].
    repeat split.
    rewrite map_app. cbn [map].
    rewrite (map_no_match _ _ _ (no_match_fresh _ userId _ HfreshX)).
    unfold SQL.task_matches. rewrite String.eqb_refl.
    replace (Task.user_id t) with userId by (now rewrite Hrow).
    now rewrite String.eqb_refl. }
  destruct Hm as (Htm & Hqm & Hcm & Hum & Hcrm & Hurm).
  destruct (@create_turn userId (mkBatch [] [] 0 0) q w_m eq_refl)
    as (w_t & Hturn & Htt & Hqt & _).
  { rewrite Hdata. discriminate. }
  { rewrite Hdata. unfold payload, create_payload. cbn [JS.get JS.lookup].
    cbn [String.eqb Ascii.eqb Bool.eqb]. now apply truthy_binds. }
  { rewrite Hum, Hurm, Htm, map_app. cbn [map Task.with_status Task.id].
    intros Hin. apply in_app_or in Hin as [Hin | [Hin | []]].
    - now apply Hfresh.
    - now apply Hne. }
  destruct (@sync_single userId last syncId w1 q _ w_t Hq Hturn)
    as (w2 & changed & Hsync & Ht2 & Hq2 & _).
  cbn [b_mappings b_conflicts b_processed b_failed app] in Hsync.
  rewrite Hum, Hurm, Hcm, Hcrm, Hdata in *.
  fold copyId in Htt, Hsync.
  set (copy := created_task payload userId (clock w (3 + clock_reads w)) copyId)
    in *.
  exists (mkSync [mkMapping (QueueRow.task_id q) copyId] [] changed
                 "completed" 1 0), w2, copy.
  split; [exact Hsync|]. split; [reflexivity|]. split; [reflexivity|].
  split; [reflexivity|]. split; [reflexivity|]. split.
  - rewrite Ht2, Htt, Htm. cbn [QueueRow.task_id q].
    rewrite !map_app. cbn [map JS.str_or]. rewrite Hnonempty.
    rewrite (map_no_match _ _ _ (no_match_fresh _ userId _ HfreshX)).
    unfold SQL.task_matches at 1. cbn [Task.with_status Task.id Task.user_id].
    rewrite String.eqb_refl.
    replace (Task.user_id t) with userId by (now rewrite Hrow).
    rewrite String.eqb_refl. cbn [andb].
    unfold SQL.task_matches. cbn [copy created_task Task.id].
    destruct (String.eqb_spec copyId (Task.id t)) as [E|_]; [now elim Hne|].
    cbn [andb]. rewrite <- app_assoc. reflexivity.
  - rewrite Hrow. unfold copy, created_task, payload, create_payload.
    cbn [JS.get JS.lookup]. cbn [String.eqb Ascii.eqb Bool.eqb].
    cbn [Task.id Task.user_id Task.title Task.description Task.completed
         Task.is_deleted Task.sync_status Task.server_id].
    repeat (split; [reflexivity|]). split; [|split; [|split; [|split; [|split]]]];
      try reflexivity.
    + now rewrite or_else_again.
    + rewrite Hq2, Hqt, Hqm. cbn [QueueRow.task_id q].
      rewrite filter_app. cbn [filter].
      unfold SQL.queue_task_matches at 2. cbn [QueueRow.task_id QueueRow.user_id q].
      rewrite !String.eqb_refl. cbn [andb negb app]. rewrite app_nil_r.
      clear -Hqueue. induction (sync_queue w) as [|a l IH]; [reflexivity|].
      cbn [filter] in Hqueue |- *.
      destruct (SQL.owned_by userId a) eqn:E; [discriminate|].
      unfold SQL.queue_task_matches. unfold SQL.owned_by in E. rewrite E.
      rewrite andb_false_r. cbn [negb filter].
      unfold SQL.owned_by at 1. rewrite E. now apply IH.
Qed.

(** ** The sync route *)

Lemma sync_with_id changes last_synced_at userId s w r w' :
  sync changes last_synced_at userId (Some s) w = (r, w') ->
  match r with
  | Throw e => enqueue_changes changes userId w = (Throw e, w')
  | Ok _ =>
      Str.is_empty s = false ->
      sync_logs w' = sync_logs w
      \/ exists log, sync_logs w' = (sync_logs w ++ [log])%list
                     /\ SyncLog.id log = s
  end.
Proof.
  unfold sync. unfold bind at 1.
  destruct (enqueue_changes changes userId w) as [[[]|e] w1] eqn:Eq;
    [|intros H; injection H as <- <-; reflexivity].
  pose proof (proj1 (logs_unchanged_until_logged userId changes
                       (mkBatch [] [] 0 0) []) _ _ _ Eq) as Hl1.
  unfold bind at 1. unfold SQL.select_queue_ordered.
  set (queueItems := sort_by SQL.queue_order
                       (filter (SQL.owned_by userId) (sync_queue w1))).
  unfold bind at 1. unfold make_batches.
  set (sl := slices (List.length queueItems)
                    (Pos.to_nat (SYNC_BATCH_SIZE w1)) queueItems).
  destruct (fold_sync_batch_counts userId sl (mkBatch [] [] 0 0) w1)
    as (b & w2 & Efold & _).
  pose proof (proj2 (logs_unchanged_until_logged userId changes
                       (mkBatch [] [] 0 0)
                       (map (fun batch => (batch, generateBatchChecksum batch))
                            sl)) _ _ _ Efold) as Hl2.
  unfold bind at 1. rewrite Efold.
  destruct (Str.is_empty s) eqn:Hs.
  - unfold bind at 1. unfold uuidv4 at 1.
    unfold bind at 1. unfold now at 1.
    unfold bind at 1. unfold try, SQL.insert_sync_log. msimpl.
    match goal with |- context [existsb ?f ?l] => destruct (existsb f l) end;
      unfold bind at 1; unfold SQL.select_tasks_updated_after; unfold ret;
      intros H; injection H as <- <-; discriminate.
  - unfold bind at 1. unfold ret at 1.
    unfold bind at 1. unfold now at 1.
    unfold bind at 1. unfold try, SQL.insert_sync_log. msimpl.
    match goal with |- context [existsb ?f ?l] => destruct (existsb f l) end;
      unfold bind at 1; unfold SQL.select_tasks_updated_after; unfold ret;
      intros H; injection H as <- <-; intros _; msimpl.
    + left. unfold logs_unchanged in *. congruence.
    + right. eexists. split.
      * unfold logs_unchanged in *. rewrite Hl2, Hl1. reflexivity.
      * reflexivity.
Qed.

(** X20 - POST /sync never throws.  A body the schema validation
    rejects is answered with 400 and the messages of the validation, and
    nothing is read or written.  For a body it accepts, the reply is 500
    with the message exactly when sync throws, which is when enqueueing a
    change throws, and 200 otherwise, with the result of sync and the syncId
    drawn by startSync; a sync log written by that run has the (non-empty)
    syncId as its id; an accepted request without changes is always answered
    with 200. *)
Theorem post_sync_always_replies :
  forall (syncSchema : list Change.t -> string -> option (list string))
         (changes : list Change.t) (last_synced_at userId : string) (w : world),
    let id := uuids w (uuid_reads w) in
    let w0 := snd (uuidv4 w) in
    exists rep w',
      post_sync syncSchema changes last_synced_at userId w = (Ok rep, w')
      /\ match syncSchema changes last_synced_at with
         | Some messages => rep = Reply400 messages /\ w' = w
         | None =>
             match rep with
             | Reply400 _ => False
             | Reply500 e =>
                 enqueue_changes changes userId w0 = (Throw e, w')
             | Reply200 body =>
                 syncId body = id
                 /\ sync changes last_synced_at userId (Some id) w0
                    = (Ok (result body), w')
                 /\ (Str.is_empty id = false ->
                     sync_logs w' = sync_logs w
                     \/ exists log, sync_logs w' = (sync_logs w ++ [log])%list
                                    /\ SyncLog.id log = id)
             end
             /\ (changes = [] -> exists body, rep = Reply200 body)
         end.
Proof.
  intros syncSchema changes last userId w id w0.
  unfold post_sync, validate.
  destruct (syncSchema changes last) as [messages|].
  { exists (Reply400 messages), w. repeat split. }
  unfold startSync. unfold bind at 1. unfold try.
  unfold bind at 1. unfold uuidv4 at 1. fold id.
  change (mkWorld (tasks w) (sync_queue w) (dead_letter_queue w) (sync_logs w)
            (SYNC_BATCH_SIZE w) (clock w) (uuids w) (clock_reads w)
            (S (uuid_reads w))) with w0.
  unfold bind at 1.
  destruct (sync changes last userId (Some id) w0) as [[res|e] w'] eqn:Es.
  - exists (Reply200 (mkSyncBody res id)), w'.
    split; [reflexivity|]. split.
    + cbn [syncId result]. split; [reflexivity|]. split; [reflexivity|].
      exact (@sync_with_id changes last userId id w0 _ _ Es).
    + intros _. eexists. reflexivity.
  - exists (Reply500 e), w'. split; [reflexivity|].
    pose proof (@sync_with_id changes last userId id w0 _ _ Es) as H.
    cbn beta iota in H. split; [exact H|].
    intros ->. cbn in H. discriminate H.
Qed.

(** ** A sync with nothing to do *)

Lemma sync_idle last_synced_at userId syncId w :
  filter (SQL.owned_by userId) (sync_queue w) = [] ->
  exists serverChanges w',
    sync [] last_synced_at userId syncId w
    = (Ok (mkSync [] [] serverChanges "completed" 0 0), w')
    /\ tasks w' = tasks w /\ sync_queue w' = sync_queue w
    /\ dead_letter_queue w' = dead_letter_queue w.
Proof.
  intros Hq. unfold sync, enqueue_changes. cbn [for_each].
  unfold bind at 1. unfold ret at 1.
  unfold bind at 1. unfold SQL.select_queue_ordered. rewrite Hq.
  cbn [sort_by fold_right]. unfold bind at 1. unfold make_batches.
  cbn [List.length slices map fold_M].
  unfold bind at 1. unfold ret at 1. cbn [b_failed b_processed b_mappings b_conflicts].
  set (logId := match syncId with
                | Some s => if Str.is_empty s then uuidv4 else ret s
                | None => uuidv4
                end).
  assert (Hlog : exists i w3, logId w = (Ok i, w3)
                              /\ tasks w3 = tasks w
                              /\ sync_queue w3 = sync_queue w
                              /\ dead_letter_queue w3 = dead_letter_queue w).
  { unfold logId. destruct syncId as [s|]; [destruct (Str.is_empty s)|];
      eexists; eexists; (split; [reflexivity|]); auto. }
  destruct Hlog as (i & w3 & Ei & Ht3 & Hq3 & Hd3).
  unfold bind at 1. rewrite Ei.
  unfold bind at 1. unfold now at 1.
  unfold bind at 1. unfold try, SQL.insert_sync_log. msimpl.
  match goal with |- context [existsb ?f ?l] => destruct (existsb f l) end;
    unfold bind at 1; unfold SQL.select_tasks_updated_after; unfold ret;
    eexists; eexists; (split; [reflexivity|]); msimpl; auto.
Qed.

(** X21 - After a sync that returned with no failure, a further sync
    without changes returns with status completed, nothing processed and
    nothing failed, no mapping and no conflict, and leaves the tasks, the
    sync queue and the dead-letter queue as they are. *)
Theorem second_sync_finds_nothing_to_do :
  forall (changes : list Change.t) (last_synced_at userId : string)
         (syncId : option string) (w w' : world) (res : sync_result),
    sync changes last_synced_at userId syncId w = (Ok res, w') ->
    failed res = 0 ->
    forall (last_synced_at' : string) (syncId' : option string),
    exists res' w'',
      sync [] last_synced_at' userId syncId' w' = (Ok res', w'')
      /\ processed res' = 0 /\ failed res' = 0
      /\ status res' = "completed"
      /\ mappings res' = [] /\ conflicts res' = []
      /\ tasks w'' = tasks w'
      /\ sync_queue w'' = sync_queue w'
      /\ dead_letter_queue w'' = dead_letter_queue w'.
Proof.
  intros changes last userId syncId w w' res Hrun Hfailed last' syncId'.
  destruct (clean_sync_drains _ _ _ _ _ Hrun Hfailed) as [Hq _].
  destruct (@sync_idle last' userId syncId' w' Hq)
    as (sc & w'' & Hsync & Ht & Hqq & Hd).
  eexists. exists w''. split; [exact Hsync|].
  cbn [processed failed status mappings conflicts]. auto 10.
Qed.

(** ** The sync status after a sync without failures *)

Lemma synced_or_old_refl w : synced_or_old w w.
Proof. intros t Ht. now right. Qed.

Lemma synced_or_old_trans a b c :
  synced_or_old a b -> synced_or_old b c -> synced_or_old a c.
Proof.
  intros H1 H2 t Ht. destruct (H2 t Ht) as [Hs | Hb]; [now left|].
  exact (H1 t Hb).
Qed.

Lemma synced_or_old_same_tasks {A} (m : M A) :
  (forall w r w', m w = (r, w') -> tasks w' = tasks w) ->
  keeps synced_or_old m.
Proof. intros Hm w r w' H t Ht. right. now rewrite <- (Hm _ _ _ H). Qed.

Lemma synced_or_old_insert t :
  Task.sync_status t = "synced" -> keeps synced_or_old (SQL.insert_task t).
Proof.
  intros Hs w r w'. unfold SQL.insert_task.
  destruct (existsb _ _); destruct (Task.title t);
    intros H; injection H as _ <-; try apply synced_or_old_refl.
  all: intros x Hx; cbn in Hx; apply in_app_or in Hx as [Hx | [<- | []]].
  all: first [now right | left; exact Hs].
Qed.

Lemma synced_or_old_update (c : Task.t -> bool) (g : Task.t -> Task.t) :
  (forall t, Task.sync_status (g t) = "synced") ->
  keeps synced_or_old
        (modify (fun w =>
           set_tasks (map (fun t => if c t then g t else t) (tasks w)) w)).
Proof.
  intros Hg w r w' H. injection H as _ <-. intros x Hx. cbn in Hx.
  apply in_map_iff in Hx as (t & <- & Ht).
  destruct (c t); [left; apply Hg|now right].
Qed.

Lemma processItem_writes_synced item data userId :
  keeps synced_or_old (processItem item data userId).
Proof.
  pose proof synced_or_old_refl as Hrefl.
  pose proof synced_or_old_trans as Htrans.
  assert (Hnow : keeps synced_or_old now)
    by (apply synced_or_old_same_tasks; intros w r w' H;
        injection H as _ <-; reflexivity).
  assert (Huuid : keeps synced_or_old uuidv4)
    by (apply synced_or_old_same_tasks; intros w r w' H;
        injection H as _ <-; reflexivity).
  assert (Hprop : forall d k, keeps synced_or_old (prop d k))
    by (intros d k; apply prop_keeps; assumption).
  assert (Hcreate : forall n, keeps synced_or_old
                                    (processItem_create item data userId n)).
  { intros n. unfold processItem_create.
    keeps_step; [exact Huuid|].
    do 5 (keeps_step; [apply Hprop|]).
    keeps_step; [|keeps_step].
    now apply synced_or_old_insert. }
  unfold processItem. keeps_step; [exact Hnow|].
  keeps_step; [apply Hcreate|].
  keeps_step; [|keeps_step].
  keeps_step; [now apply getTaskByIdIncludingDeleted_keeps|].
  keeps_step.
  - keeps_step; [|keeps_step].
    do 4 (keeps_step; [apply Hprop|]).
    keeps_step; [|keeps_step].
    now apply synced_or_old_update.
  - keeps_step; [keeps_step|].
    keeps_step; [exact Hnow|apply Hcreate].
Qed.

Lemma settled_refl userId w : settled userId [] w w.
Proof. intros t Ht. right. split; [exact Ht|]. intros x []. Qed.

Lemma settled_trans userId ids ids' w0 w w' :
  settled userId ids w0 w -> settled userId ids' w w' ->
  settled userId (ids' ++ ids) w0 w'.
Proof.
  intros H1 H2 t Ht. destruct (H2 t Ht) as [Hs | [Hin Hno]]; [now left|].
  destruct (H1 t Hin) as [Hs | [Hin0 Hno0]]; [now left|].
  right. split; [exact Hin0|]. intros x Hx.
  apply in_app_or in Hx as [Hx | Hx]; [now apply Hno|now apply Hno0].
Qed.

(** A turn of the batch loop that does not fail leaves the owner's record of
    its item synced, and every other row synced or as it was. *)
Lemma turn_settles userId acc raw w acc' w' :
  processBatch_item userId acc raw w = (Ok acc', w') ->
  b_failed acc' = b_failed acc ->
  settled userId [QueueRow.task_id raw] w w'.
Proof.
  unfold processBatch_item. cbv zeta. unfold bind at 1, try.
  destruct (processItem raw (safeParseJSON (QueueRow.data raw)) userId w)
    as [[result | err] w1] eqn:E.
  - unfold bind at 1. rewrite updateSyncStatus_run. cbv zeta.
    unfold ret. intros H _. injection H as _ <-.
    apply processItem_writes_synced in E.
    intros t Ht. cbn in Ht.
    apply in_map_iff in Ht as (t0 & <- & Ht0).
    destruct (SQL.task_matches (QueueRow.task_id raw) userId t0) eqn:Em.
    + left. reflexivity.
    + destruct (E t0 Ht0) as [Hs | Hold]; [now left|].
      right. split; [exact Hold|]. intros x [<- | []]. exact Em.
  - unfold bind at 1.
    destruct (handleSyncError_ok raw (safeParseJSON (QueueRow.data raw))
                                 err userId w1) as (w2 & ->).
    unfold ret. intros H Hf. injection H as <- _. cbn [b_failed] in Hf. lia.
Qed.

Lemma fold_turns_settle userId items :
  forall acc w r w',
    fold_M (processBatch_item userId) items acc w = (Ok r, w') ->
    b_failed r = b_failed acc ->
    settled userId (map QueueRow.task_id items) w w'.
Proof.
  induction items as [|a items IH]; intros acc w r w' Hrun Hf.
  - cbn in Hrun. injection Hrun as _ <-. apply settled_refl.
  - cbn [fold_M] in Hrun. unfold bind in Hrun.
    destruct (processBatch_item_total userId acc a w) as (acc1 & w1 & E & Hc).
    rewrite E in Hrun.
    destruct (fold_processBatch_counts userId items acc1 w1)
      as (r2 & w2 & E2 & _ & _ & Hmono).
    rewrite E2 in Hrun. injection Hrun as <- <-.
    assert (Hf1 : b_failed acc1 = b_failed acc).
    { destruct (turn_cases userId acc a w) as (acc1' & w1' & E' & Hcase).
      rewrite E in E'. injection E' as <- <-.
      destruct Hcase as [[Hsame _] | Hbad]; [exact Hsame|lia]. }
    pose proof (turn_settles _ _ _ _ E Hf1) as H1.
    pose proof (IH _ _ _ _ E2 ltac:(lia)) as H2.
    intros t Ht. destruct (H2 t Ht) as [Hs | [Hin Hno]]; [now left|].
    destruct (H1 t Hin) as [Hs | [Hin0 Hno0]]; [now left|].
    right. split; [exact Hin0|]. intros x [<- | Hx];
      [apply Hno0; now left|now apply Hno].
Qed.

(** Marking the records of a batch in progress changes only those records. *)
Lemma mark_in_progress_tasks userId (batch : list QueueRow.t) :
  forall w w' r,
    for_each batch (fun item =>
      updateSyncStatus (QueueRow.task_id item) "in-progress" userId None) w
    = (r, w') ->
    forall t, In t (tasks w') ->
      In t (tasks w)
      \/ exists x, In x (map QueueRow.task_id batch)
                   /\ SQL.task_matches x userId t = true.
Proof.
  induction batch as [|a batch IH]; intros w w' r; cbn [for_each].
  - intros H. injection H as _ <-. now left.
  - unfold bind. rewrite updateSyncStatus_run. cbv zeta.
    intros H t Ht. destruct (IH _ _ _ H t Ht) as [Hin | (x & Hx & Hm)].
    + cbn [String.eqb Ascii.eqb Bool.eqb] in Hin. msimpl.
      apply in_map_iff in Hin as (t0 & <- & Ht0).
      destruct (SQL.task_matches (QueueRow.task_id a) userId t0) eqn:Em;
        [|now left].
      right. exists (QueueRow.task_id a). split; [now left|].
      now rewrite task_matches_with_status.
    + right. exists x. split; [now right|exact Hm].
Qed.

Lemma fold_batches_settle userId (sl : list (list QueueRow.t)) :
  forall acc w r w',
    fold_M (sync_batch userId)
           (map (fun batch => (batch, generateBatchChecksum batch)) sl) acc w
    = (Ok r, w') ->
    b_failed r = b_failed acc ->
    settled userId (map QueueRow.task_id (List.concat sl)) w w'.
Proof.
  induction sl as [|batch sl IH]; intros acc w r w' Hrun Hf.
  - cbn in Hrun. injection Hrun as _ <-. apply settled_refl.
  - cbn [map fold_M] in Hrun. unfold bind at 1 in Hrun.
    destruct (sync_batch_counts userId acc batch w)
      as (acc1 & w1 & E & _ & _ & Hm1).
    rewrite E in Hrun.
    destruct (fold_sync_batch_counts userId sl acc1 w1)
      as (r2 & w2 & E2 & _ & _ & Hm2).
    rewrite E2 in Hrun. injection Hrun as <- <-.
    rewrite sync_batch_run in E.
    destruct (mark_in_progress_total userId batch w) as (wm & Em).
    unfold bind at 1 in E. rewrite Em in E.
    pose proof (mark_in_progress_tasks _ _ _ Em) as Hmark.
    unfold bind at 1 in E. unfold processBatch in E.
    destruct (fold_processBatch_counts userId batch (mkBatch [] [] 0 0) wm)
      as (rb & wb & Eb & _ & _ & Hmb).
    rewrite Eb in E. unfold ret in E. injection E as <- <-.
    cbn [b_failed] in *.
    pose proof (@fold_turns_settle userId batch _ _ _ _ Eb ltac:(cbn; lia))
      as H1.
    pose proof (IH _ _ _ _ E2 ltac:(cbn; lia)) as H2.
    intros t Ht. destruct (H2 t Ht) as [Hs | [Hin Hno]]; [now left|].
    destruct (H1 t Hin) as [Hs | [Hinm Hnom]]; [now left|].
    destruct (Hmark t Hinm) as [Hin0 | (x & Hx & Hm)];
      [|rewrite (Hnom x Hx) in Hm; discriminate].
    right. split; [exact Hin0|]. intros x Hx.
    cbn [List.concat] in Hx. rewrite map_app in Hx.
    apply in_app_or in Hx as [Hx | Hx]; [now apply Hnom|now apply Hno].
Qed.

(** The steps of a sync that returns: the enqueueing, then the batches of
    the drained queue; what follows writes the sync log only. *)
Lemma sync_ok_steps changes last_synced_at userId syncId w w' res :
  sync changes last_synced_at userId syncId w = (Ok res, w') ->
  exists w1 b w2,
    enqueue_changes changes userId w = (Ok tt, w1)
    /\ (let queueItems := sort_by SQL.queue_order
                            (filter (SQL.owned_by userId) (sync_queue w1)) in
        exists sl,
          List.concat sl = queueItems
          /\ fold_M (sync_batch userId)
                    (map (fun batch => (batch, generateBatchChecksum batch)) sl)
                    (mkBatch [] [] 0 0) w1 = (Ok b, w2))
    /\ failed res = b_failed b
    /\ tasks w' = tasks w2.
Proof.
  unfold sync. unfold bind at 1.
  destruct (enqueue_changes changes userId w) as [[[]|e] w1] eqn:Eq;
    [|discriminate].
  unfold bind at 1. unfold SQL.select_queue_ordered.
  set (queueItems := sort_by SQL.queue_order
                       (filter (SQL.owned_by userId) (sync_queue w1))).
  unfold bind at 1. unfold make_batches.
  set (sl := slices (List.length queueItems)
                    (Pos.to_nat (SYNC_BATCH_SIZE w1)) queueItems).
  destruct (fold_sync_batch_counts userId sl (mkBatch [] [] 0 0) w1)
    as (b & w2 & Efold & _).
  unfold bind at 1. rewrite Efold.
  destruct (@slices_spec QueueRow.t (Pos.to_nat (SYNC_BATCH_SIZE w1))
              (Pos2Nat.is_pos _) (List.length queueItems) queueItems (le_n _))
    as (Hconcat & _).
  fold sl in Hconcat.
  set (logId := match syncId with
                | Some s => if Str.is_empty s then uuidv4 else ret s
                | None => uuidv4
                end).
  assert (Hlog : exists i w3, logId w2 = (Ok i, w3)
                              /\ tasks w3 = tasks w2).
  { unfold logId. destruct syncId as [s|]; [destruct (Str.is_empty s)|];
      eexists; eexists; (split; [reflexivity|]); auto. }
  destruct Hlog as (i & w3 & Ei & Ht3).
  unfold bind at 1. rewrite Ei.
  unfold bind at 1. unfold now at 1.
  unfold bind at 1. unfold try, SQL.insert_sync_log. msimpl.
  match goal with |- context [existsb ?f ?l] => destruct (existsb f l) end;
    unfold bind at 1; unfold SQL.select_tasks_updated_after; unfold ret;
    intros H; injection H as <- <-;
    exists w1, b, w2; (split; [reflexivity|]);
    (split; [exists sl; split; [exact Hconcat|exact Efold]|]);
    (split; [reflexivity|]); msimpl; exact Ht3.
Qed.

Lemma enqueue_changes_tasks changes userId w r w' :
  enqueue_changes changes userId w = (r, w') -> tasks w' = tasks w.
Proof.
  apply (@enqueue_changes_keeps userId (fun a b => tasks b = tasks a)).
  - reflexivity.
  - intros a b c H1 H2. congruence.
  - intros x y z H. injection H as _ <-. reflexivity.
  - intros x y z H. injection H as _ <-. reflexivity.
  - intros q _ x y z. unfold SQL.insert_queue.
    destruct (existsb _ _); intros H; injection H as _ <-; reflexivity.
Qed.

(** X22 - After a sync that returned with no failure, every task of
    the caller that an operation of the queue targeted is marked synced, and
    a task that is not synced is a row the sync left as it was: what
    getTasksNeedingSync then returns are rows from before the sync that no
    queued operation targeted. *)
Theorem clean_sync_leaves_targets_synced :
  forall (changes : list Change.t) (last_synced_at userId : string)
         (syncId : option string) (w w' : world) (res : sync_result),
    sync changes last_synced_at userId syncId w = (Ok res, w') ->
    failed res = 0 ->
    exists w1,
      enqueue_changes changes userId w = (Ok tt, w1)
      /\ (forall q t,
             In q (sync_queue w1) -> QueueRow.user_id q = userId ->
             In t (tasks w') -> Task.user_id t = userId ->
             Task.id t = QueueRow.task_id q ->
             Task.sync_status t = "synced")
      /\ (forall t, In t (tasks w') -> Task.sync_status t <> "synced" ->
                    In t (tasks w))
      /\ (forall l t,
             TaskService.getTasksNeedingSync userId w' = (Ok l, w') ->
             In t l ->
             In t (tasks w)
             /\ forall q, In q (sync_queue w1) -> QueueRow.user_id q = userId ->
                          QueueRow.task_id q <> Task.id t).
Proof.
  intros changes last userId syncId w w' res Hrun Hfailed.
  destruct (sync_ok_steps _ _ _ _ _ Hrun)
    as (w1 & b & w2 & Henq & (sl & Hconcat & Efold) & Hf & Ht).
  pose proof (enqueue_changes_tasks _ _ _ Henq) as Ht1.
  pose proof (@fold_batches_settle userId sl _ _ _ _ Efold
                ltac:(cbn [b_failed]; lia)) as Hs.
  rewrite Hconcat in Hs.
  assert (Hall : forall t, In t (tasks w') ->
            Task.sync_status t = "synced"
            \/ (In t (tasks w)
                /\ forall q, In q (sync_queue w1) ->
                             QueueRow.user_id q = userId ->
                             SQL.task_matches (QueueRow.task_id q) userId t
                             = false)).
  { intros t Hin. rewrite Ht in Hin.
    destruct (Hs t Hin) as [Hsy | [Hin1 Hno]]; [now left|].
    right. split; [now rewrite <- Ht1|].
    intros q Hq Hu. apply Hno. apply in_map.
    apply (Permutation_in _ (Permutation_sym (sort_by_perm _ _))).
    apply filter_In. split; [exact Hq|].
    unfold SQL.owned_by. now apply String.eqb_eq. }
  exists w1. split; [exact Henq|]. split; [|split].
  - intros q t Hq Hu Hin Htu Hid.
    destruct (Hall t Hin) as [Hsy | [_ Hno]]; [exact Hsy|].
    specialize (Hno q Hq Hu). unfold SQL.task_matches in Hno.
    rewrite Hid, Htu, !String.eqb_refl in Hno. discriminate.
  - intros t Hin Hns. destruct (Hall t Hin) as [Hsy | [Hold _]];
      [contradiction|exact Hold].
  - intros l t Hl Hin.
    unfold TaskService.getTasksNeedingSync in Hl.
    destruct (Str.is_empty userId); [discriminate|].
    unfold SQL.select_unsynced_tasks in Hl. injection Hl as <-.
    apply filter_In in Hin as [Hin Hun].
    apply unsynced_of_true in Hun as [Htu Hns].
    destruct (Hall t Hin) as [Hsy | [Hold Hno]]; [contradiction|].
    split; [exact Hold|]. intros q Hq Hu Hid.
    specialize (Hno q Hq Hu). unfold SQL.task_matches in Hno.
    rewrite Hid, Htu, !String.eqb_refl in Hno. discriminate.
Qed.

(** ** A change with an invalid operation *)

Lemma enqueue_changes_app pre post userId :
  forall w,
    enqueue_changes (pre ++ post) userId w =
    match enqueue_changes pre userId w with
    | (Ok _, w1) => enqueue_changes post userId w1
    | (Throw e, w1) => (Throw e, w1)
    end.
Proof.
  induction pre as [|c pre IH]; intros w.
  - reflexivity.
  - cbn [app]. rewrite !enqueue_changes_cons.
    destruct (negb (valid_operation (Change.operation c))); [reflexivity|].
    destruct (addToSyncQueue _ _ _ _ _ w) as [[[]|e] w1]; [apply IH|reflexivity].
Qed.

Lemma enqueued_rows_length userId uuid clk changes :
  forall u c,
    List.length (enqueued_rows userId uuid clk u c changes)
    = List.length changes.
Proof.
  induction changes as [|x rest IH]; intros u c; cbn [enqueued_rows List.length].
  - reflexivity.
  - now rewrite IH.
Qed.

(** X23 - Called with a list of changes one of which has an operation
    that is not create, update or delete, sync throws
    'Invalid operation: ...', but the changes before it in the list have
    already been appended to the queue and stay there; no task and no sync
    log is written. *)
Theorem invalid_change_aborts_sync_without_rollback :
  forall (pre : list Change.t) (c : Change.t) (post : list Change.t)
         (last_synced_at userId : string) (syncId : option string)
         (w w1 : world),
    enqueue_changes pre userId w = (Ok tt, w1) ->
    valid_operation (Change.operation c) = false ->
    let e := "Invalid operation: " ++ Change.operation c in
    sync (pre ++ c :: post) last_synced_at userId syncId w = (Throw e, w1)
    /\ sync_queue w1
       = (sync_queue w
          ++ enqueued_rows userId (uuids w) (clock w) (uuid_reads w)
                           (clock_reads w) pre)%list
    /\ tasks w1 = tasks w
    /\ sync_logs w1 = sync_logs w.
Proof.
  intros pre c post last userId syncId w w1 Hpre Hc e.
  assert (Henq : enqueue_changes (pre ++ c :: post) userId w = (Throw e, w1)).
  { rewrite enqueue_changes_app, Hpre, enqueue_changes_cons, Hc.
    reflexivity. }
  assert (Hsync : forall s, sync (pre ++ c :: post) last userId s w
                            = (Throw e, w1)).
  { intros s. unfold sync. unfold bind at 1. now rewrite Henq. }
  split; [apply Hsync|].
  destruct (enqueue_changes_appends _ _ _ Hpre) as (n & Hq & Hn & Ht & _).
  split.
  { rewrite Hq, (Hn eq_refl).
    rewrite <- (enqueued_rows_length userId (uuids w) (clock w) pre
                  (uuid_reads w) (clock_reads w)) at 1.
    now rewrite firstn_all. }
  split; [exact Ht|].
  exact (proj1 (logs_unchanged_until_logged userId pre (mkBatch [] [] 0 0) [])
           _ _ _ Hpre).
Qed.

(* ================================================================== *)
(** ** The properties of the services at concrete inputs *)

Lemma createTask_stores_what_it_returns_witness :
  exists t w',
    TaskService.createTask (Some (JStr "Buy milk")) None None Scenario.user
                           (Scenario.world_of Scenario.tick [] [])
    = (Ok t, w')
    /\ tasks w' = [t]
    /\ Task.title t = JStr "Buy milk"
    /\ TaskService.getTaskById (Task.id t) Scenario.user w' = (Ok (Some t), w').
Proof.
  destruct (TaskService.createTask (Some (JStr "Buy milk")) None None
              Scenario.user (Scenario.world_of Scenario.tick [] []))
    as [[t|e] w'] eqn:E; [|vm_compute in E; discriminate E].
  destruct (@createTask_stores_what_it_returns _ _ _ _ _ _ _ E)
    as (Htasks & _ & _ & Htitle & _ & _ & _ & _ & _ & _ & Hget & _).
  exists t, w'. split; [reflexivity|]. split; [exact Htasks|].
  split; [exact (Htitle _ eq_refl)|exact Hget].
Defined.

Lemma deleteTask_is_a_soft_delete_witness :
  exists w',
    TaskService.deleteTask "task-R" Scenario.user Scenario.two_updates
    = (Ok true, w')
    /\ TaskService.getTaskById "task-R" Scenario.user w' = (Ok None, w')
    /\ TaskService.deleteTask "task-R" Scenario.user w' = (Ok false, w').
Proof.
  destruct (TaskService.deleteTask "task-R" Scenario.user Scenario.two_updates)
    as [[[|]|e] w'] eqn:E; [|vm_compute in E; discriminate E ..].
  destruct (@deleteTask_is_a_soft_delete _ _ _ _ E)
    as (_ & _ & Hget & _ & Hagain & _).
  exists w'. split; [reflexivity|]. split; [exact Hget|exact Hagain].
Defined.

Lemma updateTask_returns_the_updated_row_witness :
  exists t w',
    TaskService.updateTask "task-R" (JObj [("title", JStr "Renamed")])
                           Scenario.user Scenario.two_updates
    = (Ok (Some t), w')
    /\ Task.id t = "task-R"
    /\ Task.title t = JStr "Renamed"
    /\ TaskService.getTaskById "task-R" Scenario.user w' = (Ok (Some t), w').
Proof.
  destruct (TaskService.updateTask "task-R" (JObj [("title", JStr "Renamed")])
              Scenario.user Scenario.two_updates)
    as [[[t|]|e] w'] eqn:E; [|vm_compute in E; discriminate E ..].
  destruct (@updateTask_returns_the_updated_row _ _ _ _ _ _ E)
    as (old & _ & Hid & _ & _ & _ & _ & _ & _ & _ & _ & Htitle & _ & _ & _
        & _ & _ & _ & _ & _ & _ & Hget & _).
  exists t, w'. split; [reflexivity|]. split; [exact Hid|].
  split; [exact (Htitle _ eq_refl)|exact Hget].
Defined.

Lemma update_or_delete_of_no_live_task_writes_nothing_witness :
  TaskService.deleteTask "task-X" Scenario.user Scenario.two_updates
  = (Ok false, Scenario.two_updates).
Proof.
  refine (proj1 (proj2 (@update_or_delete_of_no_live_task_writes_nothing
                          "task-X" JNull Scenario.user Scenario.two_updates
                          eq_refl eq_refl _))).
  intros t [<-|[]] H. vm_compute in H. discriminate H.
Defined.

Lemma other_users_rows_are_untouched_witness :
  rows_of "user-2"
          (snd (sync [] "2025-09-03T00:00:00.000Z" "user-1" None
                     Scenario.two_updates))
  = rows_of "user-2" Scenario.two_updates.
Proof.
  refine (proj1 (@other_users_rows_are_untouched "user-1" "user-2" _)
            [] "2025-09-03T00:00:00.000Z" None Scenario.two_updates _ _
            (surjective_pairing _)).
  discriminate.
Defined.

Lemma sync_accounts_for_every_queued_operation_witness :
  exists res w',
    sync [] "2025-09-03T00:00:00.000Z" Scenario.user None Scenario.two_updates
    = (Ok res, w')
    /\ processed res + failed res = 2.
Proof.
  destruct (sync [] "2025-09-03T00:00:00.000Z" Scenario.user None
                 Scenario.two_updates) as [[res|e] w'] eqn:E;
    [|vm_compute in E; discriminate E].
  pose proof (@sync_accounts_for_every_queued_operation _ _ _ _ _ _ _ E) as H.
  cbv beta iota in H. destruct H as (w1 & Henq & Hsum & _).
  exists res, w'. split; [reflexivity|].
  vm_compute in Henq. injection Henq as <-. exact Hsum.
Defined.

Lemma clean_sync_empties_the_queue_witness :
  exists res w',
    sync [] "2025-09-03T00:00:00.000Z" Scenario.user None Scenario.two_updates
    = (Ok res, w')
    /\ filter (SQL.owned_by Scenario.user) (sync_queue w') = [].
Proof.
  destruct (sync [] "2025-09-03T00:00:00.000Z" Scenario.user None
                 Scenario.two_updates) as [[res|e] w'] eqn:E;
    [|vm_compute in E; discriminate E].
  exists res, w'. split; [reflexivity|].
  refine (proj1 (@clean_sync_empties_the_queue _ _ _ _ _ _ _ E _)).
  vm_compute in E. injection E as <- _. reflexivity.
Defined.

Lemma applied_change_merges_payload_into_record_witness :
  exists w' sd,
    processItem Scenario.q_update_A
                (safeParseJSON (QueueRow.data Scenario.q_update_A))
                Scenario.user Scenario.two_updates
    = (Ok (mkResult None None (Some sd)), w')
    /\ map Task.id (tasks w') = ["task-R"].
Proof.
  destruct (@applied_change_merges_payload_into_record
              Scenario.q_update_A
              (safeParseJSON (QueueRow.data Scenario.q_update_A))
              Scenario.user Scenario.two_updates
              (Scenario.task "task-R" "2025-09-04T10:00:00.000Z" "pending")
              (or_introl eq_refl) eq_refl eq_refl eq_refl
              ltac:(vm_compute; discriminate)
              ltac:(vm_compute; reflexivity))
    as (w' & sd & Hrun & Hids & _).
  exists w', sd. split; [exact Hrun|exact Hids].
Defined.

Lemma payload_timestamp_decides_the_conflict_witness :
  exists w' sd,
    processItem Scenario.q_delete_plain
                (safeParseJSON (QueueRow.data Scenario.q_delete_plain))
                Scenario.user Scenario.update_then_plain_delete
    = (Ok (mkResult None None (Some sd)), w').
Proof.
  refine (proj1 (@payload_timestamp_decides_the_conflict
                   Scenario.q_delete_plain
                   (safeParseJSON (QueueRow.data Scenario.q_delete_plain))
                   Scenario.user Scenario.update_then_plain_delete
                   (Scenario.task "task-R" "2025-09-04T10:00:00.000Z" "pending")
                   1756980000000
                   (or_intror eq_refl) eq_refl eq_refl eq_refl _ _) _).
  - vm_compute. discriminate.
  - vm_compute. reflexivity.
  - vm_compute. reflexivity.
Defined.

Lemma created_task_is_copied_by_sync_witness :
  exists t w1 res w2,
    TaskService.createTask (Some (JStr "Buy milk")) None None Scenario.user
                           (Scenario.world_of Scenario.tick [] [])
    = (Ok t, w1)
    /\ sync [] "2025-09-03T00:00:00.000Z" Scenario.user None w1 = (Ok res, w2)
    /\ mappings res = [mkMapping "uuid-0" "uuid-2"]
    /\ map Task.server_id (tasks w2) = [Some "uuid-2"; Some "uuid-2"].
Proof.
  destruct (TaskService.createTask (Some (JStr "Buy milk")) None None
              Scenario.user (Scenario.world_of Scenario.tick [] []))
    as [[t|e] w1] eqn:E; [|vm_compute in E; discriminate E].
  assert (Hid : Task.id t = "uuid-0").
  { vm_compute in E. injection E as <- _. reflexivity. }
  destruct (@created_task_is_copied_by_sync
              (Some (JStr "Buy milk")) None None Scenario.user
              "2025-09-03T00:00:00.000Z" None
              (Scenario.world_of Scenario.tick [] []) w1 t E eq_refl)
    as (res & w2 & copy & Hsync & Hmap & _ & _ & _ & Htasks & _ & _ & _ & _
        & _ & _ & _ & Hsid & _).
  - vm_compute. reflexivity.
  - rewrite Hid. vm_compute. discriminate.
  - intros [].
  - exists t, w1, res, w2. split; [reflexivity|]. split; [exact Hsync|].
    split; [rewrite Hmap, Hid; vm_compute; reflexivity|].
    rewrite Htasks. cbn [tasks Scenario.world_of app map]. rewrite Hsid.
    vm_compute. reflexivity.
Defined.

Lemma second_sync_finds_nothing_to_do_witness :
  exists res w' res' w'',
    sync [] "2025-09-03T00:00:00.000Z" Scenario.user None Scenario.two_updates
    = (Ok res, w')
    /\ sync [] "2025-09-03T00:00:00.000Z" Scenario.user None w' = (Ok res', w'')
    /\ processed res' = 0
    /\ tasks w'' = tasks w'.
Proof.
  destruct (sync [] "2025-09-03T00:00:00.000Z" Scenario.user None
                 Scenario.two_updates) as [[res|e] w'] eqn:E;
    [|vm_compute in E; discriminate E].
  destruct (@second_sync_finds_nothing_to_do _ _ _ _ _ _ _ E
              ltac:(vm_compute in E; injection E as <- _; reflexivity)
              "2025-09-03T00:00:00.000Z" None)
    as (res' & w'' & Hsync & Hp & _ & _ & _ & _ & Ht & _).
  exists res, w', res', w''. split; [reflexivity|].
  split; [exact Hsync|]. split; [exact Hp|exact Ht].
Defined.

Lemma clean_sync_leaves_targets_synced_witness :
  exists res w',
    sync [] "2025-09-03T00:00:00.000Z" Scenario.user None Scenario.two_updates
    = (Ok res, w')
    /\ forall t, In t (tasks w') -> Task.user_id t = Scenario.user ->
                 Task.id t = "task-R" -> Task.sync_status t = "synced".
Proof.
  destruct (sync [] "2025-09-03T00:00:00.000Z" Scenario.user None
                 Scenario.two_updates) as [[res|e] w'] eqn:E;
    [|vm_compute in E; discriminate E].
  destruct (@clean_sync_leaves_targets_synced _ _ _ _ _ _ _ E
              ltac:(vm_compute in E; injection E as <- _; reflexivity))
    as (w1 & Henq & Hsynced & _).
  exists res, w'. split; [reflexivity|].
  intros t Hin Hu Hid.
  vm_compute in Henq. injection Henq as <-.
  apply (Hsynced Scenario.q_update_A t); auto. now left.
Defined.

Lemma invalid_change_aborts_sync_without_rollback_witness :
  let w := Scenario.world_of Scenario.tick [] [] in
  let ok := Change.mk "update" "local-1" None (Some (JObj [("title", JStr "A")])) in
  let bad := Change.mk "rename" "local-2" None (Some (JObj [])) in
  exists w1,
    sync [ok; bad] "2025-09-03T00:00:00.000Z" Scenario.user None w
    = (Throw "Invalid operation: rename", w1)
    /\ map QueueRow.task_id (sync_queue w1) = ["local-1"].
Proof.
  cbv zeta.
  destruct (enqueue_changes
              [Change.mk "update" "local-1" None
                 (Some (JObj [("title", JStr "A")]))]
              Scenario.user (Scenario.world_of Scenario.tick [] []))
    as [[[]|e] w1] eqn:E; [|vm_compute in E; discriminate E].
  destruct (@invalid_change_aborts_sync_without_rollback
              [Change.mk "update" "local-1" None
                 (Some (JObj [("title", JStr "A")]))]
              (Change.mk "rename" "local-2" None (Some (JObj [])))
              [] "2025-09-03T00:00:00.000Z" Scenario.user None
              (Scenario.world_of Scenario.tick [] []) w1 E eq_refl)
    as (Hsync & Hq & _).
  exists w1. split; [exact Hsync|]. rewrite Hq. reflexivity.
Defined.

(** The offline-to-online workflow of the integration test: the four
    operations are queued in the order of the calls; the sync completes with
    two mappings, no conflict, four operations processed and none failed;
    the queue is empty afterwards and one sync log has been written. *)
Example offline_to_online_workflow_of_the_test :
  let '(r, w') := Scenario.offline_then_online
                    (Scenario.world_of Scenario.tick [] []) in
  (exists res,
      r = Ok (["create"; "update"; "create"; "delete"], res, 0)
      /\ status res = "completed"
      /\ List.length (mappings res) = 2%nat
      /\ conflicts res = []
      /\ processed res = 4 /\ failed res = 0)
  /\ sync_queue w' = []
  /\ map SyncLog.status (sync_logs w') = ["completed"]
  /\ map SyncLog.processed (sync_logs w') = [4]
  /\ map SyncLog.failed (sync_logs w') = [0].
Proof.
  vm_compute. split; [|repeat split]. eexists. repeat split.
Qed.
